(** * Configuration resolution and squiggle mapping of [CppProperties]

    A shallow embedding of the TypeScript class [CppProperties]
    (configurations.ts of the C/C++ extension) and proofs about its list
    resolution, path resolution, schema migration, load and squiggle pass.

    Conventions.
    - A JavaScript string is the list of its code units; the embedding keeps
      the code units below 256, one [ascii] each.
    - [undefined] (an absent optional property) is [None].
    - JavaScript numbers that hold indices and offsets are [Z].
    - Functions imported from modules that are not part of this file
      ([util], [fs], [os], [JSON], [CppSettings]) are the fields of the
      class [Host]; every definition is parametric in it. *)

From Stdlib Require Import ZArith Ascii String List Bool Lia.
From stdpp Require Import base decidable option list strings gmap.

Local Open Scope Z_scope.
Local Open Scope list_scope.

Abbreviation jsstring := (list ascii).

(** A string literal as a JavaScript string. *)
Definition str (s : string) : jsstring := list_ascii_of_string s.
Global Arguments str : simpl never.

(** * JavaScript string primitives used by the class *)
Module JS.

(** [s.startsWith(p)]. *)
Fixpoint startsWith (s p : jsstring) {struct p} : bool :=
  match p, s with
  | [], _ => true
  | _ :: _, [] => false
  | b :: p', a :: s' => if decide (a = b) then startsWith s' p' else false
  end.

(** Index of the first occurrence of [sub] in [s], if any. *)
Fixpoint firstIndex (s sub : jsstring) : option nat :=
  if startsWith s sub then Some 0%nat
  else match s with
       | [] => None
       | _ :: t => S <$> firstIndex t sub
       end.

(** [s.includes(sub)]. *)
Definition includes (s sub : jsstring) : bool :=
  match firstIndex s sub with Some _ => true | None => false end.

(** [s.indexOf(sub, from)]; [from] is clamped into [0, s.length]. *)
Definition indexOf (s sub : jsstring) (from : Z) : Z :=
  let k := Z.to_nat (Z.min (Z.max from 0) (Z.of_nat (length s))) in
  match firstIndex (drop k s) sub with
  | Some i => Z.of_nat (k + i)
  | None => -1
  end.

(** [s.substr(start, len)]: a negative [start] counts from the end, an
    absent [len] takes the rest. *)
Definition substr (s : jsstring) (start : Z) (len : option Z) : jsstring :=
  let size := Z.of_nat (length s) in
  let st := if start <? 0 then Z.max (size + start) 0 else Z.min start size in
  let n := match len with
           | None => size - st
           | Some l => Z.min (Z.max l 0) (size - st)
           end in
  take (Z.to_nat n) (drop (Z.to_nat st) s).

(** The replacement text of [String.prototype.replace] for a string
    pattern (ECMAScript GetSubstitution without captures): [$$] is a
    dollar, [$&] the match, [$`] the text before it, [$'] the text after
    it; every other character stands for itself. *)
Fixpoint getSubstitution (matched before after repl : jsstring) : jsstring :=
  match repl with
  | [] => []
  | c :: r =>
    if decide (c = "$"%char) then
      match r with
      | d :: r' =>
        if decide (d = "$"%char) then "$"%char :: getSubstitution matched before after r'
        else if decide (d = "&"%char) then matched ++ getSubstitution matched before after r'
        else if decide (d = "`"%char) then before ++ getSubstitution matched before after r'
        else if decide (d = "'"%char) then after ++ getSubstitution matched before after r'
        else c :: getSubstitution matched before after r
      | [] => [c]
      end
    else c :: getSubstitution matched before after r
  end.

(** [s.replace(pat, repl)] with a string pattern: only the first
    occurrence of [pat] is replaced. *)
Definition replace (s pat repl : jsstring) : jsstring :=
  match firstIndex s pat with
  | None => s
  | Some i =>
    let before := take i s in
    let after := drop (i + length pat) s in
    before ++ getSubstitution pat before after repl ++ after
  end.

(** [s.replace(/c/g, '')] for a single character [c]. *)
Definition removeAll (c : ascii) (s : jsstring) : jsstring :=
  filter (λ a, a ≠ c) s.

(** [s.replace(/c/g, d)] for single characters [c] and [d] (neither is a
    dollar sign). *)
Definition replaceAllChar (c d : ascii) (s : jsstring) : jsstring :=
  (λ a, if decide (a = c) then d else a) <$> s.

(** [s.split(sep)] for a one-character separator. *)
Fixpoint split (sep : ascii) (s : jsstring) : list jsstring :=
  match s with
  | [] => [[]]
  | c :: t =>
    if decide (c = sep) then [] :: split sep t
    else match split sep t with
         | w :: ws => (c :: w) :: ws
         | [] => [[c]]
         end
  end.

(** The class [\s] of regular expressions, which is also what
    [String.prototype.trim] strips: tab, line feed, vertical tab, form
    feed, carriage return, space and no-break space. *)
Definition isSpace (a : ascii) : bool :=
  match a with
  | "009" | "010" | "011" | "012" | "013" | " " | "160" => true
  | _ => false
  end%char.

Fixpoint trimStart (s : jsstring) : jsstring :=
  match s with
  | a :: t => if isSpace a then trimStart t else s
  | [] => []
  end.

(** [s.trim()]. *)
Definition trim (s : jsstring) : jsstring :=
  reverse (trimStart (reverse (trimStart s))).

(** JavaScript truthiness of an optional string. *)
Definition truthy (o : option jsstring) : bool :=
  match o with
  | Some (_ :: _) => true
  | _ => false
  end.

End JS.

(** * Data model (the interfaces of the source file) *)

(** [type Environment = { [key: string]: string | string[] }] *)
Inductive EnvValue :=
| EnvString (s : jsstring)
| EnvList (l : list jsstring).

Abbreviation Environment := (gmap jsstring EnvValue).

Module KnownCompiler.
Record t := mk { path : jsstring; isC : bool }.
End KnownCompiler.

(** [limitSymbolsToIncludedHeaders?: boolean | string] *)
Inductive BoolOrString :=
| IsBool (b : bool)
| IsString (s : jsstring).

Module Browse.
Record t := mk {
  path : option (list jsstring);
  limitSymbolsToIncludedHeaders : option BoolOrString;
  databaseFilename : option jsstring
}.
End Browse.

(** The value of [compilerPath] and of [intelliSenseMode]: the property is
    absent ([undefined]), [null], or set. The code tells the three apart:
    [isCompilerIntelliSenseModeCompatible] (source lines 397-402) and
    [updateToVersion4] (lines 1329 and 1333) compare with [undefined]
    alone, and [applyDefaultConfigurationValues] (line 315) assigns
    [defaultIntelliSenseMode], which is [null] until it is set. *)
Inductive Optional (A : Type) :=
| Undefined
| Null
| Value (a : A).
Global Arguments Undefined {A}.
Global Arguments Null {A}.
Global Arguments Value {A} a.

Global Instance Optional_eq_dec {A} `{EqDecision A} : EqDecision (Optional A).
Proof.
  refine (λ x y,
            match x, y with
            | Undefined, Undefined | Null, Null => left _
            | Value a, Value b => cast_if (decide (a = b))
            | _, _ => right _
            end); abstract congruence.
Defined.

(** The text of a property in a template literal. *)
Definition templateText (o : Optional jsstring) : jsstring :=
  match o with
  | Undefined => str "undefined"
  | Null => str "null"
  | Value s => s
  end.

(** The value of a property that has one: what is left of it where the
    code tests it for truth or hands it on. *)
Definition valueOf {A} (o : Optional A) : option A :=
  match o with
  | Value a => Some a
  | Undefined | Null => None
  end.

(** A field of the class, which is [null] until it is set, as the value of
    a property. *)
Definition ofNullable {A} (o : option A) : Optional A :=
  match o with
  | Some a => Value a
  | None => Null
  end.

(** [interface Configuration]. The other optional properties are [None]
    when they have no value. *)
Record Configuration := mkConfiguration {
  name : jsstring;
  compilerPath : Optional jsstring;
  knownCompilers : option (list KnownCompiler.t);
  cStandard : option jsstring;
  cppStandard : option jsstring;
  includePath : option (list jsstring);
  macFrameworkPath : option (list jsstring);
  windowsSdkVersion : option jsstring;
  defines : option (list jsstring);
  intelliSenseMode : Optional jsstring;
  compileCommands : option jsstring;
  forcedInclude : option (list jsstring);
  configurationProvider : option jsstring;
  browse : option Browse.t
}.

(** A configuration that has only a name, as [{ name: n }]. *)
Definition namedConfig (n : jsstring) : Configuration :=
  mkConfiguration n Undefined None None None None None None None Undefined
                  None None None None.

(** [interface ConfigurationJson]. The field [version] holds the number read
    from the file, [None] when the file has none. *)
Record ConfigurationJson := mkConfigurationJson {
  configurations : list Configuration;
  env : option Environment;
  version : option Z;
  enableConfigurationSquiggles : option bool
}.

Definition configVersion : Z := 4.

(** [util.CompilerPathAndArgs], the result of
    [util.extractCompilerPathAndArgs]. *)
Module CompilerPathAndArgs.
Record t := mk {
  compilerPath : jsstring;
  compilerName : jsstring;
  additionalArgs : option (list jsstring)
}.
End CompilerPathAndArgs.

(** The values of [process.platform] the class tells apart. *)
Inductive Platform := darwin | win32 | otherPlatform.

Global Instance Platform_eq_dec : EqDecision Platform.
Proof. solve_decision. Defined.

(** The defaults of [CppSettings] the class reads; [None] is the [null] of an
    unset setting. *)
Record CppSettings := mkCppSettings {
  defaultIntelliSenseMode : option jsstring;
  defaultCompilerPath_setting : option jsstring;
  defaultCStandard_setting : option jsstring;
  defaultCppStandard_setting : option jsstring;
  defaultEnableConfigurationSquiggles : option bool
}.

(** What [JSON.parse] gives for the text of a properties file. *)
Inductive JsonResult :=
| JsonThrows (message : jsstring)
    (** the text is not JSON *)
| JsonFalsy
    (** [null], [false], [0] or the empty string *)
| JsonObject (configurations : option (list Configuration))
             (env : option Environment) (version : option Z)
             (enableConfigurationSquiggles : option bool).
    (** an object; [configurations] is [None] when the property is missing
        or falsy *)

(** The collaborators of the class: the modules it imports and the host it
    runs on. *)
Class Host := {
  (** [process.platform], which is also [os.platform()] *)
  platform : Platform;
  (** [util.resolveVariables(input, env)] *)
  resolveVariables : jsstring → Environment → jsstring;
  (** [util.extractCompilerPathAndArgs(path)] *)
  extractCompilerPathAndArgs : jsstring → CompilerPathAndArgs.t;
  (** [util.extractCompilerPathAndArgs(null)] *)
  extractCompilerPathAndArgs_null : CompilerPathAndArgs.t;
  (** [util.getVcpkgRoot()] *)
  getVcpkgRoot : jsstring;
  (** [util.escapeForSquiggles(text)] *)
  escapeForSquiggles : jsstring → jsstring;
  (** [fs.existsSync], [util.checkFileExistsSync] and
      [util.checkDirectoryExistsSync] *)
  existsSync : jsstring → bool;
  checkFileExistsSync : jsstring → bool;
  checkDirectoryExistsSync : jsstring → bool;
  (** [JSON.parse] *)
  JSON_parse : jsstring → JsonResult;
  (** [new CppSettings(this.rootUri)] *)
  settings : CppSettings;
  (** [getCustomConfigProviders().checkId(id)] *)
  checkId : option jsstring → option jsstring;
  (** [path.basename] *)
  basename : jsstring → jsstring
}.

(** [path.sep] *)
Definition path_sep `{Host} : ascii :=
  if decide (platform = win32) then "\"%char else "/"%char.

(** * List resolution *)
Section ListResolution.
Context `{Host}.

(** [resolveDefaults(entries, defaultValue)], source lines 475-489. *)
Definition resolveDefaults (entries : list jsstring)
    (defaultValue : option (list jsstring)) : list jsstring :=
  foldl (λ result entry,
           if decide (entry = str "${default}") then
             match defaultValue with
             | Some d => result ++ d
             | None => result
             end
           else result ++ [entry])
        [] entries.

(** [resolveAndSplit(paths, defaultValue, env)], source lines 491-501. *)
Definition resolveAndSplit (paths : option (list jsstring))
    (defaultValue : option (list jsstring)) (env : Environment) : list jsstring :=
  match paths with
  | Some paths =>
    let paths := resolveDefaults paths defaultValue in
    foldl (λ result entry,
             let entries :=
               filter (λ e : jsstring, e ≠ [])
                      (JS.split ";"%char (resolveVariables entry env)) in
             result ++ entries)
          [] paths
  | None => []
  end.

End ListResolution.

(** ** The list resolution in the words of the specification *)
Section ListResolutionSpec.
Context `{Host}.

(** The elements one entry stands for once [${default}] is expanded. *)
Definition expandDefault (defaultValue : option (list jsstring))
    (entry : jsstring) : list jsstring :=
  if decide (entry = str "${default}") then default [] defaultValue
  else [entry].

(** The non-empty [;]-separated fragments of one resolved entry. *)
Definition fragments (env : Environment) (entry : jsstring) : list jsstring :=
  filter (λ e : jsstring, e ≠ []) (JS.split ";"%char (resolveVariables entry env)).

(** The list resolution as the specification words it: expand the
    defaults in place, then resolve and split every element, keeping the
    order. *)
Definition resolveList_spec (values : list jsstring)
    (defaultValue : option (list jsstring)) (env : Environment) : list jsstring :=
  mjoin (fragments env <$> mjoin (expandDefault defaultValue <$> values)).

End ListResolutionSpec.

(** [ws.join(sep)] for a one-character separator. *)
Fixpoint joinWith (sep : ascii) (ws : list jsstring) : jsstring :=
  match ws with
  | [] => []
  | [w] => w
  | w :: ws' => w ++ sep :: joinWith sep ws'
  end.

(** * Concrete hosts, used to run the embedding on examples *)

(** The text after the last [/] or [\] of a path. *)
Fixpoint lastSegment (s : jsstring) : jsstring :=
  match s with
  | [] => []
  | c :: t =>
    if existsb (λ a, bool_decide (a = "/"%char ∨ a = "\"%char)) t then lastSegment t
    else if bool_decide (c = "/"%char ∨ c = "\"%char) then t
    else s
  end.

(** A host on platform [plat] whose variable resolver finds no variable to
    substitute, whose compiler name is the last segment of the path, with
    vcpkg root [vcpkg], file system [fsKind] (is there a file, a directory or
    nothing at a path) and JSON parser [parse]; no setting is set. *)
Inductive FsEntry := NoEntry | FileEntry | DirectoryEntry.

Definition demoHost (plat : Platform) (vcpkg : jsstring)
    (fsKind : jsstring → FsEntry) (parse : jsstring → JsonResult) : Host := {|
  platform := plat;
  resolveVariables := λ input _, input;
  extractCompilerPathAndArgs := λ p,
    CompilerPathAndArgs.mk p (lastSegment p) None;
  extractCompilerPathAndArgs_null := CompilerPathAndArgs.mk [] [] None;
  getVcpkgRoot := vcpkg;
  escapeForSquiggles := λ text, text;
  existsSync := λ p, match fsKind p with NoEntry => false | _ => true end;
  checkFileExistsSync := λ p, match fsKind p with FileEntry => true | _ => false end;
  checkDirectoryExistsSync := λ p,
    match fsKind p with DirectoryEntry => true | _ => false end;
  JSON_parse := parse;
  settings := mkCppSettings None None None None None;
  checkId := λ id, id;
  basename := lastSegment
|}.

(** A Linux host with an empty file system. *)
Definition linuxHost : Host :=
  demoHost otherPlatform [] (λ _, NoEntry) (λ _, JsonThrows (str "Unexpected token")).

(** A Windows host with an empty file system. *)
Definition windowsHost : Host :=
  demoHost win32 [] (λ _, NoEntry) (λ _, JsonThrows (str "Unexpected token")).

(** * The state of a [CppProperties] object *)

(** The counters of one squiggle pass
    ([{ PathNonExistent: 0, PathNotAFile: 0, ... }]). *)
Record SquiggleMetrics := mkSquiggleMetrics {
  PathNonExistent : nat;
  PathNotAFile : nat;
  PathNotADirectory : nat;
  CompilerPathMissingQuotes : nat;
  CompilerModeMismatch : nat
}.

Global Instance SquiggleMetrics_eq_dec : EqDecision SquiggleMetrics.
Proof. solve_decision. Defined.

Definition zeroMetrics : SquiggleMetrics := mkSquiggleMetrics 0 0 0 0 0.

(** [new vscode.Diagnostic(new vscode.Range(positionAt(start), positionAt(end)),
    message, vscode.DiagnosticSeverity.Warning)]; a position is kept as the
    offset it was made from. All diagnostics of the class are warnings. *)
Record Diagnostic := mkDiagnostic {
  rangeStart : Z;
  rangeEnd : Z;
  message : jsstring
}.

(** ** The object behind [prevSquiggleMetrics]

    The field is created by [new Map()] but is never used through [get] and
    [set]: the class reads and writes [this.prevSquiggleMetrics[name]], that
    is, properties of the object. A read that finds no own property goes up
    the prototype chain, and a write has to respect an accessor found
    there. *)
Module JSObject.

(** The prototype of the object: [Map.prototype] at first; an assignment to
    the property [__proto__] replaces it by the assigned counters object,
    whose own prototype is [Object.prototype]. *)
Inductive Proto :=
| MapPrototype
| MetricsPrototype (m : SquiggleMetrics).

Record t := mk {
  own : gmap jsstring SquiggleMetrics;
  proto : Proto
}.

(** The result of reading a property. *)
Inductive Value :=
| VUndefined
| VMetrics (m : SquiggleMetrics)
    (** a counters object *)
| VOther.
    (** a value that is not [undefined] and has none of the five counters
        as a property: a method, the number [size], [Map.prototype] *)

(** The string-named properties of [Object.prototype] but [__proto__]. *)
Definition objectPrototypeMethods : list jsstring :=
  str <$> ["constructor"; "__defineGetter__"; "__defineSetter__";
           "hasOwnProperty"; "__lookupGetter__"; "__lookupSetter__";
           "isPrototypeOf"; "propertyIsEnumerable"; "toString"; "valueOf";
           "toLocaleString"]%string.

(** The string-named methods of [Map.prototype]; [size] is apart, it is an
    accessor with a getter only. *)
Definition mapPrototypeMethods : list jsstring :=
  str <$> ["constructor"; "clear"; "delete"; "entries"; "forEach"; "get";
           "has"; "keys"; "set"; "values"]%string.

(** The five property names of a counters object. *)
Definition metricsProperties : list jsstring :=
  str <$> ["PathNonExistent"; "PathNotAFile"; "PathNotADirectory";
           "CompilerPathMissingQuotes"; "CompilerModeMismatch"]%string.

(** [o[key]] *)
Definition get (o : t) (key : jsstring) : Value :=
  match own o !! key with
  | Some m => VMetrics m
  | None =>
    if decide (key = str "__proto__") then
      match proto o with
      | MapPrototype => VOther
      | MetricsPrototype m => VMetrics m
      end
    else if bool_decide (key ∈ objectPrototypeMethods) then VOther
    else
      match proto o with
      | MapPrototype =>
        if bool_decide (key = str "size" ∨ key ∈ mapPrototypeMethods)
        then VOther else VUndefined
      | MetricsPrototype _ =>
        if bool_decide (key ∈ metricsProperties) then VOther else VUndefined
      end
  end.

(** [o[key] = m] in strict mode; [None] is the [TypeError] of an
    assignment to an inherited accessor that has no setter. *)
Definition set (o : t) (key : jsstring) (m : SquiggleMetrics) : option t :=
  match own o !! key with
  | Some _ => Some (mk (<[key := m]> (own o)) (proto o))
  | None =>
    if decide (key = str "__proto__") then Some (mk (own o) (MetricsPrototype m))
    else
      match proto o with
      | MapPrototype =>
        if decide (key = str "size") then None
        else Some (mk (<[key := m]> (own o)) (proto o))
      | MetricsPrototype _ => Some (mk (<[key := m]> (own o)) (proto o))
      end
  end.

(** [new Map()] *)
Definition newMap : t := mk ∅ MapPrototype.

End JSObject.

(** The fields of the class the embedded methods read or write. *)
Record CppProperties := mkCppProperties {
  (** [this.rootUri.fsPath] *)
  rootUri : jsstring;
  (** [this.propertiesFile]; [None] is [null] or [undefined] *)
  propertiesFile : option jsstring;
  configurationJson : option ConfigurationJson;
  (** [this.currentConfigurationIndex.Value] *)
  currentConfigurationIndex : Z;
  defaultCompilerPath : option jsstring;
  defaultCStandard : option jsstring;
  defaultCppStandard : option jsstring;
  rootfs : option jsstring;
  configurationIncomplete : bool;
  (** the diagnostics of the properties document held by
      [this.diagnosticCollection] *)
  diagnosticCollection : list Diagnostic;
  prevSquiggleMetrics : JSObject.t
}.

Definition set_configurationJson (j : option ConfigurationJson)
    (this : CppProperties) : CppProperties :=
  mkCppProperties (rootUri this) (propertiesFile this) j
    (currentConfigurationIndex this) (defaultCompilerPath this)
    (defaultCStandard this) (defaultCppStandard this) (rootfs this)
    (configurationIncomplete this) (diagnosticCollection this)
    (prevSquiggleMetrics this).

Definition set_currentConfigurationIndex (i : Z)
    (this : CppProperties) : CppProperties :=
  mkCppProperties (rootUri this) (propertiesFile this) (configurationJson this)
    i (defaultCompilerPath this)
    (defaultCStandard this) (defaultCppStandard this) (rootfs this)
    (configurationIncomplete this) (diagnosticCollection this)
    (prevSquiggleMetrics this).

Definition set_configurationIncomplete (b : bool)
    (this : CppProperties) : CppProperties :=
  mkCppProperties (rootUri this) (propertiesFile this) (configurationJson this)
    (currentConfigurationIndex this) (defaultCompilerPath this)
    (defaultCStandard this) (defaultCppStandard this) (rootfs this)
    b (diagnosticCollection this)
    (prevSquiggleMetrics this).

Definition set_diagnosticCollection (d : list Diagnostic)
    (this : CppProperties) : CppProperties :=
  mkCppProperties (rootUri this) (propertiesFile this) (configurationJson this)
    (currentConfigurationIndex this) (defaultCompilerPath this)
    (defaultCStandard this) (defaultCppStandard this) (rootfs this)
    (configurationIncomplete this) d
    (prevSquiggleMetrics this).

Definition set_prevSquiggleMetrics (o : JSObject.t)
    (this : CppProperties) : CppProperties :=
  mkCppProperties (rootUri this) (propertiesFile this) (configurationJson this)
    (currentConfigurationIndex this) (defaultCompilerPath this)
    (defaultCStandard this) (defaultCppStandard this) (rootfs this)
    (configurationIncomplete this) (diagnosticCollection this)
    o.

(** * Compiler and IntelliSense mode *)
Section Compatibility.
Context `{Host}.

(** [isCompilerIntelliSenseModeCompatible(configuration)], source lines
    393-407. *)
Definition isCompilerIntelliSenseModeCompatible
    (configuration : Configuration) : bool :=
  if bool_decide (compilerPath configuration = Undefined)
     || bool_decide (compilerPath configuration = Value (str ""))
     || bool_decide (compilerPath configuration = Value (str "${default}"))
     || bool_decide (intelliSenseMode configuration = Undefined)
     || bool_decide (intelliSenseMode configuration = Value (str ""))
     || bool_decide (intelliSenseMode configuration = Value (str "${default}"))
  then true
  else
    let compilerPathAndArgs :=
      match compilerPath configuration with
      | Value path => extractCompilerPathAndArgs path
      | Undefined | Null => extractCompilerPathAndArgs_null
      end in
    Bool.eqb
      (bool_decide (CompilerPathAndArgs.compilerName compilerPathAndArgs
                    = str "cl.exe"))
      (bool_decide (intelliSenseMode configuration = Value (str "msvc-x64"))).

End Compatibility.

(** * Path resolution *)
Section PathResolution.
Context `{Host}.

(** [get ExtendedEnvironment()], source lines 319-327; [None] is the
    [TypeError] of reading [env] of a document that is [null]. *)
Definition ExtendedEnvironment (this : CppProperties) : option Environment :=
  json ← configurationJson this;
  let result : Environment := default ∅ (env json) in
  Some (<[str "workspaceFolderBasename" := EnvString (basename (rootUri this))]> result).

(** The replacements of the workspace tokens and the removal of the stars,
    source lines 884-895. *)
Definition replaceWorkspaceTokens (this : CppProperties)
    (result : jsstring) : jsstring :=
  let result :=
    if JS.includes result (str "${workspaceFolder}")
    then JS.replace result (str "${workspaceFolder}") (rootUri this)
    else result in
  let result :=
    if JS.includes result (str "${workspaceRoot}")
    then JS.replace result (str "${workspaceRoot}") (rootUri this)
    else result in
  let result :=
    if JS.includes result (str "${vcpkgRoot}") && JS.truthy (Some getVcpkgRoot)
    then JS.replace result (str "${vcpkgRoot}") getVcpkgRoot
    else result in
  if JS.includes result (str "*") then JS.removeAll "*"%char result
  else result.

(** [// resolve WSL paths], source lines 897-907. *)
Definition resolveWSL (this : CppProperties) (isWindows : bool)
    (result : jsstring) : jsstring :=
  if isWindows && JS.startsWith result (str "/") then
    let mntStr := str "/mnt/" in
    if (Z.of_nat (length result) >? Z.of_nat (length (str "/mnt/c/")))
       && bool_decide (JS.substr result 0 (Some (Z.of_nat (length mntStr))) = mntStr)
    then
      let result := JS.substr result (Z.of_nat (length mntStr)) None in
      JS.substr result 0 (Some 1) ++ str ":" ++ JS.substr result 1 None
    else
      match rootfs this with
      | Some fs =>
        if (Z.of_nat (length fs) >? 0) then fs ++ JS.substr result 1 None
        else result
      | None => result
      end
  else result.

(** [resolvePath(path, isWindows)], source lines 875-910; [None] is an
    exception. *)
Definition resolvePath (this : CppProperties) (path : option jsstring)
    (isWindows : bool) : option jsstring :=
  if negb (JS.truthy path) || bool_decide (path = Some (str "${default}"))
  then Some []
  else
    env ← ExtendedEnvironment this;
    let result := resolveVariables (default [] path) env in
    Some (resolveWSL this isWindows (replaceWorkspaceTokens this result)).

End PathResolution.

(** The three tokens [resolvePath] replaces, in the order of the source,
    and the text each one is replaced by. *)
Definition workspaceTokens : list jsstring :=
  [str "${workspaceFolder}"; str "${workspaceRoot}"; str "${vcpkgRoot}"].

Definition tokenValue `{Host} (this : CppProperties) (token : jsstring) : jsstring :=
  if decide (token = str "${vcpkgRoot}") then getVcpkgRoot else rootUri this.

(** [s] holds [token] at two places that do not overlap. *)
Definition occursTwice (s token : jsstring) : Prop :=
  ∃ a c d, s = a ++ token ++ c ++ token ++ d.

(** In the words of the specification: [replaced] is [s] with its first
    [token] replaced by [value], and it is [s] when [s] holds no
    [token]. *)
Definition firstReplaced (token value s replaced : jsstring) : Prop :=
  ((∀ a b, s ≠ a ++ token ++ b) ∧ replaced = s)
  ∨ ∃ a b, s = a ++ token ++ b
           ∧ (∀ a' b', s = a' ++ token ++ b' → (length a ≤ length a')%nat)
           ∧ replaced = a ++ value ++ b.

(** States used to run the embedding on examples: a loaded document with
    the single configuration [Linux], workspace root [root] and
    root-filesystem prefix [prefix]. *)
Definition demoState (root : jsstring) (prefix : option jsstring) : CppProperties :=
  mkCppProperties root (Some (root ++ str "/.vscode/c_cpp_properties.json"))
    (Some (mkConfigurationJson [namedConfig (str "Linux")] None (Some 4) None))
    0 None None None prefix false [] JSObject.newMap.

(** * The regular expressions of the squiggle pass *)
Module Regex.

Definition dquote : ascii := "034"%char.

(** [q s] is [s] between double quotes. *)
Definition q (s : string) : jsstring := dquote :: str s ++ [dquote].

(** All the patterns but the one for paths are sequences of literal texts
    and [\s*]. Every [\s*] is followed by a literal that starts with a
    character that is no white space, so the greedy [\s*] never has to
    give a character back. *)
Inductive Item :=
| Lit (s : jsstring)
| Spaces.

Fixpoint skipSpaces (text : jsstring) : jsstring :=
  match text with
  | a :: t => if JS.isSpace a then skipSpaces t else text
  | [] => []
  end.

(** Does the sequence match at the start of [text]? *)
Fixpoint matchesAt (items : list Item) (text : jsstring) : bool :=
  match items with
  | [] => true
  | Lit s :: items' =>
    JS.startsWith text s && matchesAt items' (drop (length s) text)
  | Spaces :: items' => matchesAt items' (skipSpaces text)
  end.

Fixpoint searchFrom (items : list Item) (text : jsstring) : option nat :=
  if matchesAt items text then Some 0%nat
  else match text with
       | [] => None
       | _ :: t => S <$> searchFrom items t
       end.

(** [text.search(new RegExp(items))]: the index of the leftmost match,
    [-1] when there is none. *)
Definition search (items : list Item) (text : jsstring) : Z :=
  match searchFrom items text with
  | Some i => Z.of_nat i
  | None => -1
  end.

(** ** The pattern for a path

    With Q for the double quote, the pattern is
    [Q[^Q]*?(?<=Q|;)escapedPath(?=Q|;).*?Q] with the flag [g], where
    [escapedPath] is the path with a backslash put before each of its
    double quotes and then every character that is special in a regular
    expression escaped: it matches, literally, [needle curPath]. *)
Definition needle (curPath : jsstring) : jsstring :=
  curPath ≫= (λ c, if decide (c = dquote) then ["\"%char; dquote] else [c]).

(** [.] matches any character but a line terminator. *)
Definition isLineTerminator (a : ascii) : bool :=
  match a with
  | "010" | "013" => true
  | _ => false
  end%char.

Definition isQuoteOrSemicolon (a : ascii) : bool :=
  bool_decide (a = dquote) || bool_decide (a = ";"%char).

(** [.*?Q] at the start of [s]: the number of characters up to and with
    the first double quote, which no line terminator may precede. *)
Fixpoint lazyToQuote (s : jsstring) : option nat :=
  match s with
  | [] => None
  | c :: t =>
    if decide (c = dquote) then Some 1%nat
    else if isLineTerminator c then None
    else S <$> lazyToQuote t
  end.

(** [escapedPath(?=Q|;).*?Q] at the start of [s]. *)
Definition matchTail (ndl s : jsstring) : option nat :=
  if JS.startsWith s ndl then
    let rest := drop (length ndl) s in
    match rest with
    | c :: _ =>
      if isQuoteOrSemicolon c then (λ n, length ndl + n)%nat <$> lazyToQuote rest
      else None
    | [] => None
    end
  else None.

(** [[^Q]*?(?<=Q|;)escapedPath(?=Q|;).*?Q] at the start of [s], where
    [prev] is the character before [s]: the lazy [[^Q]*?] takes as few
    characters as a match allows. *)
Fixpoint matchBody (ndl : jsstring) (prev : ascii) (s : jsstring) : option nat :=
  match (if isQuoteOrSemicolon prev then matchTail ndl s else None) with
  | Some n => Some n
  | None =>
    match s with
    | c :: t =>
      if decide (c = dquote) then None else S <$> matchBody ndl c t
    | [] => None
    end
  end.

(** The length of the match of the pattern at the start of [text]. *)
Definition matchPath (ndl text : jsstring) : option nat :=
  match text with
  | c :: rest =>
    if decide (c = dquote) then S <$> matchBody ndl dquote rest else None
  | [] => None
  end.

Fixpoint searchPathFrom (ndl text : jsstring) : option nat :=
  match matchPath ndl text with
  | Some _ => Some 0%nat
  | None =>
    match text with
    | [] => None
    | _ :: t => S <$> searchPathFrom ndl t
    end
  end.

(** [text.search(pattern)] *)
Definition searchPath (ndl text : jsstring) : Z :=
  match searchPathFrom ndl text with
  | Some i => Z.of_nat i
  | None => -1
  end.

(** [text.match(pattern)] with the flag [g]: the matched texts from left
    to right, each search starting where the match before ended; [skip]
    counts the characters of the last match that are still ahead. The
    [null] of no match is the empty list. *)
Fixpoint matchAllFrom (ndl : jsstring) (skip : nat) (text : jsstring) : list jsstring :=
  match text with
  | [] => []
  | _ :: t =>
    match skip with
    | S k => matchAllFrom ndl k t
    | O =>
      match matchPath ndl text with
      | Some n => take n text :: matchAllFrom ndl (n - 1) t
      | None => matchAllFrom ndl 0 t
      end
    end
  end.

Definition matchAll (ndl text : jsstring) : list jsstring :=
  matchAllFrom ndl 0 text.

End Regex.

(** * The squiggle pass *)

(** What the pass sends to [telemetry.logLanguageServerEvent] under the
    event name [ConfigSquiggles]: an error, or the counters that changed. *)
Inductive TelemetryEvent :=
| ConfigSquigglesError (error : jsstring)
| ConfigSquigglesMetrics (changed : list (jsstring * nat)).

(** The five counters by name, in the order the source compares them. *)
Definition metricsFields : list (jsstring * (SquiggleMetrics → nat)) :=
  [(str "PathNonExistent", PathNonExistent);
   (str "PathNotAFile", PathNotAFile);
   (str "PathNotADirectory", PathNotADirectory);
   (str "CompilerPathMissingQuotes", CompilerPathMissingQuotes);
   (str "CompilerModeMismatch", CompilerModeMismatch)].

Definition incrPathNonExistent (m : SquiggleMetrics) : SquiggleMetrics :=
  mkSquiggleMetrics (S (PathNonExistent m)) (PathNotAFile m) (PathNotADirectory m)
    (CompilerPathMissingQuotes m) (CompilerModeMismatch m).
Definition incrPathNotAFile (m : SquiggleMetrics) : SquiggleMetrics :=
  mkSquiggleMetrics (PathNonExistent m) (S (PathNotAFile m)) (PathNotADirectory m)
    (CompilerPathMissingQuotes m) (CompilerModeMismatch m).
Definition incrPathNotADirectory (m : SquiggleMetrics) : SquiggleMetrics :=
  mkSquiggleMetrics (PathNonExistent m) (PathNotAFile m) (S (PathNotADirectory m))
    (CompilerPathMissingQuotes m) (CompilerModeMismatch m).
Definition incrCompilerPathMissingQuotes (m : SquiggleMetrics) : SquiggleMetrics :=
  mkSquiggleMetrics (PathNonExistent m) (PathNotAFile m) (PathNotADirectory m)
    (S (CompilerPathMissingQuotes m)) (CompilerModeMismatch m).
Definition incrCompilerModeMismatch (m : SquiggleMetrics) : SquiggleMetrics :=
  mkSquiggleMetrics (PathNonExistent m) (PathNotAFile m) (PathNotADirectory m)
    (CompilerPathMissingQuotes m) (S (CompilerModeMismatch m)).

(** [paths.add(x)] on a [Set], which keeps the order of insertion. *)
Definition setAdd (x : jsstring) (s : list jsstring) : list jsstring :=
  if bool_decide (x ∈ s) then s else s ++ [x].

(** The start and end offsets of the properties that hold files, source
    lines 1152-1158. *)
Record FileRanges := mkFileRanges {
  forcedIncludeStart : Z;
  forcedeIncludeEnd : Z;
  compileCommandsStart : Z;
  compileCommandsEnd : Z;
  compilerPathStart : Z;
  compilerPathEnd : Z
}.

(** The verdict on one path of the configuration, source lines 1160-1215:
    skipped, or checked on the file system. *)
Inductive PathVerdict :=
| SkipPath
| CheckedPath (resolvedPath : jsstring) (pathExists compilerPathNeedsQuotes : bool).

(** Where the text of the current configuration was found, or why not. *)
Inductive Window :=
| NoWindow (events : list TelemetryEvent)
| WindowAt (curTextStartOffset : Z) (curText : jsstring).

Section SquigglePass.
Context `{Host}.
Import Regex.

Definition isWindowsHost : bool := bool_decide (platform = win32).

(** The text of the current configuration, source lines 1085-1104. *)
Definition configurationWindow (configName curText : jsstring) : Window :=
  let configStart :=
    search [Lit (str "{"); Spaces; Lit (q "name"); Spaces; Lit (str ":");
            Spaces; Lit (dquote :: configName ++ [dquote])] curText in
  if decide (configStart = -1) then
    NoWindow [ConfigSquigglesError (str "config name not first")]
  else
    let curTextStartOffset := configStart + 1 in
    let curText := JS.substr curText curTextStartOffset None in
    let nameEnd := JS.indexOf curText (str ":") 0 in
    let curTextStartOffset := curTextStartOffset + (nameEnd + 1) in
    let curText := JS.substr curText (nameEnd + 1) None in
    let nextNameStart :=
      search [Lit (q "name"); Spaces; Lit (str ":"); Spaces; Lit [dquote]]
             curText in
    if decide (nextNameStart ≠ -1) then
      let curText := JS.substr curText 0 (Some (nextNameStart + 6)) in
      let nextNameStart2 :=
        search [Spaces; Lit (str "}"); Spaces; Lit (str ","); Spaces;
                Lit (str "{"); Spaces; Lit (q "name")] curText in
      if decide (nextNameStart2 = -1) then
        NoWindow [ConfigSquigglesError (str "next config name not first")]
      else WindowAt curTextStartOffset (JS.substr curText 0 (Some nextNameStart2))
    else WindowAt curTextStartOffset curText.

(** The squiggle for an IntelliSense mode that does not fit the compiler,
    source lines 1113-1131. *)
Definition intelliSenseModeSquiggle (currentConfiguration : Configuration)
    (curTextStartOffset : Z) (curText : jsstring)
    (acc : list Diagnostic * SquiggleMetrics) : list Diagnostic * SquiggleMetrics :=
  if isWindowsHost then
    let intelliSenseModeStart :=
      search [Spaces; Lit (q "intelliSenseMode"); Spaces; Lit (str ":");
              Spaces; Lit [dquote]] curText in
    if decide (intelliSenseModeStart ≠ -1) then
      let intelliSenseModeValueStart :=
        JS.indexOf curText [dquote]
                   (JS.indexOf curText (str ":") intelliSenseModeStart) in
      let intelliSenseModeValueEnd :=
        JS.indexOf curText [dquote] (intelliSenseModeValueStart + 1) + 1 in
      if negb (isCompilerIntelliSenseModeCompatible currentConfiguration) then
        let message :=
          str "intelliSenseMode "
          ++ templateText (intelliSenseMode currentConfiguration)
          ++ str " is incompatible with compilerPath." in
        (acc.1 ++ [mkDiagnostic (curTextStartOffset + intelliSenseModeValueStart)
                                (curTextStartOffset + intelliSenseModeValueEnd)
                                message],
         incrCompilerModeMismatch acc.2)
      else acc
    else acc
  else acc.

(** The paths to check, source lines 1133-1150. *)
Definition pathsOfInterest (currentConfiguration : Configuration) : list jsstring :=
  let paths :=
    foldl (λ paths pathArray,
             match pathArray with
             | Some pathArray => foldl (λ paths curPath, setAdd curPath paths) paths pathArray
             | None => paths
             end)
          []
          [browse currentConfiguration ≫= Browse.path;
           includePath currentConfiguration;
           macFrameworkPath currentConfiguration;
           forcedInclude currentConfiguration] in
  let paths :=
    if JS.truthy (compileCommands currentConfiguration)
    then setAdd (default [] (compileCommands currentConfiguration)) paths
    else paths in
  if JS.truthy (valueOf (compilerPath currentConfiguration))
  then setAdd (default [] (valueOf (compilerPath currentConfiguration))) paths
  else paths.

(** Source lines 1152-1158. *)
Definition fileRanges (curText : jsstring) : FileRanges :=
  let forcedIncludeStart :=
    search [Spaces; Lit (q "forcedInclude"); Spaces; Lit (str ":"); Spaces;
            Lit (str "[")] curText in
  let forcedeIncludeEnd :=
    if decide (forcedIncludeStart = -1) then -1
    else JS.indexOf curText (str "]") forcedIncludeStart in
  let compileCommandsStart :=
    search [Spaces; Lit (q "compileCommands"); Spaces; Lit (str ":"); Spaces;
            Lit [dquote]] curText in
  let compileCommandsEnd :=
    if decide (compileCommandsStart = -1) then -1
    else JS.indexOf curText [dquote]
           (JS.indexOf curText [dquote]
              (JS.indexOf curText (str ":") compileCommandsStart) + 1) in
  let compilerPathStart :=
    search [Spaces; Lit (q "compilerPath"); Spaces; Lit (str ":"); Spaces;
            Lit [dquote]] curText in
  let compilerPathEnd :=
    if decide (compilerPathStart = -1) then -1
    else JS.indexOf curText [dquote]
           (JS.indexOf curText [dquote]
              (JS.indexOf curText (str ":") compilerPathStart) + 1) + 1 in
  mkFileRanges forcedIncludeStart forcedeIncludeEnd compileCommandsStart
    compileCommandsEnd compilerPathStart compilerPathEnd.

(** [// Normalize path separators.], source lines 1210-1215. *)
Definition normalizeSeparators (resolvedPath : jsstring) : jsstring :=
  if decide (path_sep = "/"%char)
  then JS.replaceAllChar "\"%char path_sep resolvedPath
  else JS.replaceAllChar "/"%char path_sep resolvedPath.

(** Resolution and existence of one path, source lines 1160-1215; [None]
    is an exception of [resolvePath]. *)
Definition examinePath (this : CppProperties) (currentConfiguration : Configuration)
    (curPath : jsstring) : option PathVerdict :=
  let isWindows := isWindowsHost in
  let isCompilerPath :=
    bool_decide (Value curPath = compilerPath currentConfiguration) in
  if decide (curPath = str "${default}") then Some SkipPath
  else
    resolvedPath ← resolvePath this (Some curPath) isWindows;
    if decide (resolvedPath = []) then Some SkipPath
    else
      let compilerCase :=
        if isCompilerPath then
          let resolvedPath := JS.trim resolvedPath in
          let compilerPathAndArgs := extractCompilerPathAndArgs resolvedPath in
          if isWindows
             && bool_decide (CompilerPathAndArgs.compilerName compilerPathAndArgs
                             = str "cl.exe")
          then None
          else
            Some (CompilerPathAndArgs.compilerPath compilerPathAndArgs,
                  bool_decide (is_Some (CompilerPathAndArgs.additionalArgs
                                          compilerPathAndArgs))
                  && negb (JS.startsWith resolvedPath [dquote])
                  && JS.includes (CompilerPathAndArgs.compilerPath
                                    compilerPathAndArgs) (str " "))
        else Some (resolvedPath, false) in
      match compilerCase with
      | None => Some SkipPath
      | Some (resolvedPath, compilerPathNeedsQuotes) =>
        let isWSL := isWindows && JS.startsWith resolvedPath (str "/") in
        let existsWithExeAdded (path : jsstring) :=
          isCompilerPath && isWindows && negb isWSL
          && existsSync (path ++ str ".exe") in
        let '(resolvedPath, pathExists) :=
          if negb (existsSync resolvedPath) then
            if existsWithExeAdded resolvedPath
            then (resolvedPath ++ str ".exe", true)
            else
              let relativePath := rootUri this ++ [path_sep] ++ resolvedPath in
              if negb (existsSync relativePath) then
                if existsWithExeAdded resolvedPath
                then (resolvedPath ++ str ".exe", true)
                else (resolvedPath, false)
              else (relativePath, true)
          else (resolvedPath, true) in
        Some (CheckedPath (normalizeSeparators resolvedPath) pathExists
                          compilerPathNeedsQuotes)
      end.

(** The message for a path that does not exist, source line 1236. *)
Definition cannotFindMessage (resolvedPath : jsstring) : jsstring :=
  str "Cannot find " ++ [dquote] ++ resolvedPath ++ [dquote] ++ str ".".

(** The squiggles of one path, source lines 1217-1267: one round of the
    loop over the matches, from the end offset of the match before. The
    result is the new end offset and the diagnostics and counters. *)
Definition matchSquiggle (curText : jsstring) (curTextStartOffset : Z)
    (ranges : FileRanges) (ndl resolvedPath : jsstring)
    (pathExists compilerPathNeedsQuotes : bool)
    (state : Z * (list Diagnostic * SquiggleMetrics)) (curMatch : jsstring)
    : Z * (list Diagnostic * SquiggleMetrics) :=
  let '(endOffset, (diagnostics, newSquiggleMetrics)) := state in
  let curOffset := searchPath ndl (JS.substr curText endOffset None) + endOffset in
  let endOffset := curOffset + Z.of_nat (length curMatch) in
  let squiggle (message : jsstring) (metrics : SquiggleMetrics) :=
    (endOffset,
     (diagnostics ++ [mkDiagnostic (curTextStartOffset + curOffset)
                                   (curTextStartOffset + endOffset) message],
      metrics)) in
  let skip := (endOffset, (diagnostics, newSquiggleMetrics)) in
  if negb pathExists then
    squiggle (cannotFindMessage resolvedPath)
             (incrPathNonExistent newSquiggleMetrics)
  else if ((forcedIncludeStart ranges <=? curOffset)
           && (curOffset <=? forcedeIncludeEnd ranges))
          || ((compileCommandsStart ranges <=? curOffset)
              && (curOffset <=? compileCommandsEnd ranges))
          || ((compilerPathStart ranges <=? curOffset)
              && (curOffset <=? compilerPathEnd ranges))
  then
    if compilerPathNeedsQuotes then
      squiggle (str "Compiler path with spaces and arguments is missing \"
                ++ [dquote] ++ str " around the path.")
               (incrCompilerPathMissingQuotes newSquiggleMetrics)
    else if checkFileExistsSync resolvedPath then skip
    else
      squiggle (str "Path is not a file: " ++ [dquote] ++ resolvedPath
                ++ [dquote] ++ str ".")
               (incrPathNotAFile newSquiggleMetrics)
  else if checkDirectoryExistsSync resolvedPath then skip
  else
    squiggle (str "Path is not a directory: " ++ [dquote] ++ resolvedPath
              ++ [dquote] ++ str ".")
             (incrPathNotADirectory newSquiggleMetrics).

Definition pathSquiggles (curText : jsstring) (curTextStartOffset : Z)
    (ranges : FileRanges) (curPath resolvedPath : jsstring)
    (pathExists compilerPathNeedsQuotes : bool)
    (acc : list Diagnostic * SquiggleMetrics) : list Diagnostic * SquiggleMetrics :=
  let ndl := needle curPath in
  let matches := matchAll ndl curText in
  (foldl (matchSquiggle curText curTextStartOffset ranges ndl resolvedPath
                        pathExists compilerPathNeedsQuotes)
         (0, acc) matches).2.

(** One round of the loop over the paths, source lines 1160-1268. *)
Definition squigglePath (this : CppProperties) (currentConfiguration : Configuration)
    (curText : jsstring) (curTextStartOffset : Z) (ranges : FileRanges)
    (acc : option (list Diagnostic * SquiggleMetrics)) (curPath : jsstring)
    : option (list Diagnostic * SquiggleMetrics) :=
  acc ← acc;
  verdict ← examinePath this currentConfiguration curPath;
  match verdict with
  | SkipPath => Some acc
  | CheckedPath resolvedPath pathExists compilerPathNeedsQuotes =>
    Some (pathSquiggles curText curTextStartOffset ranges curPath resolvedPath
                        pathExists compilerPathNeedsQuotes acc)
  end.

(** The diagnostics and counters of the window, source lines 1108-1268. *)
Definition windowSquiggles (this : CppProperties) (currentConfiguration : Configuration)
    (curTextStartOffset : Z) (curText : jsstring)
    : option (list Diagnostic * SquiggleMetrics) :=
  let acc := intelliSenseModeSquiggle currentConfiguration curTextStartOffset
                                      curText ([], zeroMetrics) in
  foldl (squigglePath this currentConfiguration curText curTextStartOffset
                      (fileRanges curText))
        (Some acc) (pathsOfInterest currentConfiguration).

(** The counters that differ from the ones kept, source lines 1276-1291;
    [prev] is [None] when the kept value has no counters. *)
Definition changedSquiggleMetrics (newSquiggleMetrics : SquiggleMetrics)
    (prev : option SquiggleMetrics) : list (jsstring * nat) :=
  omap (λ '(key, field),
          if bool_decide (Some (field newSquiggleMetrics) ≠ (field <$> prev))
          then Some (key, field newSquiggleMetrics) else None)
       metricsFields.

(** The first part of the callback of [openTextDocument(...).then], source
    lines 1070-1104: the current configuration and the window of its text,
    or the telemetry of a pass that ends there. An exception ends the
    callback with no telemetry. *)
Inductive Scan :=
| ScanEnds (events : list TelemetryEvent)
| ScanFound (currentConfiguration : Configuration) (curTextStartOffset : Z)
            (curText : jsstring).

Definition scanDocument (index : Z) (documentText : jsstring) : Scan :=
  match JSON_parse (escapeForSquiggles documentText) with
  | JsonObject (Some configurations) _ _ _ =>
    match (if 0 <=? index then configurations !! Z.to_nat index else None) with
    | None => ScanEnds []
    | Some currentConfiguration =>
      if decide (name currentConfiguration = []) then ScanEnds []
      else
        match configurationWindow (name currentConfiguration) documentText with
        | NoWindow events => ScanEnds events
        | WindowAt curTextStartOffset curText =>
          ScanFound currentConfiguration curTextStartOffset curText
        end
    end
  | _ => ScanEnds []
  end.

(** The second part of the callback, source lines 1105-1296: the counters
    kept for the configuration are created if need be, the window is
    checked, the diagnostics are set, the counters that changed are sent
    and the new counters are kept. An exception ends the callback where it
    is raised. *)
Definition squiggleWindow (this : CppProperties) (currentConfiguration : Configuration)
    (curTextStartOffset : Z) (curText : jsstring)
    : CppProperties * list TelemetryEvent :=
  let prevInit :=
    match JSObject.get (prevSquiggleMetrics this) (name currentConfiguration) with
    | JSObject.VUndefined =>
      JSObject.set (prevSquiggleMetrics this) (name currentConfiguration)
                   zeroMetrics
    | _ => Some (prevSquiggleMetrics this)
    end in
  match prevInit with
  | None => (this, [])
  | Some prev =>
    let this := set_prevSquiggleMetrics prev this in
    match windowSquiggles this currentConfiguration curTextStartOffset curText with
    | None => (this, [])
    | Some (diagnostics, newSquiggleMetrics) =>
      let this := set_diagnosticCollection diagnostics this in
      match JSObject.get prev (name currentConfiguration) with
      | JSObject.VUndefined => (this, [])
      | kept =>
        let changed :=
          changedSquiggleMetrics newSquiggleMetrics
            match kept with
            | JSObject.VMetrics m => Some m
            | _ => None
            end in
        let events :=
          match changed with
          | [] => []
          | _ :: _ => [ConfigSquigglesMetrics changed]
          end in
        match JSObject.set prev (name currentConfiguration) newSquiggleMetrics with
        | Some prev => (set_prevSquiggleMetrics prev this, events)
        | None => (this, events)
        end
      end
    end
  end.

(** The callback of [openTextDocument(...).then], source lines 1069-1296,
    run on the text [documentText] of the document. *)
Definition squiggleCallback (this : CppProperties) (documentText : jsstring)
    : CppProperties * list TelemetryEvent :=
  match scanDocument (currentConfigurationIndex this) documentText with
  | ScanEnds events => (this, events)
  | ScanFound currentConfiguration curTextStartOffset curText =>
    squiggleWindow this currentConfiguration curTextStartOffset curText
  end.

(** [handleSquiggles()], source lines 1053-1297, with the text of the
    properties document; [None] is the [TypeError] of line 1058 on an
    object that has a properties file and no document. *)
Definition handleSquiggles (this : CppProperties) (documentText : jsstring)
    : option (CppProperties * list TelemetryEvent) :=
  match propertiesFile this with
  | None => Some (this, [])
  | Some _ =>
    json ← configurationJson this;
    if bool_decide (enableConfigurationSquiggles json = Some false)
    then Some (set_diagnosticCollection [] this, [])
    else if bool_decide (defaultEnableConfigurationSquiggles settings = Some false)
    then Some (set_diagnosticCollection [] this, [])
    else Some (squiggleCallback this documentText)
  end.

End SquigglePass.

(** * Schema migration *)

Definition set_version (v : option Z) (json : ConfigurationJson) : ConfigurationJson :=
  mkConfigurationJson (configurations json) (env json) v
    (enableConfigurationSquiggles json).

Definition set_configurations (cs : list Configuration)
    (json : ConfigurationJson) : ConfigurationJson :=
  mkConfigurationJson cs (env json) (version json)
    (enableConfigurationSquiggles json).

Definition set_env (e : option Environment) (json : ConfigurationJson) : ConfigurationJson :=
  mkConfigurationJson (configurations json) e (version json)
    (enableConfigurationSquiggles json).

Definition set_macFrameworkPath (v : option (list jsstring))
    (c : Configuration) : Configuration :=
  mkConfiguration (name c) (compilerPath c) (knownCompilers c) (cStandard c)
    (cppStandard c) (includePath c) v (windowsSdkVersion c) (defines c)
    (intelliSenseMode c) (compileCommands c) (forcedInclude c)
    (configurationProvider c) (browse c).

Definition set_intelliSenseMode (v : Optional jsstring) (c : Configuration)
    : Configuration :=
  mkConfiguration (name c) (compilerPath c) (knownCompilers c) (cStandard c)
    (cppStandard c) (includePath c) (macFrameworkPath c) (windowsSdkVersion c)
    (defines c) v (compileCommands c) (forcedInclude c)
    (configurationProvider c) (browse c).

Definition set_compilerPath (v : Optional jsstring) (c : Configuration)
    : Configuration :=
  mkConfiguration (name c) v (knownCompilers c) (cStandard c)
    (cppStandard c) (includePath c) (macFrameworkPath c) (windowsSdkVersion c)
    (defines c) (intelliSenseMode c) (compileCommands c) (forcedInclude c)
    (configurationProvider c) (browse c).

Definition set_cStandard (v : option jsstring) (c : Configuration) : Configuration :=
  mkConfiguration (name c) (compilerPath c) (knownCompilers c) v
    (cppStandard c) (includePath c) (macFrameworkPath c) (windowsSdkVersion c)
    (defines c) (intelliSenseMode c) (compileCommands c) (forcedInclude c)
    (configurationProvider c) (browse c).

Definition set_cppStandard (v : option jsstring) (c : Configuration) : Configuration :=
  mkConfiguration (name c) (compilerPath c) (knownCompilers c) (cStandard c)
    v (includePath c) (macFrameworkPath c) (windowsSdkVersion c)
    (defines c) (intelliSenseMode c) (compileCommands c) (forcedInclude c)
    (configurationProvider c) (browse c).

Definition set_configurationProvider (v : option jsstring)
    (c : Configuration) : Configuration :=
  mkConfiguration (name c) (compilerPath c) (knownCompilers c) (cStandard c)
    (cppStandard c) (includePath c) (macFrameworkPath c) (windowsSdkVersion c)
    (defines c) (intelliSenseMode c) (compileCommands c) (forcedInclude c)
    v (browse c).

(** A message shown by [vscode.window]. *)
Inductive UiMessage :=
| ErrorMessage (text : jsstring)
| WarningMessage (text : jsstring).

Section Migration.
Context `{Host}.

(** [getIntelliSenseModeForPlatform(name)], source lines 375-391. *)
Definition getIntelliSenseModeForPlatform (name : jsstring) : jsstring :=
  if decide (name = str "Linux") then str "gcc-x64"
  else if decide (name = str "Mac") then str "clang-x64"
  else if decide (name = str "Win32") then str "msvc-x64"
  else if decide (platform = win32) then str "msvc-x64"
  else if decide (platform = darwin) then str "clang-x64"
  else str "gcc-x64".

(** [updateToVersion2()], source lines 1299-1303, on the document. *)
Definition updateToVersion2 (json : ConfigurationJson) : ConfigurationJson :=
  set_version (Some 2) json.

(** The body of the loop of [updateToVersion3()], source lines 1308-1317. *)
Definition updateConfigurationToVersion3 (config : Configuration) : Configuration :=
  if bool_decide (name config = str "Mac")
     || (bool_decide (platform = darwin)
         && bool_decide (name config ≠ str "Win32")
         && bool_decide (name config ≠ str "Linux"))
  then
    if decide (macFrameworkPath config = None)
    then set_macFrameworkPath
           (Some [str "/System/Library/Frameworks"; str "/Library/Frameworks"])
           config
    else config
  else config.

(** [updateToVersion3()], source lines 1305-1319. *)
Definition updateToVersion3 (json : ConfigurationJson) : ConfigurationJson :=
  let json := set_version (Some 3) json in
  set_configurations (updateConfigurationToVersion3 <$> configurations json) json.

(** The body of the loop of [updateToVersion4()], source lines 1327-1341. *)
Definition updateConfigurationToVersion4 (this : CppProperties)
    (config : Configuration) : Configuration :=
  let config :=
    if bool_decide (intelliSenseMode config = Undefined)
       && negb (JS.truthy (defaultIntelliSenseMode settings))
    then set_intelliSenseMode
           (Value (getIntelliSenseModeForPlatform (name config))) config
    else config in
  let config :=
    if bool_decide (compilerPath config = Undefined)
       && JS.truthy (defaultCompilerPath this)
       && negb (JS.truthy (compileCommands config))
       && negb (JS.truthy (defaultCompilerPath_setting settings))
    then set_compilerPath (ofNullable (defaultCompilerPath this)) config
    else config in
  let config :=
    if negb (JS.truthy (cStandard config))
       && JS.truthy (defaultCStandard this)
       && negb (JS.truthy (defaultCStandard_setting settings))
    then set_cStandard (defaultCStandard this) config
    else config in
  if negb (JS.truthy (cppStandard config))
     && JS.truthy (defaultCppStandard this)
     && negb (JS.truthy (defaultCppStandard_setting settings))
  then set_cppStandard (defaultCppStandard this) config
  else config.

(** [updateToVersion4()], source lines 1321-1343. *)
Definition updateToVersion4 (this : CppProperties)
    (json : ConfigurationJson) : ConfigurationJson :=
  let json := set_version (Some 4) json in
  set_configurations
    (updateConfigurationToVersion4 this <$> configurations json) json.

(** The version block of [parsePropertiesFile], source lines 835-851: the
    document, the flag [dirty] and the message shown. *)
Definition migrateVersion (this : CppProperties) (json : ConfigurationJson)
    (dirty : bool) : ConfigurationJson * bool * list UiMessage :=
  if decide (version json ≠ Some configVersion) then
    let dirty := true in
    let json := if decide (version json = None) then updateToVersion2 json else json in
    let json := if decide (version json = Some 2) then updateToVersion3 json else json in
    if decide (version json = Some 3) then (updateToVersion4 this json, dirty, [])
    else
      (set_version (Some configVersion) json, dirty,
       [ErrorMessage (str "Unknown version number found in c_cpp_properties.json. Some features may not work as expected.")])
  else (json, dirty, []).

End Migration.

(** * Loading the properties file *)

(** What [parsePropertiesFile] returns: [return;] gives [undefined];
    [Throws] is an exception of the squiggle pass, which is called outside
    the [try] block. *)
Inductive ParseReturn :=
| ReturnsUndefined
| Returns (success : bool)
| Throws.

(** The outcome of a load: the object afterwards, the value returned, the
    messages shown, the documents handed to [writeToJson] and the telemetry
    of the squiggle pass. *)
Record ParseOutcome := mkParseOutcome {
  stateAfter : CppProperties;
  returned : ParseReturn;
  messages : list UiMessage;
  written : list ConfigurationJson;
  telemetry : list TelemetryEvent
}.

Section Load.
Context `{Host}.

(** The configuration name of the host platform, source lines 359-366. *)
Definition platformConfigName : jsstring :=
  if decide (platform = darwin) then str "Mac"
  else if decide (platform = win32) then str "Win32"
  else str "Linux".

(** The loop of [getConfigIndexForPlatform], from index [i] with [n]
    rounds to go; [None] is the [TypeError] of reading the name of an
    element that is not there. *)
Fixpoint platformIndexLoop (configs : list Configuration) (bound : nat)
    (n i : nat) : option Z :=
  match n with
  | O => Some (Z.of_nat bound - 1)
  | S n' =>
    match configs !! i with
    | None => None
    | Some config =>
      if decide (name config = platformConfigName) then Some (Z.of_nat i)
      else platformIndexLoop configs bound n' (S i)
    end
  end.

(** [getConfigIndexForPlatform(config)], source lines 358-373: the bound of
    the loop is the length of [this.configurationJson.configurations]. *)
Definition getConfigIndexForPlatform (this : CppProperties)
    (config : ConfigurationJson) : option Z :=
  json ← configurationJson this;
  let bound := length (configurations json) in
  platformIndexLoop (configurations config) bound bound 0.

(** The index of the first configuration named [n], source lines 802-807;
    [None] when the loop ends without a match. *)
Fixpoint indexOfName (n : jsstring) (configs : list Configuration) (i : nat) : option nat :=
  match configs with
  | [] => None
  | config :: rest =>
    if decide (name config = n) then Some i else indexOfName n rest (S i)
  end.

(** The selection kept by name, source lines 800-808. *)
Definition keepSelectionByName (this : CppProperties)
    (newConfigurations : list Configuration) : Z :=
  let index := currentConfigurationIndex this in
  match configurationJson this with
  | Some json =>
    if negb (configurationIncomplete this)
       && (0 <=? index) && (index <? Z.of_nat (length (configurations json)))
    then
      match configurations json !! Z.to_nat index with
      | Some current =>
        match indexOfName (name current) newConfigurations 0 with
        | Some i => Z.of_nat i
        | None => index
        end
      | None => index
      end
    else index
  | None => index
  end.

(** The provider ids put right, source lines 814-821: the configurations
    and whether one changed. *)
Definition normalizeProviders (configs : list Configuration)
    : list Configuration * bool :=
  foldl (λ '(done, dirty) config,
           let newId := checkId (configurationProvider config) in
           if decide (newId ≠ configurationProvider config)
           then (done ++ [set_configurationProvider newId config], true)
           else (done ++ [config], dirty))
        ([], false) configs.

(** [// Remove disallowed variable overrides], source lines 823-829. *)
Definition removeDisallowed (e : option Environment) : option Environment :=
  (λ e, delete (str "default")
          (delete (str "workspaceFolderBasename")
             (delete (str "workspaceFolder")
                (delete (str "workspaceRoot") e)))) <$> e.

Definition failedToParse (this : CppProperties) (message : jsstring) : UiMessage :=
  ErrorMessage (str "Failed to parse " ++ [Regex.dquote]
                ++ default [] (propertiesFile this) ++ [Regex.dquote]
                ++ str ": " ++ message).

(** [parsePropertiesFile()], source lines 787-873. [readResults] is what
    [fs.readFileSync] gives ([None]: it throws), [canWrite] tells whether
    [writeToJson] succeeds, [documentText] is the text of the document
    the squiggle pass opens. *)
Definition parsePropertiesFile (this : CppProperties)
    (readResults : option jsstring) (canWrite : bool)
    (documentText : jsstring) : ParseOutcome :=
  let fail (this : CppProperties) (message : jsstring) :=
    mkParseOutcome this (Returns false) [failedToParse this message] [] [] in
  match readResults with
  | None => fail this (str "ENOENT: no such file or directory")
  | Some readResults =>
    if decide (readResults = []) then
      mkParseOutcome this ReturnsUndefined [] [] []
    else
      match JSON_parse readResults with
      | JsonThrows message => fail this message
      | JsonFalsy | JsonObject None _ _ _ | JsonObject (Some []) _ _ _ =>
        fail this (str "Invalid configuration file. There must be at least one configuration present in the array.")
      | JsonObject (Some newConfigurations) newEnv newVersion newSquiggles =>
        let newJson :=
          mkConfigurationJson newConfigurations newEnv newVersion newSquiggles in
        let this := set_currentConfigurationIndex
                      (keepSelectionByName this newConfigurations) this in
        let this := set_configurationJson (Some newJson) this in
        let platformIndex :=
          if (currentConfigurationIndex this <? 0)
             || (Z.of_nat (length newConfigurations) <=? currentConfigurationIndex this)
          then getConfigIndexForPlatform this newJson
          else Some (currentConfigurationIndex this) in
        match platformIndex with
        | None => fail this (str "Cannot read property 'name' of undefined")
        | Some index =>
          let this := set_currentConfigurationIndex index this in
          let '(configs, dirty) := normalizeProviders newConfigurations in
          let json := set_configurations configs newJson in
          let json := set_env (removeDisallowed (env json)) json in
          let this := set_configurationIncomplete false this in
          let '(json, dirty, shown) := migrateVersion this json dirty in
          let this := set_configurationJson (Some json) this in
          if dirty && negb canWrite then
            mkParseOutcome this (Returns false)
              (shown ++ [WarningMessage
                           (str "Attempt to update " ++ [Regex.dquote]
                            ++ default [] (propertiesFile this) ++ [Regex.dquote]
                            ++ str " failed (do you have write access?)")])
              [] []
          else
            match handleSquiggles this documentText with
            | Some (this', events) =>
              mkParseOutcome this' (Returns true) shown
                (if dirty then [json] else []) events
            | None =>
              mkParseOutcome this Throws shown (if dirty then [json] else []) []
            end
        end
      end
  end.

End Load.

(** ** The load in the words of the specification *)
Section LoadSpec.
Context `{Host}.

(** A parse result the load refuses: no JSON, a falsy value, or a document
    whose [configurations] is missing or empty. *)
Definition refused (r : JsonResult) : bool :=
  match r with
  | JsonThrows _ | JsonFalsy | JsonObject None _ _ _
  | JsonObject (Some []) _ _ _ => true
  | JsonObject (Some (_ :: _)) _ _ _ => false
  end.

(** The index the platform prefers: the first configuration named after
    the host platform, else the last one. *)
Definition platformPreferredIndex (configs : list Configuration) : Z :=
  match indexOfName platformConfigName configs 0 with
  | Some i => Z.of_nat i
  | None => Z.of_nat (length configs) - 1
  end.

(** The previous selection can be looked up by name: a document is
    loaded, its defaults are applied and the index points into it. *)
Definition selectedBefore (this : CppProperties) : option Configuration :=
  json ← configurationJson this;
  if negb (configurationIncomplete this)
     && (0 <=? currentConfigurationIndex this)
     && (currentConfigurationIndex this <? Z.of_nat (length (configurations json)))
  then configurations json !! Z.to_nat (currentConfigurationIndex this)
  else None.

(** The index a load selects, as a function of the object before and of
    the new configurations: the index kept by name or as it was, unless
    it is out of range. *)
Definition selectedAfter (this : CppProperties)
    (newConfigurations : list Configuration) : Z :=
  let kept := keepSelectionByName this newConfigurations in
  if (kept <? 0) || (Z.of_nat (length newConfigurations) <=? kept)
  then platformPreferredIndex newConfigurations
  else kept.

End LoadSpec.

(** A parser for the examples: it knows the text of one document. *)
Definition parseOnly (text : jsstring) (result : JsonResult) (input : jsstring) : JsonResult :=
  if decide (input = text) then result
  else JsonThrows (str "Unexpected token").

(** The text of a properties file with the configurations [X], [Y], [Z]
    and what [JSON.parse] makes of it. *)
Definition xyzText : jsstring :=
  str "{" ++ Regex.q "configurations" ++ str ":[{" ++ Regex.q "name" ++ str ":"
  ++ Regex.q "X" ++ str "},{" ++ Regex.q "name" ++ str ":" ++ Regex.q "Y"
  ++ str "},{" ++ Regex.q "name" ++ str ":" ++ Regex.q "Z" ++ str "}],"
  ++ Regex.q "version" ++ str ":4}".

Definition xyzJson : JsonResult :=
  JsonObject (Some [namedConfig (str "X"); namedConfig (str "Y"); namedConfig (str "Z")])
             None (Some 4) None.

(** A Linux host with an empty file system that reads [xyzText]. *)
Definition xyzHost : Host :=
  demoHost otherPlatform [] (λ _, NoEntry) (parseOnly xyzText xyzJson).

(** An object with the configurations [A], [B], [C] loaded, the first one
    selected. *)
Definition abcState : CppProperties :=
  mkCppProperties (str "/proj") (Some (str "/proj/.vscode/c_cpp_properties.json"))
    (Some (mkConfigurationJson
             [namedConfig (str "A"); namedConfig (str "B"); namedConfig (str "C")]
             None (Some 4) None))
    0 None None None None false [] JSObject.newMap.

(** The text of a properties file of the first format, with one
    configuration and no version, and what [JSON.parse] makes of it. *)
Definition legacyText : jsstring :=
  str "{" ++ Regex.q "configurations" ++ str ":[{" ++ Regex.q "name" ++ str ":"
  ++ Regex.q "Mac" ++ str "}]}".

Definition legacyJson : JsonResult :=
  JsonObject (Some [namedConfig (str "Mac")]) None None None.

(** A Linux host with an empty file system that reads [legacyText]. *)
Definition legacyHost : Host :=
  demoHost otherPlatform [] (λ _, NoEntry) (parseOnly legacyText legacyJson).

(** The text of a properties file whose only configuration is named [size]
    and has an include path that does not exist, and what [JSON.parse]
    makes of it. *)
Definition sizeText : jsstring :=
  str "{" ++ Regex.q "configurations" ++ str ":[{" ++ Regex.q "name" ++ str ":"
  ++ Regex.q "size" ++ str "," ++ Regex.q "includePath" ++ str ":["
  ++ Regex.q "/nonexistent" ++ str "]}]," ++ Regex.q "version" ++ str ":4}".

Definition sizeConfiguration : Configuration :=
  mkConfiguration (str "size") Undefined None None None
    (Some [str "/nonexistent"]) None None None Undefined None None None None.

Definition sizeJson : JsonResult :=
  JsonObject (Some [sizeConfiguration]) None (Some 4) None.

(** A Linux host with an empty file system that reads [sizeText]. *)
Definition sizeHost : Host :=
  demoHost otherPlatform [] (λ _, NoEntry) (parseOnly sizeText sizeJson).

(** The object after the load of [sizeText]. *)
Definition sizeState : CppProperties :=
  mkCppProperties (str "/proj") (Some (str "/proj/.vscode/c_cpp_properties.json"))
    (Some (mkConfigurationJson [sizeConfiguration] None (Some 4) None))
    0 None None None None false [] JSObject.newMap.

(** ** The squiggles of a path in the words of the specification *)
Module SquiggleSpec.
Import Regex.

(** The spans, as start and end offsets, of the matches of the pattern for
    a path from left to right, each search starting where the match before
    ended; [skip] counts the characters of the last match still ahead and
    [i] is the offset of [text]. *)
Fixpoint matchSpansFrom (ndl : jsstring) (skip i : nat) (text : jsstring)
    : list (nat * nat) :=
  match text with
  | [] => []
  | _ :: t =>
    match skip with
    | S k => matchSpansFrom ndl k (S i) t
    | O =>
      match matchPath ndl text with
      | Some n => (i, i + n)%nat :: matchSpansFrom ndl (n - 1) (S i) t
      | None => matchSpansFrom ndl 0 (S i) t
      end
    end
  end.

Definition matchSpans (ndl text : jsstring) : list (nat * nat) :=
  matchSpansFrom ndl 0 0 text.

(** A quoted stretch that holds the entry: a double quote, then the entry
    right after it or after a semicolon with no double quote in between,
    then a double quote right after the entry or, after a semicolon, the
    next one on the line. *)
Definition quotedStretch (ndl m : jsstring) : Prop :=
  ∃ pre post,
    m = dquote :: pre ++ ndl ++ post ++ [dquote]
    ∧ (dquote ∉ pre)
    ∧ (pre = [] ∨ ∃ pre', pre = pre' ++ [";"%char])
    ∧ (dquote ∉ post)
    ∧ Forall (λ a, isLineTerminator a = false) post
    ∧ (post = [] ∨ ∃ post', post = ";"%char :: post').

(** The offsets at which the entry stands in the text with a double quote
    or a semicolon right before it and right after it; [prev] is the
    character before [text] and [i] the offset of [text]. *)
Fixpoint boundedOccurrencesFrom (ndl : jsstring) (prev : ascii) (i : nat)
    (text : jsstring) : list nat :=
  match text with
  | [] => []
  | c :: t =>
    (if isQuoteOrSemicolon prev && JS.startsWith text ndl
        && match drop (length ndl) text with
           | d :: _ => isQuoteOrSemicolon d
           | [] => false
           end
     then [i] else [])
    ++ boundedOccurrencesFrom ndl c (S i) t
  end.

Definition boundedOccurrences (ndl text : jsstring) : list nat :=
  boundedOccurrencesFrom ndl " "%char 0 text.

(** The diagnostic over a span for a path that does not exist. *)
Definition cannotFindAt `{Host} (curTextStartOffset : Z) (resolvedPath : jsstring)
    (span : nat * nat) : Diagnostic :=
  mkDiagnostic (curTextStartOffset + Z.of_nat span.1)
               (curTextStartOffset + Z.of_nat span.2)
               (cannotFindMessage resolvedPath).

End SquiggleSpec.

(** The text of a properties file whose include path has the entry
    [/usr/inc] and an entry that lists it twice around [/usr/include], and
    what [JSON.parse] makes of it. *)
Definition incText : jsstring :=
  str "{" ++ Regex.q "configurations" ++ str ":[{" ++ Regex.q "name" ++ str ":"
  ++ Regex.q "Linux" ++ str "," ++ Regex.q "includePath" ++ str ":["
  ++ Regex.q "/usr/inc" ++ str "," ++ Regex.q "/usr/inc;/usr/include;/usr/inc"
  ++ str "]}]," ++ Regex.q "version" ++ str ":4}".

Definition incConfiguration : Configuration :=
  mkConfiguration (str "Linux") Undefined None None None
    (Some [str "/usr/inc"; str "/usr/inc;/usr/include;/usr/inc"])
    None None None Undefined None None None None.

Definition incJson : JsonResult :=
  JsonObject (Some [incConfiguration]) None (Some 4) None.

(** A Linux host that reads [incText]; of the paths only [/usr/include]
    exists, as a directory. *)
Definition incHost : Host :=
  demoHost otherPlatform []
    (λ p, if decide (p = str "/usr/include") then DirectoryEntry else NoEntry)
    (parseOnly incText incJson).

(** The object after the load of [incText]. *)
Definition incState : CppProperties :=
  mkCppProperties (str "/proj") (Some (str "/proj/.vscode/c_cpp_properties.json"))
    (Some (mkConfigurationJson [incConfiguration] None (Some 4) None))
    0 None None None None false [] JSObject.newMap.

(** * Measures and relations used to state further properties *)

(** The number of squiggles the counters of a pass stand for. *)
Definition countedSquiggles (m : SquiggleMetrics) : nat :=
  (PathNonExistent m + PathNotAFile m + PathNotADirectory m
   + CompilerPathMissingQuotes m + CompilerModeMismatch m)%nat.

(** [c'] has every value [c] sets: the fields the migration never fills are
    equal, and a field it may fill is equal when [c] has it already (for the
    two language standards: when the value of [c] is not empty). *)
Definition keepsUserValues (c c' : Configuration) : Prop :=
  name c' = name c
  ∧ knownCompilers c' = knownCompilers c
  ∧ includePath c' = includePath c
  ∧ windowsSdkVersion c' = windowsSdkVersion c
  ∧ defines c' = defines c
  ∧ compileCommands c' = compileCommands c
  ∧ forcedInclude c' = forcedInclude c
  ∧ configurationProvider c' = configurationProvider c
  ∧ browse c' = browse c
  ∧ (compilerPath c ≠ Undefined → compilerPath c' = compilerPath c)
  ∧ (macFrameworkPath c ≠ None → macFrameworkPath c' = macFrameworkPath c)
  ∧ (intelliSenseMode c ≠ Undefined → intelliSenseMode c' = intelliSenseMode c)
  ∧ (JS.truthy (cStandard c) = true → cStandard c' = cStandard c)
  ∧ (JS.truthy (cppStandard c) = true → cppStandard c' = cppStandard c).

(** * Defaults, selection and validation for the settings editor *)

(** [interface ConfigurationErrors], source lines 67-76: the message for
    each property, [None] when there is none. *)
Module ConfigurationErrors.
Record t := mk {
  compilerPath : option jsstring;
  includePath : option jsstring;
  intelliSenseMode : option jsstring;
  macFrameworkPath : option jsstring;
  forcedInclude : option jsstring;
  compileCommands : option jsstring;
  browsePath : option jsstring;
  databaseFilename : option jsstring
}.
End ConfigurationErrors.

(** The argument of [validatePath]: [string|string[]]. *)
Inductive PathInput :=
| OnePath (p : jsstring)
| ManyPaths (ps : list jsstring).

(** What [select] does: it opens one of the two editors, or it stores the
    index, fires [selectionChanged] with it and runs the squiggle pass. *)
Inductive Selection :=
| EditUI
| EditJSON
| Selected (fired : Z) (this : CppProperties) (events : list TelemetryEvent).

(** The line feed that joins the messages. *)
Definition lineFeed : ascii := "010"%char.

Section Defaults.
Context `{Host}.

(** [getDefaultConfig()], source lines 26-34. *)
Definition getDefaultConfig : Configuration :=
  if decide (platform = darwin) then namedConfig (str "Mac")
  else if decide (platform = win32) then namedConfig (str "Win32")
  else namedConfig (str "Linux").

(** [getDefaultCppProperties()], source lines 36-41. *)
Definition getDefaultCppProperties : ConfigurationJson :=
  mkConfigurationJson [getDefaultConfig] None (Some configVersion) None.

(** [get Configurations()], source line 148; [None] is [null]. *)
Definition Configurations (this : CppProperties) : option (list Configuration) :=
  configurations <$> configurationJson this.

(** [get CurrentConfiguration()], source line 150; [None] is [null] or
    [undefined]. *)
Definition CurrentConfiguration (this : CppProperties) : option Configuration :=
  configs ← Configurations this;
  if 0 <=? currentConfigurationIndex this
  then configs !! Z.to_nat (currentConfigurationIndex this)
  else None.

(** [get CompilerPath()], source line 151. *)
Definition CompilerPath (this : CppProperties) : Optional jsstring :=
  match CurrentConfiguration this with
  | Some currentConfiguration => compilerPath currentConfiguration
  | None => Null
  end.

(** [get ConfigurationNames()], source lines 161-165; [None] is the
    [TypeError] of an object without document. *)
Definition ConfigurationNames (this : CppProperties) : option (list jsstring) :=
  json ← configurationJson this;
  Some (foldl (λ result config, result ++ [name config]) [] (configurations json)).

(** [resetToDefaultSettings(resetIndex)], source lines 253-260; [None] is
    an exception of [getConfigIndexForPlatform]. *)
Definition resetToDefaultSettings (this : CppProperties) (resetIndex : bool)
    : option CppProperties :=
  let this := set_configurationJson (Some getDefaultCppProperties) this in
  this ←
    (if resetIndex
        || (currentConfigurationIndex this <? 0)
        || (Z.of_nat (length (configurations getDefaultCppProperties))
            <=? currentConfigurationIndex this)
     then
       index ← getConfigIndexForPlatform this getDefaultCppProperties;
       Some (set_currentConfigurationIndex index this)
     else Some this);
  Some (set_configurationIncomplete true this).

(** [select(index)], source lines 461-473, with the text of the properties
    document for the squiggle pass; [None] is the [TypeError] of an object
    without document. *)
Definition select (this : CppProperties) (index : Z) (documentText : jsstring)
    : option Selection :=
  json ← configurationJson this;
  if decide (index = Z.of_nat (length (configurations json))) then Some EditUI
  else if decide (index = Z.of_nat (length (configurations json)) + 1)
  then Some EditJSON
  else
    let this := set_currentConfigurationIndex index this in
    let fired := currentConfigurationIndex this in
    '(this, events) ← handleSquiggles this documentText;
    Some (Selected fired this events).

(** One round of the loop of [validatePath], source lines 1012-1042: the
    message for the path [p], if any; the outer [None] is an exception of
    [resolvePath]. *)
Definition validatePathEntry (this : CppProperties) (isDirectory : bool)
    (p : jsstring) : option (option jsstring) :=
  resolvedPath ← resolvePath this (Some p) isWindowsHost;
  if decide (resolvedPath = []) then Some None
  else
    let '(resolvedPath, pathExists) :=
      if negb (existsSync resolvedPath) then
        let relativePath := rootUri this ++ [path_sep] ++ resolvedPath in
        if negb (existsSync relativePath) then (resolvedPath, false)
        else (relativePath, true)
      else (resolvedPath, true) in
    if negb pathExists then Some (Some (str "Cannot find: " ++ resolvedPath))
    else if isDirectory && negb (checkDirectoryExistsSync resolvedPath)
    then Some (Some (str "Path is not a directory: " ++ resolvedPath))
    else if negb isDirectory && negb (checkFileExistsSync resolvedPath)
    then Some (Some (str "Path is not a file: " ++ resolvedPath))
    else Some None.

(** [validatePath(input, isDirectory)], source lines 996-1051: the inner
    [None] is [undefined], the outer one an exception. *)
Definition validatePath (this : CppProperties) (input : option PathInput)
    (isDirectory : bool) : option (option jsstring) :=
  match input with
  | None | Some (OnePath []) => Some None
  | Some input =>
    let paths :=
      match input with
      | OnePath p => [p]
      | ManyPaths ps => ps
      end in
    errors ← foldl (λ errors p,
                      errors ← errors;
                      message ← validatePathEntry this isDirectory p;
                      Some (match message with
                            | Some message => errors ++ [message]
                            | None => errors
                            end))
                   (Some []) paths;
    Some (if decide (errors = []) then None
          else Some (joinWith lineFeed errors))
  end.

(** [// Validate compilerPath], source lines 917-972: the value of
    [errors.compilerPath]. *)
Definition compilerPathError (this : CppProperties) (config : Configuration)
    : option (option jsstring) :=
  let isWindows := isWindowsHost in
  resolvedCompilerPath ← resolvePath this (valueOf (compilerPath config)) isWindows;
  let compilerPathAndArgs := extractCompilerPathAndArgs resolvedCompilerPath in
  if JS.truthy (Some resolvedCompilerPath)
     && negb (isWindows
              && bool_decide (CompilerPathAndArgs.compilerName compilerPathAndArgs
                              = str "cl.exe"))
  then
    let resolvedCompilerPath := JS.trim resolvedCompilerPath in
    let compilerPathNeedsQuotes :=
      bool_decide (is_Some (CompilerPathAndArgs.additionalArgs compilerPathAndArgs))
      && negb (JS.startsWith resolvedCompilerPath [Regex.dquote])
      && JS.includes (CompilerPathAndArgs.compilerPath compilerPathAndArgs)
                     (str " ") in
    let compilerPathErrors :=
      if compilerPathNeedsQuotes
      then [str "Compiler path with spaces and arguments is missing double quotes "
            ++ [Regex.dquote] ++ str " around the path."]
      else [] in
    let resolvedCompilerPath :=
      CompilerPathAndArgs.compilerPath compilerPathAndArgs in
    let existsWithExeAdded (path : jsstring) :=
      isWindows && negb (JS.startsWith path (str "/"))
      && existsSync (path ++ str ".exe") in
    let '(resolvedCompilerPath, pathExists) :=
      if negb (existsSync resolvedCompilerPath) then
        if existsWithExeAdded resolvedCompilerPath
        then (resolvedCompilerPath ++ str ".exe", true)
        else
          let relativePath :=
            rootUri this ++ [path_sep] ++ resolvedCompilerPath in
          if negb (existsSync relativePath) then
            if existsWithExeAdded resolvedCompilerPath
            then (resolvedCompilerPath ++ str ".exe", true)
            else (resolvedCompilerPath, false)
          else (relativePath, true)
      else (resolvedCompilerPath, true) in
    let compilerPathErrors :=
      if negb pathExists
      then compilerPathErrors ++ [str "Cannot find: " ++ resolvedCompilerPath]
      else if decide (CompilerPathAndArgs.compilerPath compilerPathAndArgs = [])
      then compilerPathErrors
           ++ [str "Invalid input, cannot resolve compiler path"]
      else if negb (checkFileExistsSync resolvedCompilerPath)
      then compilerPathErrors
           ++ [str "Path is not a file: " ++ resolvedCompilerPath]
      else compilerPathErrors in
    Some (if decide (compilerPathErrors = []) then None
          else Some (joinWith lineFeed compilerPathErrors))
  else Some None.

(** [getErrorsForConfigUI(configIndex)], source lines 912-994; [None] is
    an exception. *)
Definition getErrorsForConfigUI (this : CppProperties) (configIndex : Z)
    : option ConfigurationErrors.t :=
  json ← configurationJson this;
  config ← (if 0 <=? configIndex
            then configurations json !! Z.to_nat configIndex else None);
  compilerPathError ← compilerPathError this config;
  includePathError ← validatePath this (ManyPaths <$> includePath config) true;
  macFrameworkPathError ←
    validatePath this (ManyPaths <$> macFrameworkPath config) true;
  browsePathError ←
    validatePath this (ManyPaths <$> (browse config ≫= Browse.path)) true;
  forcedIncludeError ←
    validatePath this (ManyPaths <$> forcedInclude config) false;
  compileCommandsError ←
    validatePath this (OnePath <$> compileCommands config) false;
  databaseFilenameError ←
    validatePath this (OnePath <$> (browse config ≫= Browse.databaseFilename))
                 false;
  let intelliSenseModeError :=
    if isWindowsHost && negb (isCompilerIntelliSenseModeCompatible config)
    then Some (str "IntelliSense mode "
               ++ templateText (intelliSenseMode config)
               ++ str " is incompatible with compiler path.")
    else None in
  Some (ConfigurationErrors.mk compilerPathError includePathError
          intelliSenseModeError macFrameworkPathError forcedIncludeError
          compileCommandsError browsePathError databaseFilenameError).

End Defaults.
(** ** The validation in words *)
Section ValidationSpec.
Context `{Host}.

(** The paths [validatePath] goes through. *)
Definition inputPaths (input : option PathInput) : list jsstring :=
  match input with
  | None => []
  | Some (OnePath p) => [p]
  | Some (ManyPaths ps) => ps
  end.

(** The path [p] passes the validation: it resolves to nothing, or what it
    resolves to is there, as it is or else under the workspace root, and is
    a directory, or a file, as asked. *)
Definition pathPasses (this : CppProperties) (isDirectory : bool)
    (p : jsstring) : Prop :=
  ∃ resolved,
    resolvePath this (Some p) isWindowsHost = Some resolved
    ∧ (resolved = []
       ∨ ∃ found,
           (existsSync resolved = true ∧ found = resolved
            ∨ existsSync resolved = false
              ∧ found = rootUri this ++ [path_sep] ++ resolved
              ∧ existsSync found = true)
           ∧ if isDirectory then checkDirectoryExistsSync found = true
             else checkFileExistsSync found = true).

End ValidationSpec.
(** A Windows host whose file system has the one file [C:/gcc/gcc.exe],
    and a loaded object whose configuration names that compiler without
    the extension. *)
Definition gccHost : Host :=
  demoHost win32 []
    (λ p, if decide (p = str "C:/gcc/gcc.exe") then FileEntry else NoEntry)
    (λ _, JsonThrows (str "Unexpected token")).

Definition gccConfiguration : Configuration :=
  mkConfiguration (str "Win32") (Value (str "C:/gcc/gcc")) None None None
    (Some [str "C:/gcc"; str "${default}"]) None None None
    (Value (str "gcc-x64")) None None None None.

Definition gccState : CppProperties :=
  mkCppProperties (str "C:/proj") (Some (str "C:/proj/.vscode/c_cpp_properties.json"))
    (Some (mkConfigurationJson [gccConfiguration] None (Some 4) None))
    0 None None None None false [] JSObject.newMap.

(** * The rest of the object and of its settings *)

Definition set_includePath (v : option (list jsstring))
    (c : Configuration) : Configuration :=
  mkConfiguration (name c) (compilerPath c) (knownCompilers c) (cStandard c)
    (cppStandard c) v (macFrameworkPath c) (windowsSdkVersion c)
    (defines c) (intelliSenseMode c) (compileCommands c) (forcedInclude c)
    (configurationProvider c) (browse c).

Definition set_defines (v : option (list jsstring))
    (c : Configuration) : Configuration :=
  mkConfiguration (name c) (compilerPath c) (knownCompilers c) (cStandard c)
    (cppStandard c) (includePath c) (macFrameworkPath c) (windowsSdkVersion c)
    v (intelliSenseMode c) (compileCommands c) (forcedInclude c)
    (configurationProvider c) (browse c).

Definition set_windowsSdkVersion (v : option jsstring)
    (c : Configuration) : Configuration :=
  mkConfiguration (name c) (compilerPath c) (knownCompilers c) (cStandard c)
    (cppStandard c) (includePath c) (macFrameworkPath c) v
    (defines c) (intelliSenseMode c) (compileCommands c) (forcedInclude c)
    (configurationProvider c) (browse c).

Definition set_knownCompilers (v : option (list KnownCompiler.t))
    (c : Configuration) : Configuration :=
  mkConfiguration (name c) (compilerPath c) v (cStandard c)
    (cppStandard c) (includePath c) (macFrameworkPath c) (windowsSdkVersion c)
    (defines c) (intelliSenseMode c) (compileCommands c) (forcedInclude c)
    (configurationProvider c) (browse c).

Definition set_compileCommands (v : option jsstring)
    (c : Configuration) : Configuration :=
  mkConfiguration (name c) (compilerPath c) (knownCompilers c) (cStandard c)
    (cppStandard c) (includePath c) (macFrameworkPath c) (windowsSdkVersion c)
    (defines c) (intelliSenseMode c) v (forcedInclude c)
    (configurationProvider c) (browse c).

Definition set_forcedInclude (v : option (list jsstring))
    (c : Configuration) : Configuration :=
  mkConfiguration (name c) (compilerPath c) (knownCompilers c) (cStandard c)
    (cppStandard c) (includePath c) (macFrameworkPath c) (windowsSdkVersion c)
    (defines c) (intelliSenseMode c) (compileCommands c) v
    (configurationProvider c) (browse c).

Definition set_browse (v : option Browse.t) (c : Configuration) : Configuration :=
  mkConfiguration (name c) (compilerPath c) (knownCompilers c) (cStandard c)
    (cppStandard c) (includePath c) (macFrameworkPath c) (windowsSdkVersion c)
    (defines c) (intelliSenseMode c) (compileCommands c) (forcedInclude c)
    (configurationProvider c) v.

(** The defaults of [CppSettings] that are lists, and the others the class
    reads beside those of [CppSettings] above; [None] is the [null] of an
    unset setting. *)
Record FolderSettings := mkFolderSettings {
  defaultIncludePath : option (list jsstring);
  defaultDefines : option (list jsstring);
  defaultMacFrameworkPath : option (list jsstring);
  defaultWindowsSdkVersion_setting : option jsstring;
  defaultForcedInclude : option (list jsstring);
  defaultCompileCommands : option jsstring;
  defaultConfigurationProvider : option jsstring;
  defaultBrowsePath : option (list jsstring);
  defaultLimitSymbolsToIncludedHeaders : option bool;
  defaultDatabaseFilename : option jsstring
}.

(** The values [updateConfiguration] is called with: a property of a
    configuration or a default of the settings. *)
Inductive JsValue :=
| JsUndefined
| JsNull
| JsBoolean (b : bool)
| JsString (s : jsstring)
| JsStrings (l : list jsstring).

Global Instance JsValue_eq_dec : EqDecision JsValue.
Proof. solve_decision. Defined.

(** The host with the further collaborators of the class. *)
Class Folder := {
  Folder_Host :: Host;
  (** the other defaults of [new CppSettings(this.rootUri)] *)
  folderSettings : FolderSettings;
  (** [getABTestSettings().UseRecursiveIncludes] *)
  UseRecursiveIncludes : bool;
  (** [util.isString], [util.isBoolean] and [util.isArrayOfString] *)
  isString : JsValue → bool;
  isBoolean : JsValue → bool;
  isArrayOfString : JsValue → bool;
  (** [util.resolveVariables(input, env)] for an [input] that is no
      string *)
  resolveVariablesOther : JsValue → Environment → JsValue;
  (** [fs.watch(path, listener)] at a time when this object has watchers
      open on the paths [watched]: whether the call returns a watcher; if
      not, it throws *)
  watch : list jsstring → jsstring → bool
}.


(** The whole object: the fields of [CppProperties] above and the other
    fields the embedded methods read or write. *)
Module Whole.
Record t := mk {
  core : CppProperties;
  (** [this.propertiesFile === undefined], which tells [undefined] from
      [null] when [propertiesFile core] is [None] *)
  propertiesFileUndefined : bool;
  knownCompilers : option (list KnownCompiler.t);
  defaultIncludes : option (list jsstring);
  defaultFrameworks : option (list jsstring);
  defaultWindowsSdkVersion : option jsstring;
  vcpkgIncludes : list jsstring;
  vcpkgPathReady : bool;
  defaultIntelliSenseMode : option jsstring
}.

Definition set_core (c : CppProperties) (w : t) : t :=
  mk c (propertiesFileUndefined w) (knownCompilers w) (defaultIncludes w)
     (defaultFrameworks w) (defaultWindowsSdkVersion w) (vcpkgIncludes w)
     (vcpkgPathReady w) (defaultIntelliSenseMode w).
End Whole.

Section ApplyDefaults.
Context `{Folder}.

(** [applyDefaultConfigurationValues(configuration)], source lines
    270-317, for a configuration that is there. *)
Definition applyDefaultConfigurationValues (this : Whole.t)
    (configuration : Configuration) : Configuration :=
  let configuration :=
    if bool_decide (defaultIncludePath folderSettings = None) then
      let rootFolder :=
        if UseRecursiveIncludes then str "${workspaceFolder}/**"
        else str "${workspaceFolder}" in
      set_includePath (Some ([rootFolder] ++ Whole.vcpkgIncludes this))
                      configuration
    else configuration in
  let configuration :=
    if bool_decide (defaultDefines folderSettings = None) then
      set_defines
        (Some (if decide (platform = win32)
               then [str "_DEBUG"; str "UNICODE"; str "_UNICODE"] else []))
        configuration
    else configuration in
  let configuration :=
    if bool_decide (defaultMacFrameworkPath folderSettings = None)
       && bool_decide (platform = darwin)
    then set_macFrameworkPath (Whole.defaultFrameworks this) configuration
    else configuration in
  let configuration :=
    if bool_decide (defaultWindowsSdkVersion_setting folderSettings = None)
       && JS.truthy (Whole.defaultWindowsSdkVersion this)
       && bool_decide (platform = win32)
    then set_windowsSdkVersion (Whole.defaultWindowsSdkVersion this) configuration
    else configuration in
  let configuration :=
    if bool_decide (defaultCompilerPath_setting settings = None)
       && JS.truthy (defaultCompilerPath (Whole.core this))
       && bool_decide (defaultCompileCommands folderSettings = None)
       && negb (JS.truthy (compileCommands configuration))
    then set_compilerPath (ofNullable (defaultCompilerPath (Whole.core this)))
                          configuration
    else configuration in
  let configuration :=
    match Whole.knownCompilers this with
    | Some known => set_knownCompilers (Some known) configuration
    | None => configuration
    end in
  let configuration :=
    if bool_decide (defaultCStandard_setting settings = None)
       && JS.truthy (defaultCStandard (Whole.core this))
    then set_cStandard (defaultCStandard (Whole.core this)) configuration
    else configuration in
  let configuration :=
    if bool_decide (defaultCppStandard_setting settings = None)
       && JS.truthy (defaultCppStandard (Whole.core this))
    then set_cppStandard (defaultCppStandard (Whole.core this)) configuration
    else configuration in
  if bool_decide (defaultIntelliSenseMode settings = None)
  then set_intelliSenseMode (ofNullable (Whole.defaultIntelliSenseMode this))
                            configuration
  else configuration.

(** Whether [applyDefaultConfigurationValues] reads or writes a property of
    its argument, which throws when the argument is [null] or
    [undefined]. *)
Definition readsConfiguration (this : Whole.t) : bool :=
  bool_decide (defaultIncludePath folderSettings = None)
  || bool_decide (defaultDefines folderSettings = None)
  || (bool_decide (defaultMacFrameworkPath folderSettings = None)
      && bool_decide (platform = darwin))
  || (bool_decide (defaultWindowsSdkVersion_setting folderSettings = None)
      && JS.truthy (Whole.defaultWindowsSdkVersion this)
      && bool_decide (platform = win32))
  || (bool_decide (defaultCompilerPath_setting settings = None)
      && JS.truthy (defaultCompilerPath (Whole.core this))
      && bool_decide (defaultCompileCommands folderSettings = None))
  || bool_decide (is_Some (Whole.knownCompilers this))
  || (bool_decide (defaultCStandard_setting settings = None)
      && JS.truthy (defaultCStandard (Whole.core this)))
  || (bool_decide (defaultCppStandard_setting settings = None)
      && JS.truthy (defaultCppStandard (Whole.core this)))
  || bool_decide (defaultIntelliSenseMode settings = None).

(** The document with its configuration at [index] replaced. *)
Definition set_configurationAt (index : Z) (configuration : Configuration)
    (json : ConfigurationJson) : ConfigurationJson :=
  set_configurations
    (<[Z.to_nat index := configuration]> (configurations json)) json.

(** [applyDefaultIncludePathsAndFrameworks()], source lines 262-268; the
    configuration is changed in place, in the document. [None] is the
    [TypeError] of a configuration that is not there. *)
Definition applyDefaultIncludePathsAndFrameworks (this : Whole.t) : option Whole.t :=
  if configurationIncomplete (Whole.core this)
     && bool_decide (is_Some (Whole.defaultIncludes this))
     && bool_decide (is_Some (Whole.defaultFrameworks this))
     && Whole.vcpkgPathReady this
  then
    match CurrentConfiguration (Whole.core this), configurationJson (Whole.core this) with
    | Some configuration, Some json =>
      let json :=
        set_configurationAt (currentConfigurationIndex (Whole.core this))
          (applyDefaultConfigurationValues this configuration) json in
      Some (Whole.set_core
              (set_configurationIncomplete false
                 (set_configurationJson (Some json) (Whole.core this)))
              this)
    | _, _ =>
      if readsConfiguration this then None
      else Some (Whole.set_core
                   (set_configurationIncomplete false (Whole.core this)) this)
    end
  else Some this.

End ApplyDefaults.
(** The further collaborators for the examples: no setting is set, the
    type tests of [util] test the type, and the resolver gives the empty
    string for what is no string. *)
Definition demoFolder (host : Host) : Folder := {|
  Folder_Host := host;
  folderSettings := mkFolderSettings None None None None None None None None None None;
  UseRecursiveIncludes := false;
  isString := λ v, match v with JsString _ => true | _ => false end;
  isBoolean := λ v, match v with JsBoolean _ => true | _ => false end;
  isArrayOfString := λ v, match v with JsStrings _ => true | _ => false end;
  resolveVariablesOther := λ _ _, JsString [];
  watch := λ _ _, true
|}.

(** The same with a limit on watchers: [fs.watch] throws once [limit] of
    them are open. *)
Definition limitedFolder (host : Host) (limit : nat) : Folder := {|
  Folder_Host := host;
  folderSettings := mkFolderSettings None None None None None None None None None None;
  UseRecursiveIncludes := false;
  isString := λ v, match v with JsString _ => true | _ => false end;
  isBoolean := λ v, match v with JsBoolean _ => true | _ => false end;
  isArrayOfString := λ v, match v with JsStrings _ => true | _ => false end;
  resolveVariablesOther := λ _ _, JsString [];
  watch := λ watched _, (length watched <? limit)%nat
|}.

(** A Linux host with the two files [/proj/a.json] and [/proj/b.json], and
    an object whose three configurations name them as their compile
    commands files, the first and the last the same one. *)
Definition watchHost : Host :=
  demoHost otherPlatform []
    (λ p, if bool_decide (p = str "/proj/a.json" ∨ p = str "/proj/b.json")
          then FileEntry else NoEntry)
    (λ _, JsonThrows (str "Unexpected token")).

Definition watchJson : ConfigurationJson :=
  mkConfigurationJson
    [set_compileCommands (Some (str "/proj/a.json")) (namedConfig (str "A"));
     set_compileCommands (Some (str "/proj/b.json")) (namedConfig (str "B"));
     set_compileCommands (Some (str "/proj/a.json")) (namedConfig (str "C"))]
    None (Some 4) None.

Definition watchState : CppProperties :=
  mkCppProperties (str "/proj") (Some (str "/proj/.vscode/c_cpp_properties.json"))
    (Some watchJson) 0 None None None None false [] JSObject.newMap.


(** The whole object around [core], before and after the compiler
    defaults have come in. *)
Definition wholeOf (core : CppProperties) : Whole.t :=
  Whole.mk core false None None None None [] false None.

Definition readyOf (core : CppProperties) : Whole.t :=
  Whole.mk core false None (Some []) (Some []) None [] true
           (Some (str "gcc-x64")).
(** * The configurations resolved against the settings *)

(** A property of a configuration and a default of the settings as
    values: an absent property is [undefined], an unset setting [null]. *)
Definition ofStrings (v : option (list jsstring)) : JsValue :=
  match v with Some l => JsStrings l | None => JsUndefined end.

Definition ofString (v : option jsstring) : JsValue :=
  match v with Some s => JsString s | None => JsUndefined end.

Definition ofOptional (v : Optional jsstring) : JsValue :=
  match v with
  | Undefined => JsUndefined
  | Null => JsNull
  | Value s => JsString s
  end.

Definition ofBoolOrString (v : option BoolOrString) : JsValue :=
  match v with
  | Some (IsBool b) => JsBoolean b
  | Some (IsString s) => JsString s
  | None => JsUndefined
  end.

Definition ofStringsSetting (v : option (list jsstring)) : JsValue :=
  match v with Some l => JsStrings l | None => JsNull end.

Definition ofStringSetting (v : option jsstring) : JsValue :=
  match v with Some s => JsString s | None => JsNull end.

Definition ofBoolSetting (v : option bool) : JsValue :=
  match v with Some b => JsBoolean b | None => JsNull end.

(** A value as a property of the interface [Configuration]; [None] when
    the interface has no such value. *)
Definition toStrings (v : JsValue) : option (option (list jsstring)) :=
  match v with
  | JsUndefined => Some None
  | JsStrings l => Some (Some l)
  | _ => None
  end.

Definition toString (v : JsValue) : option (option jsstring) :=
  match v with
  | JsUndefined => Some None
  | JsString s => Some (Some s)
  | _ => None
  end.

Definition toOptional (v : JsValue) : option (Optional jsstring) :=
  match v with
  | JsUndefined => Some Undefined
  | JsNull => Some Null
  | JsString s => Some (Value s)
  | _ => None
  end.

Definition toBoolOrString (v : JsValue) : option (option BoolOrString) :=
  match v with
  | JsUndefined => Some None
  | JsBoolean b => Some (Some (IsBool b))
  | JsString s => Some (Some (IsString s))
  | _ => None
  end.

(** JavaScript truthiness of a value. *)
Definition truthyValue (v : JsValue) : bool :=
  match v with
  | JsUndefined | JsNull => false
  | JsBoolean b => b
  | JsString s => negb (bool_decide (s = []))
  | JsStrings _ => true
  end.

(** The regular expression
    [/^\$\{(workspaceRoot|workspaceFolder)\}(\\\*{0,2}|\/\*{0,2})?$/] of
    source line 561: one of the two workspace variables, then nothing or a
    backslash or slash with at most two stars. *)
Fixpoint stripPrefix (p s : jsstring) : option jsstring :=
  match p, s with
  | [], _ => Some s
  | b :: p', a :: s' => if decide (a = b) then stripPrefix p' s' else None
  | _ :: _, [] => None
  end.

Definition isWorkspaceSuffix (rest : jsstring) : bool :=
  match rest with
  | [] => true
  | c :: stars =>
    bool_decide (c = "\"%char ∨ c = "/"%char)
    && bool_decide (stars = [] ∨ stars = str "*" ∨ stars = str "**")
  end.

Definition matchesWorkspaceFolder (value : jsstring) : bool :=
  match stripPrefix (str "${workspaceRoot}") value with
  | Some rest => isWorkspaceSuffix rest
  | None =>
    match stripPrefix (str "${workspaceFolder}") value with
    | Some rest => isWorkspaceSuffix rest
    | None => false
    end
  end.

(** What [updateServerOnFolderSettingsChange] does: nothing without a
    document; else the object with its configurations resolved, the
    compile commands files it watches and the configurations it fires
    [configurationsChanged] with, if it does. *)
Inductive ServerUpdate :=
| NoDocument
| Updated (this : CppProperties) (watched : list jsstring)
          (fired : option (list Configuration)).

Section FolderSettingsChange.
Context `{Folder}.

(** [this.resolveVariables(input, defaultValue, env)], source lines
    503-511; the name [resolveVariables] alone is the function of
    [util]. *)
Definition CppProperties_resolveVariables (input defaultValue : JsValue)
    (env : Environment) : JsValue :=
  let input :=
    if bool_decide (input = JsUndefined)
       || bool_decide (input = JsString (str "${default}"))
    then defaultValue else input in
  match input with
  | JsBoolean b => JsBoolean b
  | JsString s => JsString (resolveVariables s env)
  | _ => resolveVariablesOther input env
  end.

(** [this.resolveAndSplit(paths, defaultValue, env)] for a [paths] that is
    truthy; [None] is the [TypeError] of a [paths] that is no array, or a
    result that is no array of strings: a default that is neither [null]
    nor strings is put into the result by [concat] when an entry is
    [${default}]. *)
Definition resolveAndSplitValue (paths defaultValue : JsValue)
    (env : Environment) : option (list jsstring) :=
  match paths with
  | JsStrings paths =>
    match defaultValue with
    | JsNull => Some (resolveAndSplit (Some paths) None env)
    | JsStrings d => Some (resolveAndSplit (Some paths) (Some d) env)
    | JsString s => Some (resolveAndSplit (Some paths) (Some [s]) env)
    | JsUndefined | JsBoolean _ =>
      if bool_decide (str "${default}" ∈ paths) then None
      else Some (resolveAndSplit (Some paths) None env)
    end
  | _ => None
  end.

(** [updateConfiguration(property, defaultValue, env)], source lines
    513-529. *)
Definition updateConfiguration (property defaultValue : JsValue)
    (env : Environment) : option JsValue :=
  if isString property || isString defaultValue
  then Some (CppProperties_resolveVariables property defaultValue env)
  else if isBoolean property || isBoolean defaultValue
  then Some (CppProperties_resolveVariables property defaultValue env)
  else if isArrayOfString property || isArrayOfString defaultValue then
    if truthyValue property
    then JsStrings <$> resolveAndSplitValue property defaultValue env
    else if bool_decide (property = JsUndefined) && truthyValue defaultValue
    then JsStrings <$> resolveAndSplitValue defaultValue (JsStrings []) env
    else Some property
  else Some property.

Definition updateStrings (property defaultValue : option (list jsstring))
    (env : Environment) : option (option (list jsstring)) :=
  updateConfiguration (ofStrings property) (ofStringsSetting defaultValue) env
  ≫= toStrings.

Definition updateString (property defaultValue : option jsstring)
    (env : Environment) : option (option jsstring) :=
  updateConfiguration (ofString property) (ofStringSetting defaultValue) env
  ≫= toString.

Definition updateOptional (property : Optional jsstring)
    (defaultValue : option jsstring) (env : Environment)
    : option (Optional jsstring) :=
  updateConfiguration (ofOptional property) (ofStringSetting defaultValue) env
  ≫= toOptional.

(** The value of [configuration.browse.path], source lines 555-569, from
    the browse settings and the include path of the configuration. *)
Definition updateBrowsePath (configuration : Configuration) (browse : Browse.t)
    (env : Environment) : option (option (list jsstring)) :=
  match Browse.path browse with
  | None =>
    match defaultBrowsePath folderSettings with
    | Some d => Some (Some d)
    | None =>
      match includePath configuration with
      | Some paths =>
        Some (Some (if existsb matchesWorkspaceFolder paths then paths
                    else paths ++ [str "${workspaceFolder}"]))
      | None => Some None
      end
    end
  | Some path => updateStrings (Some path) (defaultBrowsePath folderSettings) env
  end.

(** One round of the loop of [updateServerOnFolderSettingsChange], source
    lines 538-575; [None] is an exception, or a value the interface
    [Configuration] has no type for. *)
Definition updateConfigurationFromSettings (env : Environment)
    (configuration : Configuration) : option Configuration :=
  v ← updateStrings (includePath configuration)
                    (defaultIncludePath folderSettings) env;
  let configuration := set_includePath v configuration in
  v ← updateStrings (defines configuration) (defaultDefines folderSettings) env;
  let configuration := set_defines v configuration in
  v ← updateStrings (macFrameworkPath configuration)
                    (defaultMacFrameworkPath folderSettings) env;
  let configuration := set_macFrameworkPath v configuration in
  v ← updateString (windowsSdkVersion configuration)
                   (defaultWindowsSdkVersion_setting folderSettings) env;
  let configuration := set_windowsSdkVersion v configuration in
  v ← updateStrings (forcedInclude configuration)
                    (defaultForcedInclude folderSettings) env;
  let configuration := set_forcedInclude v configuration in
  v ← updateString (compileCommands configuration)
                   (defaultCompileCommands folderSettings) env;
  let configuration := set_compileCommands v configuration in
  v ← updateOptional (compilerPath configuration)
                     (defaultCompilerPath_setting settings) env;
  let configuration := set_compilerPath v configuration in
  v ← updateString (cStandard configuration)
                   (defaultCStandard_setting settings) env;
  let configuration := set_cStandard v configuration in
  v ← updateString (cppStandard configuration)
                   (defaultCppStandard_setting settings) env;
  let configuration := set_cppStandard v configuration in
  v ← updateOptional (intelliSenseMode configuration)
                     (defaultIntelliSenseMode settings) env;
  let configuration := set_intelliSenseMode v configuration in
  v ← updateString (configurationProvider configuration)
                   (defaultConfigurationProvider folderSettings) env;
  let configuration := set_configurationProvider v configuration in
  let browse0 := default (Browse.mk None None None) (browse configuration) in
  path ← updateBrowsePath configuration browse0 env;
  limitSymbolsToIncludedHeaders ←
    updateConfiguration
      (ofBoolOrString (Browse.limitSymbolsToIncludedHeaders browse0))
      (ofBoolSetting (defaultLimitSymbolsToIncludedHeaders folderSettings)) env
    ≫= toBoolOrString;
  databaseFilename ←
    updateString (Browse.databaseFilename browse0)
                 (defaultDatabaseFilename folderSettings) env;
  Some (set_browse
          (Some (Browse.mk path limitSymbolsToIncludedHeaders databaseFilename))
          configuration).

(** The loop over [filePaths] of source lines 594-600, [watched] being
    the paths that have a watcher so far: the paths that have one in the
    end. A call of [fs.watch] that throws ends the loop, and the [catch]
    of line 601 drops the exception. *)
Fixpoint watchFiles (watched filePaths : list jsstring) : list jsstring :=
  match filePaths with
  | [] => watched
  | path :: filePaths =>
    if watch watched path then watchFiles (watched ++ [path]) filePaths
    else watched
  end.

(** [updateCompileCommandsFileWatchers()], source lines 584-605: the paths
    of the watchers in [compileCommandFileWatchers] afterwards, in order;
    [None] is the [TypeError] of an object without document. *)
Definition updateCompileCommandsFileWatchers (this : CppProperties)
    : option (list jsstring) :=
  json ← configurationJson this;
  let filePaths :=
    foldl (λ filePaths c,
             match compileCommands c with
             | Some path =>
               if existsSync path then setAdd path filePaths else filePaths
             | None => filePaths
             end)
          [] (configurations json) in
  Some (watchFiles [] filePaths).

(** [updateServerOnFolderSettingsChange()], source lines 531-580. *)
Definition updateServerOnFolderSettingsChange (this : CppProperties)
    : option ServerUpdate :=
  match configurationJson this with
  | None => Some NoDocument
  | Some json =>
    env ← ExtendedEnvironment this;
    configs ← mapM (updateConfigurationFromSettings env) (configurations json);
    let this := set_configurationJson (Some (set_configurations configs json)) this in
    watched ← updateCompileCommandsFileWatchers this;
    Some (Updated this watched
            (if negb (configurationIncomplete this) then Configurations this
             else None))
  end.

End FolderSettingsChange.

(** * Configuration changes and edits *)

(** What [handleConfigurationChange] does: nothing while
    [propertiesFile] is [undefined]; else the object afterwards, the load
    of the properties file when there is one, and what
    [updateServerOnFolderSettingsChange] did. *)
Inductive ConfigurationChange :=
| NotChecked
| Changed (this : Whole.t) (load : option ParseOutcome) (update : ServerUpdate).

(** What [updateCustomConfigurationProvider] does: it edits the
    properties file, or it updates the setting
    [default.configurationProvider] to [setting] and then sets the provider
    of the current configuration, which throws when there is none
    ([None]). *)
Inductive ProviderUpdate :=
| ProviderInFile (load : ParseOutcome) (this : CppProperties)
                 (written : ConfigurationJson)
| ProviderInSetting (setting : option jsstring) (this : option CppProperties).

Section Changes.
Context `{Folder}.

(** [// If the index is out of bounds ..., fix it.], source lines
    735-739. *)
Definition fixIndex (this : CppProperties) : option CppProperties :=
  match configurationJson this with
  | Some json =>
    if (currentConfigurationIndex this <? 0)
       || (Z.of_nat (length (configurations json)) <=? currentConfigurationIndex this)
    then
      index ← getConfigIndexForPlatform this json;
      Some (set_currentConfigurationIndex index this)
    else Some this
  | None => Some this
  end.

(** [handleConfigurationChange()], source lines 725-749, with what the
    load reads: the text of the properties file, whether it can be
    written, and the text of the document for the squiggle pass, which is
    taken at the load as in [parsePropertiesFile]. [None] is an
    exception. *)
Definition handleConfigurationChange (this : Whole.t)
    (readResults : option jsstring) (canWrite : bool) (documentText : jsstring)
    : option ConfigurationChange :=
  if Whole.propertiesFileUndefined this
     && bool_decide (propertiesFile (Whole.core this) = None)
  then Some NotChecked
  else
    '(core, load) ←
      match propertiesFile (Whole.core this) with
      | Some _ =>
        let outcome :=
          parsePropertiesFile (Whole.core this) readResults canWrite documentText in
        core ← fixIndex (stateAfter outcome);
        Some (core, Some outcome)
      | None => Some (Whole.core this, None)
      end;
    core ← (if bool_decide (configurationJson core = None)
            then resetToDefaultSettings core true else Some core);
    this ← applyDefaultIncludePathsAndFrameworks (Whole.set_core core this);
    update ← updateServerOnFolderSettingsChange (Whole.core this);
    Some (Changed (match update with
                   | Updated core _ _ => Whole.set_core core this
                   | NoDocument => this
                   end)
                  load update).



(** [updateCustomConfigurationProvider(providerId)], source lines 423-449:
    with a properties file, the callback it hands to
    [handleConfigurationEditJSONCommand], up to [writeToJson]; without,
    its second branch. [None] is the [TypeError] of a callback that finds
    no current configuration. *)
Definition updateCustomConfigurationProvider (this : CppProperties)
    (readResults : option jsstring) (canWrite : bool) (documentText : jsstring)
    (providerId : option jsstring) : option ProviderUpdate :=
  match propertiesFile this with
  | Some _ =>
    let outcome := parsePropertiesFile this readResults canWrite documentText in
    let this := stateAfter outcome in
    config ← CurrentConfiguration this;
    json ← configurationJson this;
    let config :=
      if JS.truthy providerId then set_configurationProvider providerId config
      else set_configurationProvider None config in
    let json := set_configurationAt (currentConfigurationIndex this) config json in
    Some (ProviderInFile outcome (set_configurationJson (Some json) this) json)
  | None =>
    let setting := if JS.truthy providerId then providerId else None in
    Some (ProviderInSetting setting
            (config ← CurrentConfiguration this;
             json ← configurationJson this;
             let config := set_configurationProvider providerId config in
             Some (set_configurationJson
                     (Some (set_configurationAt (currentConfigurationIndex this)
                                                config json))
                     this)))
  end.


End Changes.

(** The object has a document with configurations and an index into
    them. *)
Definition selects (this : CppProperties) : Prop :=
  ∃ json, configurationJson this = Some json
          ∧ configurations json ≠ []
          ∧ 0 ≤ currentConfigurationIndex this
            < Z.of_nat (length (configurations json)).

(* ================================================================== *)
(** * Part II: theorems *)
(* ================================================================== *)

(** * Facts about the JavaScript primitives *)

Example js_split_1 : JS.split ";"%char (str "x;y") = [str "x"; str "y"].
Proof. reflexivity. Qed.

Example js_split_2 : JS.split ";"%char (str "") = [str ""].
Proof. reflexivity. Qed.

Example js_replace_1 :
  JS.replace (str "a${t}b${t}") (str "${t}") (str "/r") = str "a/rb${t}".
Proof. reflexivity. Qed.

Example js_replace_2 :
  JS.replace (str "a${t}b") (str "${t}") (str "x$$y$&") = str "ax$y${t}b".
Proof. reflexivity. Qed.

Example js_substr_1 : JS.substr (str "/mnt/c/foo") 5 None = str "c/foo".
Proof. reflexivity. Qed.

Example js_indexOf_1 : JS.indexOf (str "ab:cd:") (str ":") 3 = 5.
Proof. reflexivity. Qed.

(** * List resolution: what the two passes compute *)
Section ListResolutionFacts.
Context `{Host}.

Lemma foldl_app_concat {A B} (f : A → list B) (l : list A) (acc : list B) :
  foldl (λ result x, result ++ f x) acc l = acc ++ mjoin (f <$> l).
Proof.
  revert acc. induction l as [|x l IH]; intros acc; simpl.
  - by rewrite app_nil_r.
  - rewrite IH. by rewrite <- app_assoc.
Qed.

Lemma resolveDefaults_acc entries defaultValue (acc : list jsstring) :
  foldl (λ result entry,
           if decide (entry = str "${default}") then
             match defaultValue with
             | Some d => result ++ d
             | None => result
             end
           else result ++ [entry])
        acc entries
  = acc ++ mjoin (expandDefault defaultValue <$> entries).
Proof.
  revert acc. induction entries as [|e entries IH]; intros acc.
  - by rewrite app_nil_r.
  - cbn [foldl fmap list_fmap mjoin list_join]. rewrite IH, app_assoc. f_equal.
    unfold expandDefault.
    destruct (decide (e = str "${default}")); [|done].
    destruct defaultValue; simpl; [done|by rewrite app_nil_r].
Qed.

Lemma resolveDefaults_concat entries defaultValue :
  resolveDefaults entries defaultValue
  = mjoin (expandDefault defaultValue <$> entries).
Proof. apply resolveDefaults_acc. Qed.

Lemma resolveAndSplit_concat paths defaultValue env :
  resolveAndSplit (Some paths) defaultValue env
  = resolveList_spec paths defaultValue env.
Proof.
  unfold resolveAndSplit, resolveList_spec.
  rewrite resolveDefaults_concat.
  exact (foldl_app_concat (fragments env) _ []).
Qed.

(** An absent list resolves to the empty list. *)
Lemma resolveAndSplit_undefined defaultValue env :
  resolveAndSplit None defaultValue env = [].
Proof. done. Qed.

End ListResolutionFacts.

(** ** The fragments of a split *)

Lemma split_no_sep sep s w : w ∈ JS.split sep s → sep ∉ w.
Proof.
  revert w. induction s as [|c s IH]; intros w; simpl.
  - intros ->%list_elem_of_singleton. apply not_elem_of_nil.
  - destruct (decide (c = sep)) as [->|Hne].
    + intros [->|Hw]%elem_of_cons; [apply not_elem_of_nil|by apply IH].
    + destruct (JS.split sep s) as [|w0 ws] eqn:E.
      * intros ->%list_elem_of_singleton.
        by intros [?|?%not_elem_of_nil]%elem_of_cons.
      * intros [->|Hw]%elem_of_cons.
        -- intros [?|Hin]%elem_of_cons; [done|].
           by apply (IH w0); [left|].
        -- apply IH. by right.
Qed.

Lemma split_nonempty sep s : JS.split sep s ≠ [].
Proof.
  destruct s as [|c s]; simpl; [done|].
  destruct (decide (c = sep)); [done|]. by destruct (JS.split sep s).
Qed.

(** Joining the fragments of a split with the separator gives the string
    back. *)
Lemma join_split sep s : joinWith sep (JS.split sep s) = s.
Proof.
  induction s as [|c s IH]; simpl; [done|].
  destruct (decide (c = sep)) as [->|Hne].
  - pose proof (split_nonempty sep s).
    destruct (JS.split sep s) as [|w ws] eqn:E; [done|].
    simpl in *. by rewrite IH.
  - pose proof (split_nonempty sep s).
    destruct (JS.split sep s) as [|w ws] eqn:E; [done|].
    destruct ws; simpl in *; by rewrite <- IH.
Qed.

Section ListResolutionClaims.
Context `{Host}.

(** Every resolved fragment is non-empty and has no [;] in it. *)
Lemma resolveAndSplit_fragment paths defaultValue env w :
  w ∈ resolveAndSplit paths defaultValue env → w ≠ [] ∧ ";"%char ∉ w.
Proof.
  destruct paths as [paths|]; [|by intros ?%not_elem_of_nil].
  rewrite resolveAndSplit_concat. unfold resolveList_spec.
  intros (l & Hw & (e & -> & _)%list_elem_of_fmap)%list_elem_of_join.
  unfold fragments in Hw. apply list_elem_of_filter in Hw as [Hne Hin].
  split; [done|]. by eapply split_no_sep.
Qed.

(** C2. List resolution expands every [${default}] element in place to the
    default list (to nothing when the default is [null]), then substitutes
    the variables of every element of the expanded list, splits each
    resolved string on [;], drops the empty fragments and concatenates the
    rest in order. On a host whose resolver leaves the placeholder-free
    strings [a], [b], [x;y] and [z] alone, the three examples of the
    specification evaluate as it says. *)
Theorem resolveAndSplit_resolves_list
    (Hplain : ∀ s, s ∈ [str "a"; str "b"; str "x;y"; str "z"] →
                   resolveVariables s ∅ = s) :
  (∀ values defaultValue env,
      resolveAndSplit (Some values) defaultValue env
      = resolveList_spec values defaultValue env)
  ∧ (∀ values env,
      resolveAndSplit (Some values) None env
      = resolveAndSplit (Some (filter (λ e, e ≠ str "${default}") values)) None env)
  ∧ (∀ values defaultValue env w,
      w ∈ resolveAndSplit (Some values) defaultValue env →
      w ≠ [] ∧ ";"%char ∉ w)
  ∧ resolveAndSplit (Some [str "${default}"]) (Some [str "a"; str "b"]) ∅
    = [str "a"; str "b"]
  ∧ resolveAndSplit (Some [str "${default}"]) (Some []) ∅ = []
  ∧ resolveAndSplit (Some [str "x;y"; str "${default}"]) (Some [str "z"]) ∅
    = [str "x"; str "y"; str "z"].
Proof.
  split_and!.
  - apply resolveAndSplit_concat.
  - intros values env. rewrite !resolveAndSplit_concat.
    unfold resolveList_spec. do 2 f_equal.
    induction values as [|e values IH]; [done|].
    rewrite filter_cons.
    destruct (decide (e ≠ str "${default}")) as [Hne|Heq]; csimpl.
    + by rewrite IH.
    + rewrite <- IH. unfold expandDefault at 1.
      destruct (decide (e = str "${default}")); [done|].
      by destruct Heq.
  - intros values defaultValue env w. apply resolveAndSplit_fragment.
  - rewrite resolveAndSplit_concat. unfold resolveList_spec, fragments.
    cbn [fmap list_fmap mjoin list_join]. simpl.
    rewrite !Hplain by (repeat constructor). reflexivity.
  - reflexivity.
  - rewrite resolveAndSplit_concat. unfold resolveList_spec, fragments.
    simpl. rewrite !Hplain by (repeat constructor). reflexivity.
Qed.

End ListResolutionClaims.

(** The hypothesis of [resolveAndSplit_resolves_list] holds on the Linux
    host. *)
Lemma resolveAndSplit_resolves_list_witness :
  @resolveAndSplit linuxHost (Some [str "x;y"; str "${default}"]) (Some [str "z"]) ∅
  = [str "x"; str "y"; str "z"].
Proof.
  refine (proj2 (proj2 (proj2 (proj2 (proj2
    (@resolveAndSplit_resolves_list linuxHost _)))))).
  intros s _. reflexivity.
Defined.

(** The elements a default contributes are resolved and split like the
    others. *)
Example resolveAndSplit_splits_defaults :
  @resolveAndSplit linuxHost (Some [str "${default}"]) (Some [str "a;b"]) ∅
  = [str "a"; str "b"].
Proof. reflexivity. Qed.

(** * Compiler and IntelliSense mode: compatibility *)
Section CompatibilityClaims.
Context `{Host}.






End CompatibilityClaims.



(** * Facts about searching and replacing *)
Section StringSearch.

Lemma startsWith_true (s p : jsstring) :
  JS.startsWith s p = true ↔ ∃ t, s = p ++ t.
Proof.
  revert s. induction p as [|b p IH]; intros s; simpl.
  - split; [intros _; by exists s|done].
  - destruct s as [|a s]; simpl; [split; [done|by intros [t Ht]]|].
    destruct (decide (a = b)) as [->|Hne].
    + rewrite IH. split; intros [t Ht]; exists t; [by rewrite Ht|by simplify_eq].
    + split; [done|]. intros [t Ht]. by simplify_eq.
Qed.

Lemma startsWith_app (p t : jsstring) : JS.startsWith (p ++ t) p = true.
Proof. apply startsWith_true. by exists t. Qed.

Lemma firstIndex_unfold (s sub : jsstring) :
  JS.firstIndex s sub
  = if JS.startsWith s sub then Some 0%nat
    else match s with
         | [] => None
         | _ :: t => S <$> JS.firstIndex t sub
         end.
Proof. by destruct s. Qed.

(** Where [firstIndex] points, the pattern is. *)
Lemma firstIndex_Some (s sub : jsstring) (i : nat) :
  JS.firstIndex s sub = Some i →
  s = take i s ++ sub ++ drop (i + length sub) s.
Proof.
  revert i. induction s as [|a s IH]; intros i; rewrite firstIndex_unfold.
  - destruct (JS.startsWith [] sub) eqn:E; [|done].
    intros [= <-]. apply startsWith_true in E as [t Ht].
    symmetry in Ht. apply app_eq_nil in Ht as [-> ->]. done.
  - destruct (JS.startsWith (a :: s) sub) eqn:E.
    + intros [= <-]. apply startsWith_true in E as [t Ht].
      rewrite Ht. change (0 + length sub)%nat with (length sub).
      by rewrite take_0, drop_app_length.
    + destruct (JS.firstIndex s sub) as [j|] eqn:Ej; [|done].
      intros [= <-]. simpl. f_equal. by apply IH.
Qed.

(** No occurrence starts before the one [firstIndex] points to. *)
Lemma firstIndex_first (s sub : jsstring) (i j : nat) :
  JS.firstIndex s sub = Some i → (j < i)%nat →
  JS.startsWith (drop j s) sub = false.
Proof.
  revert i j. induction s as [|a s IH]; intros i j; rewrite firstIndex_unfold.
  - destruct (JS.startsWith [] sub); [|done]. intros [= <-]. lia.
  - destruct (JS.startsWith (a :: s) sub) eqn:E; [intros [= <-]; lia|].
    destruct (JS.firstIndex s sub) as [k|] eqn:Ek; [|done].
    intros [= <-] Hj. destruct j as [|j]; [done|].
    simpl. apply (IH k); [done|lia].
Qed.

Lemma firstIndex_None (s sub x y : jsstring) :
  JS.firstIndex s sub = None → s ≠ x ++ sub ++ y.
Proof.
  revert x. induction s as [|a s IH]; intros x; rewrite firstIndex_unfold.
  - destruct (JS.startsWith [] sub) eqn:E; [done|]. intros _ Hs.
    symmetry in Hs. apply app_eq_nil in Hs as [_ [-> _]%app_eq_nil].
    done.
  - destruct (JS.startsWith (a :: s) sub) eqn:E; [done|].
    destruct (JS.firstIndex s sub) eqn:Ei; [done|]. intros _ Hs.
    destruct x as [|c x].
    + rewrite Hs, app_nil_l, startsWith_app in E. done.
    + simplify_eq/=. by eapply IH.
Qed.

(** [includes] is the existence of an occurrence. *)
Lemma includes_true (s sub : jsstring) :
  JS.includes s sub = true ↔ ∃ x y, s = x ++ sub ++ y.
Proof.
  unfold JS.includes. split.
  - destruct (JS.firstIndex s sub) as [i|] eqn:E; [|done]. intros _.
    apply firstIndex_Some in E. eauto.
  - intros (x & y & Hs).
    destruct (JS.firstIndex s sub) eqn:E; [done|].
    by apply (firstIndex_None _ _ x y) in E.
Qed.

Lemma includes_app_l (x s sub : jsstring) :
  JS.includes s sub = true → JS.includes (x ++ s) sub = true.
Proof.
  rewrite !includes_true. intros (a & b & ->).
  exists (x ++ a), b. by rewrite <- app_assoc.
Qed.

Lemma includes_app_r (s y sub : jsstring) :
  JS.includes s sub = true → JS.includes (s ++ y) sub = true.
Proof.
  rewrite !includes_true. intros (a & b & ->).
  exists a, (b ++ y). by rewrite <- !app_assoc.
Qed.

Lemma includes_char (s : jsstring) (c : ascii) :
  JS.includes s [c] = true ↔ c ∈ s.
Proof.
  rewrite includes_true. split.
  - intros (x & y & ->). apply elem_of_app. right. by left.
  - intros (x & y & ->)%list_elem_of_split. by exists x, y.
Qed.

(** A replacement text without a dollar sign is inserted as it is. *)
Lemma getSubstitution_plain (matched before after repl : jsstring) :
  "$"%char ∉ repl → JS.getSubstitution matched before after repl = repl.
Proof.
  induction repl as [|c r IH]; [done|].
  intros [Hc Hr]%not_elem_of_cons. simpl.
  destruct (decide (c = "$"%char)); [done|]. by rewrite IH.
Qed.

(** [replace] rewrites the first occurrence and nothing else. *)
Lemma replace_first (s pat repl a b : jsstring) :
  s = a ++ pat ++ b → JS.firstIndex s pat = Some (length a) →
  JS.replace s pat repl = a ++ JS.getSubstitution pat a b repl ++ b.
Proof.
  intros -> Hi. unfold JS.replace. rewrite Hi.
  rewrite take_app_length.
  replace (drop (length a + length pat) (a ++ pat ++ b)) with b; [done|].
  by rewrite app_assoc, <- length_app, drop_app_length.
Qed.

Lemma replace_absent (s pat repl : jsstring) :
  JS.includes s pat = false → JS.replace s pat repl = s.
Proof.
  unfold JS.includes, JS.replace. by destruct (JS.firstIndex s pat).
Qed.

Lemma replace_decompose (s pat repl : jsstring) :
  JS.includes s pat = true →
  ∃ a b, s = a ++ pat ++ b
         ∧ JS.replace s pat repl = a ++ JS.getSubstitution pat a b repl ++ b.
Proof.
  unfold JS.includes.
  destruct (JS.firstIndex s pat) as [i|] eqn:Hi; [intros _|done].
  pose proof (firstIndex_Some _ _ _ Hi) as Hs.
  exists (take i s), (drop (i + length pat) s). split; [done|].
  unfold JS.replace. by rewrite Hi.
Qed.

(** ** [substr] with offsets in range *)

Lemma substr_from (s : jsstring) (k : nat) :
  JS.substr s (Z.of_nat k) None = drop k s.
Proof.
  unfold JS.substr.
  rewrite (proj2 (Z.ltb_ge _ _)) by lia.
  destruct (decide (k ≤ length s)%nat).
  - rewrite Z.min_l by lia. rewrite Nat2Z.id.
    apply take_ge. rewrite length_drop. lia.
  - rewrite Z.min_r by lia. rewrite Nat2Z.id.
    rewrite !drop_ge by lia. by rewrite take_nil.
Qed.

Lemma substr_prefix (s : jsstring) (n : nat) :
  JS.substr s 0 (Some (Z.of_nat n)) = take n s.
Proof.
  unfold JS.substr. simpl.
  rewrite (Z.min_l 0) by lia. rewrite Z.sub_0_r, Z.max_l by lia.
  change (Z.to_nat 0) with 0%nat. rewrite drop_0.
  destruct (decide (n ≤ length s)%nat).
  - by rewrite Z.min_l, Nat2Z.id by lia.
  - rewrite Z.min_r, Nat2Z.id by lia. by rewrite !take_ge by lia.
Qed.

End StringSearch.

(** * Occurrences of tokens under replacement *)
Section Occurrences.

(** Two words that start with the same letter [h] and have no other [h]
    occur in a text either apart from each other or at the same place. *)
Lemma occurrences_apart (h : ascii) (t1 t2 x y p q : jsstring) :
  h ∉ t1 → h ∉ t2 →
  x ++ (h :: t1) ++ y = p ++ (h :: t2) ++ q →
  (∃ k, x = p ++ (h :: t2) ++ k ∧ q = k ++ (h :: t1) ++ y)
  ∨ (∃ k, p = x ++ (h :: t1) ++ k ∧ y = k ++ (h :: t2) ++ q)
  ∨ (x = p ∧ (h :: t1) ++ y = (h :: t2) ++ q).
Proof.
  intros H1 H2 Heq.
  apply app_eq_inv in Heq as [(k & -> & Hk)|(k & -> & Hk)].
  - destruct k as [|c k]; [by right; right; rewrite app_nil_r|].
    apply app_eq_inv in Hk as [(k' & Ht2 & Hq)|(k' & Hk' & ->)].
    + simplify_eq/=. destruct k' as [|d k'].
      * left. exists []. rewrite !app_nil_r. simpl in Hq. by subst.
      * simplify_eq/=. destruct H2. apply elem_of_app. right. by left.
    + left. exists k'. by rewrite Hk'.
  - destruct k as [|c k]; [by right; right; rewrite app_nil_r|].
    apply app_eq_inv in Hk as [(k' & Ht1 & Hy)|(k' & Hk' & ->)].
    + simplify_eq/=. destruct k' as [|d k'].
      * right; left. exists []. rewrite !app_nil_r. simpl in Hy. by subst.
      * simplify_eq/=. destruct H1. apply elem_of_app. right. by left.
    + right; left. exists k'. by rewrite Hk'.
Qed.

Context (h : ascii) (t1 t2 : jsstring).
Context (Ht1 : h ∉ t1) (Ht2 : h ∉ t2).

(** Replacing the first [h :: t2] keeps an occurrence of a word
    [h :: t1] that never starts where an [h :: t2] starts. *)
Lemma replace_keeps_occurrence (s repl : jsstring) :
  (∀ y q, (h :: t1) ++ y ≠ (h :: t2) ++ q) →
  JS.includes s (h :: t1) = true →
  JS.includes (JS.replace s (h :: t2) repl) (h :: t1) = true.
Proof.
  intros Hdiff Hin.
  destruct (JS.includes s (h :: t2)) eqn:Hpat;
    [|by rewrite replace_absent].
  destruct (replace_decompose s (h :: t2) repl Hpat) as (p & q & Hs & ->).
  apply includes_true in Hin as (x & y & Hx). rewrite Hx in Hs.
  apply occurrences_apart in Hs as [(k & -> & ->)|[(k & -> & ->)|[_ Hs]]];
    [| |by apply Hdiff in Hs|done..].
  - do 2 apply includes_app_l. apply includes_true. by exists k, y.
  - rewrite <- !app_assoc. apply includes_true. eauto.
Qed.

Lemma replace_keeps_two_occurrences (s repl : jsstring) :
  (∀ y q, (h :: t1) ++ y ≠ (h :: t2) ++ q) →
  occursTwice s (h :: t1) →
  occursTwice (JS.replace s (h :: t2) repl) (h :: t1).
Proof.
  intros Hdiff (a & c & d & Hs).
  destruct (JS.includes s (h :: t2)) eqn:Hpat;
    [|rewrite replace_absent by done; by exists a, c, d].
  destruct (replace_decompose s (h :: t2) repl Hpat) as (p & q & Hs' & ->).
  set (g := JS.getSubstitution (h :: t2) p q repl). clearbody g.
  rewrite Hs in Hs'.
  apply occurrences_apart in Hs' as [(k & -> & ->)|[(k & -> & Hk)|[_ Hs']]];
    [| |by apply Hdiff in Hs'|done..].
  - exists (p ++ g ++ k), c, d. by rewrite <- !app_assoc.
  - apply occurrences_apart in Hk as [(k' & -> & ->)|[(k' & -> & ->)|[_ Hk]]];
      [| |by apply Hdiff in Hk|done..].
    + exists a, (k ++ g ++ k'), d. by rewrite <- !app_assoc.
    + exists a, c, (k' ++ g ++ q). by rewrite <- !app_assoc.
Qed.

(** Replacing the first [h :: t1] of a text that holds it twice leaves the
    later one. *)
Lemma replace_leaves_later_occurrence (s repl : jsstring) :
  occursTwice s (h :: t1) →
  JS.includes (JS.replace s (h :: t1) repl) (h :: t1) = true.
Proof.
  intros (a & c & d & Hs). unfold JS.replace.
  destruct (JS.firstIndex s (h :: t1)) as [i|] eqn:Hi;
    [|by apply (firstIndex_None _ _ a (c ++ (h :: t1) ++ d)) in Hi].
  assert (i ≤ length a)%nat as Hle.
  { destruct (decide (i ≤ length a)%nat) as [|Hgt]; [done|].
    pose proof (firstIndex_first _ _ i (length a) Hi ltac:(lia)) as Hno.
    rewrite Hs, drop_app_length, startsWith_app in Hno. done. }
  pose proof (firstIndex_Some _ _ _ Hi) as Hs'.
  set (p := take i s) in *. set (q := drop (i + length (h :: t1)) s) in *.
  assert (length p = i) as Hp.
  { unfold p. rewrite length_take_le; [done|].
    rewrite Hs, length_app. lia. }
  rewrite Hs, (app_assoc a), (app_assoc (a ++ _)) in Hs'.
  apply occurrences_apart in Hs' as [(k & Ha & Hq)|[(k & Hk & _)|[Hk _]]];
    [| | |done..].
  - rewrite Hq. do 3 apply includes_app_l. apply includes_true.
    by exists [], d.
  - apply (f_equal length) in Hk. rewrite !length_app in Hk. simpl in Hk. lia.
  - apply (f_equal length) in Hk. rewrite !length_app in Hk. simpl in Hk. lia.
Qed.

(** Dropping every [c] keeps the occurrences of a word without [c]. *)
Lemma removeAll_keeps_occurrence (c : ascii) (s token : jsstring) :
  c ∉ token → JS.includes s token = true →
  JS.includes (JS.removeAll c s) token = true.
Proof.
  intros Hc (x & y & ->)%includes_true. unfold JS.removeAll.
  rewrite !filter_app. apply includes_true.
  exists (filter (λ a, a ≠ c) x), (filter (λ a, a ≠ c) y).
  do 2 f_equal. clear -Hc.
  induction token as [|a token IH]; [done|].
  apply not_elem_of_cons in Hc as [Hne Hc].
  rewrite filter_cons_True by done. by rewrite IH.
Qed.

End Occurrences.

(** * Path resolution: the later occurrences of a token *)
Section LaterOccurrences.
Context `{Host}.

Local Ltac by_computation := apply (bool_decide_unpack _); vm_compute; exact I.

(** A workspace token starts with a dollar sign and has no other; it has
    no star and no slash. *)
Lemma workspaceToken_shape (token : jsstring) :
  token ∈ workspaceTokens →
  ∃ t, token = ("$"%char :: t) ∧ ("$"%char ∉ t) ∧ ("*"%char ∉ token).
Proof.
  unfold workspaceTokens.
  intros Hin. repeat (apply elem_of_cons in Hin as [->|Hin]);
    [| | |by apply not_elem_of_nil in Hin];
    eexists; (split; [reflexivity|]); split; by_computation.
Qed.

(** Two different tokens never start at the same place of a text. *)
Lemma workspaceTokens_differ (t1 t2 y q : jsstring) :
  t1 ∈ workspaceTokens → t2 ∈ workspaceTokens → t1 ≠ t2 →
  t1 ++ y ≠ t2 ++ q.
Proof.
  unfold workspaceTokens. intros H1 H2 Hne Heq.
  repeat (apply elem_of_cons in H1 as [->|H1]);
    [| | |by apply not_elem_of_nil in H1];
    (repeat (apply elem_of_cons in H2 as [->|H2]);
       [| | |by apply not_elem_of_nil in H2]);
    try done; vm_compute in Heq; discriminate.
Qed.

(** One guarded replacement of [replaceWorkspaceTokens], for another
    token than the one that is tracked. *)
Lemma other_token_keeps_two (guard : bool) (s token other repl : jsstring) :
  token ∈ workspaceTokens → other ∈ workspaceTokens → token ≠ other →
  occursTwice s token →
  occursTwice (if guard then JS.replace s other repl else s) token.
Proof.
  intros Htok Hother Hne Htwice. destruct guard; [|done].
  destruct (workspaceToken_shape _ Htok) as (t1 & E1 & Hd1 & _).
  destruct (workspaceToken_shape _ Hother) as (t2 & E2 & Hd2 & _).
  pose proof (λ y q, workspaceTokens_differ _ _ y q Htok Hother Hne) as Hdiff.
  subst token other. by apply replace_keeps_two_occurrences.
Qed.

Lemma other_token_keeps_one (guard : bool) (s token other repl : jsstring) :
  token ∈ workspaceTokens → other ∈ workspaceTokens → token ≠ other →
  JS.includes s token = true →
  JS.includes (if guard then JS.replace s other repl else s) token = true.
Proof.
  intros Htok Hother Hne Hin. destruct guard; [|done].
  destruct (workspaceToken_shape _ Htok) as (t1 & E1 & Hd1 & _).
  destruct (workspaceToken_shape _ Hother) as (t2 & E2 & Hd2 & _).
  pose proof (λ y q, workspaceTokens_differ _ _ y q Htok Hother Hne) as Hdiff.
  subst token other. by apply replace_keeps_occurrence.
Qed.

Lemma occursTwice_includes (s token : jsstring) :
  occursTwice s token → JS.includes s token = true.
Proof. intros (a & c & d & ->). apply includes_true. eauto. Qed.

(** The guarded replacement of the tracked token itself. *)
Lemma same_token_leaves_one (guard : bool) (s token repl : jsstring) :
  token ∈ workspaceTokens → occursTwice s token →
  JS.includes (if guard then JS.replace s token repl else s) token = true.
Proof.
  intros Htok Htwice. destruct guard; [|by apply occursTwice_includes].
  destruct (workspaceToken_shape _ Htok) as (t1 & -> & Hd1 & _).
  by apply replace_leaves_later_occurrence.
Qed.

Lemma star_removal_keeps_one (s token : jsstring) :
  token ∈ workspaceTokens → JS.includes s token = true →
  JS.includes (if JS.includes s (str "*") then JS.removeAll "*"%char s else s)
              token = true.
Proof.
  intros Htok Hin. destruct (JS.includes s (str "*")); [|done].
  destruct (workspaceToken_shape _ Htok) as (t1 & _ & _ & Hstar).
  by apply removeAll_keeps_occurrence.
Qed.

(** A token that occurs twice is still there after the three replacements
    and the removal of the stars. *)
Lemma replaceWorkspaceTokens_leaves_later (this : CppProperties)
    (s token : jsstring) :
  token ∈ workspaceTokens → occursTwice s token →
  JS.includes (replaceWorkspaceTokens this s) token = true.
Proof.
  intros Htok Htwice. unfold replaceWorkspaceTokens.
  assert (str "${workspaceFolder}" ∈ workspaceTokens) as Hwf by (by left).
  assert (str "${workspaceRoot}" ∈ workspaceTokens) as Hwr
    by (right; by left).
  assert (str "${vcpkgRoot}" ∈ workspaceTokens) as Hvc
    by (right; right; by left).
  apply star_removal_keeps_one; [done|].
  destruct (decide (token = str "${workspaceFolder}")) as [->|Hnwf].
  { apply other_token_keeps_one; [done..|].
    apply other_token_keeps_one; [done..|].
    by apply same_token_leaves_one. }
  destruct (decide (token = str "${workspaceRoot}")) as [->|Hnwr].
  { apply other_token_keeps_one; [done..|].
    apply same_token_leaves_one; [done|].
    by apply other_token_keeps_two. }
  destruct (decide (token = str "${vcpkgRoot}")) as [->|Hnvc].
  { apply same_token_leaves_one; [done|].
    apply other_token_keeps_two; [done..|].
    by apply other_token_keeps_two. }
  unfold workspaceTokens in Htok.
  repeat (apply elem_of_cons in Htok as [->|Htok]); try done.
  by apply not_elem_of_nil in Htok.
Qed.

(** The WSL rewriting keeps an occurrence of a token, unless the token
    comes right after a leading [/mnt/]: then the colon goes into it. *)
Lemma resolveWSL_keeps_occurrence (this : CppProperties) (isWindows : bool)
    (s token : jsstring) :
  token ∈ workspaceTokens → JS.includes s token = true →
  JS.includes (resolveWSL this isWindows s) token = true
  ∨ (isWindows = true ∧ JS.startsWith s (str "/mnt/" ++ token) = true).
Proof.
  intros Htok Hin. unfold resolveWSL.
  destruct (isWindows && JS.startsWith s (str "/")) eqn:Hw; [|by left].
  apply andb_prop in Hw as [-> Hslash].
  destruct (workspaceToken_shape _ Htok) as (t & -> & _ & _).
  apply includes_true in Hin as (x & y & Hs).
  destruct (_ && bool_decide _) eqn:Hmnt.
  - apply andb_prop in Hmnt as [_ Hmnt%bool_decide_eq_true_1].
    rewrite substr_prefix in Hmnt. rewrite substr_from.
    change 1 with (Z.of_nat 1). rewrite substr_prefix, substr_from.
    pose proof (take_drop (length (str "/mnt/")) s) as Htd.
    rewrite Hmnt in Htd. set (s' := drop (length (str "/mnt/")) s) in *.
    rewrite Hs in Htd.
    apply app_eq_inv in Htd as [(k & Hmntk & Hk)|(k & -> & Hk)].
    + destruct k as [|c k].
      * right. split; [done|]. rewrite Hs, app_nil_r in *. subst x.
        apply startsWith_true. exists y. by rewrite <- app_assoc.
      * simplify_eq/=.
        assert ("$"%char ∈ str "/mnt/") as Hd
          by (rewrite Hmntk; apply elem_of_app; right; by left).
        exfalso. revert Hd. by_computation.
    + destruct k as [|c k].
      * right. split; [done|]. rewrite Hs, app_nil_r.
        apply startsWith_true. exists y. by rewrite <- app_assoc.
      * left. rewrite Hk. simpl. apply includes_true.
        exists (c :: ":"%char :: k), y. done.
  - assert (JS.includes (drop 1 s) ("$"%char :: t) = true) as Hdrop.
    { destruct x as [|c x].
      - rewrite Hs in Hslash. by vm_compute in Hslash.
      - rewrite Hs. simpl. rewrite drop_0. apply includes_true. eauto. }
    left. destruct (rootfs this) as [fs|]; [|apply includes_true; eauto].
    destruct (Z.of_nat (length fs) >? 0); [|apply includes_true; eauto].
    change 1 with (Z.of_nat 1). rewrite substr_from.
    by apply includes_app_l.
Qed.

End LaterOccurrences.

Section FirstOccurrenceOnly.
Context `{Host}.

Lemma resolvePath_resolves (this : CppProperties) (env : Environment)
    (path : jsstring) (isWindows : bool) :
  ExtendedEnvironment this = Some env →
  path ≠ [] → path ≠ str "${default}" →
  resolvePath this (Some path) isWindows
  = Some (resolveWSL this isWindows
            (replaceWorkspaceTokens this (resolveVariables path env))).
Proof.
  intros Henv Hne Hnd. unfold resolvePath. rewrite Henv.
  destruct path as [|c path]; [done|]. simpl.
  by rewrite bool_decide_eq_false_2 by congruence.
Qed.

(** When the token [token] is the only one in the resolved text and
    nothing has a star, the three replacements come down to the one of
    the first [token]. *)
Lemma replaceWorkspaceTokens_single (this : CppProperties)
    (r token a b : jsstring) :
  let value := tokenValue this token in
  let s := a ++ JS.getSubstitution token a b value ++ b in
  token ∈ workspaceTokens →
  r = a ++ token ++ b → JS.firstIndex r token = Some (length a) →
  (token = str "${vcpkgRoot}" → getVcpkgRoot ≠ []) →
  (∀ other, other ∈ workspaceTokens → other ≠ token →
            JS.includes r other = false ∧ JS.includes s other = false) →
  "*"%char ∉ s →
  replaceWorkspaceTokens this r = s.
Proof.
  intros value s Htok Hr Hfirst Hvcpkg Hothers Hstar.
  assert (JS.includes r token = true) as Hin
    by (apply includes_true; eauto).
  assert (JS.replace r token value = s) as Hrep
    by (by apply replace_first).
  assert (JS.includes s (str "*") = false) as Hnostar.
  { apply not_true_iff_false. by rewrite (includes_char s "*"%char). }
  assert (str "${workspaceFolder}" ∈ workspaceTokens) as Hwf by (by left).
  assert (str "${workspaceRoot}" ∈ workspaceTokens) as Hwr
    by (right; by left).
  assert (str "${vcpkgRoot}" ∈ workspaceTokens) as Hvc
    by (right; right; by left).
  unfold replaceWorkspaceTokens, workspaceTokens in *.
  repeat (apply elem_of_cons in Htok as [->|Htok]);
    [| | |by apply not_elem_of_nil in Htok].
  - rewrite Hin. unfold value, tokenValue in Hrep.
    rewrite decide_False in Hrep by done. rewrite Hrep.
    rewrite (proj2 (Hothers _ Hwr ltac:(done))).
    rewrite (proj2 (Hothers _ Hvc ltac:(done))). simpl.
    by rewrite Hnostar.
  - rewrite (proj1 (Hothers _ Hwf ltac:(done))), Hin.
    unfold value, tokenValue in Hrep.
    rewrite decide_False in Hrep by done. rewrite Hrep.
    rewrite (proj2 (Hothers _ Hvc ltac:(done))). simpl.
    by rewrite Hnostar.
  - rewrite (proj1 (Hothers _ Hwf ltac:(done))).
    rewrite (proj1 (Hothers _ Hwr ltac:(done))), Hin.
    unfold value, tokenValue in Hrep.
    rewrite decide_True in Hrep by done. rewrite Hrep.
    destruct getVcpkgRoot eqn:E; [by destruct Hvcpkg|]. simpl.
    by rewrite Hnostar.
Qed.

(** C10. [String.prototype.replace] with a string pattern rewrites the
    first occurrence only, and [resolvePath] uses nothing else for
    [${workspaceFolder}], [${workspaceRoot}] and [${vcpkgRoot}]. So when
    the path, after variable resolution, holds one of these tokens first
    at [a] and again in the rest [b]:
    - that replacement gives [a], the substitution, then [b] untouched;
    - the later token is still in the text after the three replacements
      and the removal of the stars;
    - it is still in the returned path, the one exception being a Windows
      host where the text before the WSL rewriting starts with [/mnt/]
      followed at once by the token;
    - when no other token and no star is around, the path returned on a
      host that is not Windows is exactly [a], the substitution, [b]. *)
Theorem resolvePath_replaces_first_occurrence_only
    (this : CppProperties) (env : Environment) (path : jsstring)
    (isWindows : bool) (token a b : jsstring) :
  let r := resolveVariables path env in
  let value := tokenValue this token in
  let s := a ++ JS.getSubstitution token a b value ++ b in
  ExtendedEnvironment this = Some env →
  path ≠ [] → path ≠ str "${default}" →
  token ∈ workspaceTokens →
  r = a ++ token ++ b → JS.firstIndex r token = Some (length a) →
  JS.includes b token = true →
  JS.replace r token value = s
  ∧ ("$"%char ∉ value → s = a ++ value ++ b)
  ∧ JS.includes s token = true
  ∧ JS.includes (replaceWorkspaceTokens this r) token = true
  ∧ (∃ result,
       resolvePath this (Some path) isWindows = Some result
       ∧ (JS.includes result token = true
          ∨ (isWindows = true
             ∧ JS.startsWith (replaceWorkspaceTokens this r)
                             (str "/mnt/" ++ token) = true)))
  ∧ ((token = str "${vcpkgRoot}" → getVcpkgRoot ≠ []) →
     (∀ other, other ∈ workspaceTokens → other ≠ token →
               JS.includes r other = false ∧ JS.includes s other = false) →
     "*"%char ∉ s →
     resolvePath this (Some path) false = Some s).
Proof.
  intros r value s Henv Hne Hnd Htok Hr Hfirst Hlater.
  assert (occursTwice r token) as Htwice.
  { apply includes_true in Hlater as (c & d & ->). by exists a, c, d. }
  pose proof (replaceWorkspaceTokens_leaves_later this r token Htok Htwice)
    as Hkept.
  split_and!.
  - by apply replace_first.
  - intros Hplain. unfold s. by rewrite getSubstitution_plain.
  - unfold s. by do 2 apply includes_app_l.
  - done.
  - eexists. split; [by apply resolvePath_resolves|].
    by apply resolveWSL_keeps_occurrence.
  - intros Hvcpkg Hothers Hstar.
    rewrite (resolvePath_resolves _ env) by done. f_equal.
    by apply replaceWorkspaceTokens_single.
Qed.

End FirstOccurrenceOnly.

(** On the Linux host, with the workspace at [/proj], the path
    [${workspaceFolder}/a;${workspaceFolder}/b] resolves to
    [/proj/a;${workspaceFolder}/b]. *)
Lemma resolvePath_replaces_first_occurrence_only_witness :
  @resolvePath linuxHost (demoState (str "/proj") None)
    (Some (str "${workspaceFolder}/a;${workspaceFolder}/b")) false
  = Some (str "/proj/a;${workspaceFolder}/b").
Proof.
  pose proof (@resolvePath_replaces_first_occurrence_only linuxHost
    (demoState (str "/proj") None)
    (<[str "workspaceFolderBasename" := EnvString (str "proj")]> ∅)
    (str "${workspaceFolder}/a;${workspaceFolder}/b") false
    (str "${workspaceFolder}") [] (str "/a;${workspaceFolder}/b")
    eq_refl ltac:(discriminate) ltac:(discriminate)
    ltac:(by left) eq_refl eq_refl eq_refl) as (_ & _ & _ & _ & _ & Hexact).
  apply Hexact.
  - discriminate.
  - intros other Hin Hne. unfold workspaceTokens in Hin.
    repeat (apply elem_of_cons in Hin as [->|Hin]);
      [by destruct Hne|by split|by split|by apply not_elem_of_nil in Hin].
  - apply (bool_decide_unpack _). vm_compute. exact I.
Defined.

(** * Path resolution: what [resolvePath] returns *)
Section PathResolutionClaims.
Context `{Host}.

Lemma replaceWorkspaceTokens_no_star (this : CppProperties) (s : jsstring) :
  "*"%char ∉ replaceWorkspaceTokens this s.
Proof.
  unfold replaceWorkspaceTokens.
  match goal with
  | |- _ ∉ (if JS.includes ?r _ then _ else _) => generalize r
  end.
  intros r. destruct (JS.includes r (str "*")) eqn:E.
  - unfold JS.removeAll. rewrite list_elem_of_filter. by intros [? _].
  - intros Hin%includes_char. change ["*"%char] with (str "*") in Hin.
    congruence.
Qed.

(** A text without workspace token and without star is left alone; a
    [${vcpkgRoot}] stays when no vcpkg root is known. *)
Lemma replaceWorkspaceTokens_id (this : CppProperties) (s : jsstring) :
  JS.includes s (str "${workspaceFolder}") = false →
  JS.includes s (str "${workspaceRoot}") = false →
  JS.includes s (str "${vcpkgRoot}") = false ∨ getVcpkgRoot = [] →
  "*"%char ∉ s →
  replaceWorkspaceTokens this s = s.
Proof.
  intros Hwf Hwr Hvc Hstar. unfold replaceWorkspaceTokens.
  rewrite Hwf, Hwr.
  assert (JS.includes s (str "${vcpkgRoot}") && JS.truthy (Some getVcpkgRoot)
          = false) as ->.
  { destruct Hvc as [->| ->]; [done|]. apply andb_false_r. }
  destruct (JS.includes s (str "*")) eqn:E; [|done].
  by apply includes_char in E.
Qed.

Lemma resolveWSL_not_windows (this : CppProperties) (s : jsstring) :
  resolveWSL this false s = s.
Proof. done. Qed.

Lemma resolveWSL_no_slash (this : CppProperties) (isWindows : bool)
    (s : jsstring) :
  JS.startsWith s (str "/") = false → resolveWSL this isWindows s = s.
Proof. intros Hs. unfold resolveWSL. by rewrite Hs, andb_false_r. Qed.

(** On Windows, [/mnt/] followed by three characters or more: the prefix
    goes, and a colon comes after the first character that followed it. *)
Lemma resolveWSL_mnt (this : CppProperties) (d : ascii) (rest : jsstring) :
  (2 ≤ length rest)%nat →
  resolveWSL this true (str "/mnt/" ++ d :: rest) = d :: ":"%char :: rest.
Proof.
  intros Hlen. unfold resolveWSL.
  rewrite substr_prefix, substr_from, take_app_length, drop_app_length.
  change 1 with (Z.of_nat 1). rewrite substr_prefix, substr_from.
  rewrite bool_decide_eq_true_2 by done.
  replace (Z.of_nat (length (str "/mnt/" ++ d :: rest))
           >? Z.of_nat (length (str "/mnt/c/"))) with true; [done|].
  symmetry. apply Z.gtb_lt. rewrite length_app. simpl. lia.
Qed.

(** On Windows, any other text that starts with a slash: a root-filesystem
    prefix that is set and not empty takes the place of the slash. *)
Lemma resolveWSL_rootfs (this : CppProperties) (s fs : jsstring) :
  (length (str "/" ++ s) ≤ 7)%nat ∨ JS.startsWith (str "/" ++ s) (str "/mnt/") = false →
  rootfs this = Some fs → fs ≠ [] →
  resolveWSL this true (str "/" ++ s) = fs ++ s.
Proof.
  intros Hnomnt Hfs Hne. unfold resolveWSL. rewrite Hfs.
  change (true && JS.startsWith (str "/" ++ s) (str "/")) with true.
  cbv iota. rewrite substr_prefix.
  change 1 with (Z.of_nat 1). rewrite substr_from.
  assert ((Z.of_nat (length (str "/" ++ s)) >? Z.of_nat (length (str "/mnt/c/")))
          && bool_decide (take (length (str "/mnt/")) (str "/" ++ s) = str "/mnt/")
          = false) as ->.
  { destruct Hnomnt as [Hlen|Hpre].
    - apply andb_false_intro1. apply not_true_iff_false.
      rewrite Z.gtb_lt. change (length (str "/mnt/c/")) with 7%nat. lia.
    - apply andb_false_intro2. apply bool_decide_eq_false_2. intros Htake.
      apply not_true_iff_false in Hpre. apply Hpre, startsWith_true.
      exists (drop (length (str "/mnt/")) (str "/" ++ s)).
      by rewrite <- Htake at 1; rewrite take_drop. }
  destruct fs as [|c fs]; [done|]. by rewrite substr_from.
Qed.

Lemma resolveWSL_no_rootfs (this : CppProperties) (s : jsstring) :
  (length s ≤ 7)%nat ∨ JS.startsWith s (str "/mnt/") = false →
  rootfs this = None ∨ rootfs this = Some [] →
  resolveWSL this true s = s.
Proof.
  intros Hnomnt Hfs. unfold resolveWSL.
  destruct (true && JS.startsWith s (str "/")); [|done].
  rewrite substr_prefix.
  assert ((Z.of_nat (length s) >? Z.of_nat (length (str "/mnt/c/")))
          && bool_decide (take (length (str "/mnt/")) s = str "/mnt/")
          = false) as ->.
  { destruct Hnomnt as [Hlen|Hpre].
    - apply andb_false_intro1. apply not_true_iff_false.
      rewrite Z.gtb_lt. change (length (str "/mnt/c/")) with 7%nat. lia.
    - apply andb_false_intro2. apply bool_decide_eq_false_2. intros Htake.
      apply not_true_iff_false in Hpre. apply Hpre, startsWith_true.
      exists (drop (length (str "/mnt/")) s).
      by rewrite <- Htake at 1; rewrite take_drop. }
  by destruct Hfs as [-> | ->].
Qed.

(** With a document, [resolvePath] never throws. *)
Lemma resolvePath_total (this : CppProperties) (path : option jsstring)
    (isWindows : bool) :
  configurationJson this ≠ None → is_Some (resolvePath this path isWindows).
Proof.
  intros Hjson. unfold resolvePath, ExtendedEnvironment.
  destruct (configurationJson this); [|done]. by destruct (_ || _).
Qed.

(** The guarded [replace] of source lines 884-892 replaces the first
    occurrence, for a replacement text without dollar sign. *)
Lemma replace_firstReplaced (s pat repl : jsstring) :
  "$"%char ∉ repl →
  firstReplaced pat repl s
    (if JS.includes s pat then JS.replace s pat repl else s).
Proof.
  intros Hplain. unfold JS.includes, JS.replace.
  destruct (JS.firstIndex s pat) as [i|] eqn:Hi.
  - right. exists (take i s), (drop (i + length pat) s).
    split; [by apply firstIndex_Some|]. split.
    + intros a' b' Hs.
      rewrite length_take.
      destruct (decide (i `min` length s ≤ length a')%nat) as [|Hlt]; [done|].
      pose proof (firstIndex_first s pat i (length a') Hi ltac:(lia)) as Hno.
      rewrite Hs, drop_app_length, startsWith_app in Hno. done.
    + by rewrite getSubstitution_plain.
  - left. split; [|done]. intros a b. by apply firstIndex_None.
Qed.

Lemma filter_no_star (s : jsstring) :
  "*"%char ∉ s → filter (λ a, a ≠ "*"%char) s = s.
Proof.
  induction s as [|a s IH]; [done|].
  intros [Ha Hs]%not_elem_of_cons. rewrite filter_cons_True by done.
  by rewrite IH.
Qed.

(** What [replaceWorkspaceTokens] makes of any text, when the workspace
    root and the vcpkg root hold no dollar sign. *)
Lemma replaceWorkspaceTokens_result (this : CppProperties) (s : jsstring) :
  "$"%char ∉ rootUri this → "$"%char ∉ getVcpkgRoot →
  ∃ s1 s2 s3,
    firstReplaced (str "${workspaceFolder}") (rootUri this) s s1
    ∧ firstReplaced (str "${workspaceRoot}") (rootUri this) s1 s2
    ∧ (if decide (getVcpkgRoot = []) then s3 = s2
       else firstReplaced (str "${vcpkgRoot}") getVcpkgRoot s2 s3)
    ∧ replaceWorkspaceTokens this s = filter (λ a, a ≠ "*"%char) s3.
Proof.
  intros Hroot Hvcpkg. unfold replaceWorkspaceTokens.
  set (s1 := if JS.includes s (str "${workspaceFolder}") then _ else _).
  set (s2 := if JS.includes s1 (str "${workspaceRoot}") then _ else _).
  set (s3 := if JS.includes s2 (str "${vcpkgRoot}") && _ then _ else _).
  exists s1, s2, s3. split_and!.
  - by apply replace_firstReplaced.
  - by apply replace_firstReplaced.
  - subst s3. destruct (decide (getVcpkgRoot = [])) as [Hnil|Hne].
    + rewrite Hnil. cbn. by rewrite andb_false_r.
    + assert (JS.truthy (Some getVcpkgRoot) = true) as ->
        by (by destruct getVcpkgRoot).
      rewrite andb_true_r. by apply replace_firstReplaced.
  - destruct (JS.includes s3 (str "*")) eqn:E; [done|].
    symmetry. apply filter_no_star. intros Hin%includes_char.
    change ["*"%char] with (str "*") in Hin. congruence.
Qed.

(** C6, amended. [resolvePath] returns the empty string for an absent or
    empty path and for [${default}]. For any other path it resolves the
    variables, replaces the first [${workspaceFolder}] and the first
    [${workspaceRoot}] by the workspace root and, when a vcpkg root is
    known, the first [${vcpkgRoot}] by it, and removes every star. On a
    host that is not Windows, and for a text that does not start with a
    slash, that is the result. On Windows a text that starts with [/mnt/]
    and is longer than seven characters loses [/mnt/] and gets a colon
    after its next character, which is kept as written ([/mnt/c/foo]
    gives [c:/foo]); any other text that starts with a slash gets the
    root-filesystem prefix, when one is set, in place of that slash. With
    the workspace at [/proj], [${workspaceFolder}/inc] gives [/proj/inc],
    [${workspaceFolder}/**] gives [/proj/], and
    [${workspaceRoot}/a/${workspaceFolder}/*.h] gives
    [/proj/a//proj/.h]. *)
Theorem resolvePath_spec (this : CppProperties) (env : Environment)
    (Henv : ExtendedEnvironment this = Some env)
    (Hplain : ∀ p, p ∈ [str "${workspaceFolder}/inc"; str "/mnt/c/foo";
                        str "${workspaceFolder}/**";
                        str "${workspaceRoot}/a/${workspaceFolder}/*.h"] →
                   resolveVariables p env = p) :
  (∀ path isWindows,
      path ∈ [None; Some (str ""); Some (str "${default}")] →
      resolvePath this path isWindows = Some (str ""))
  ∧ (∀ path isWindows,
      path ≠ [] → path ≠ str "${default}" →
      resolvePath this (Some path) isWindows
      = Some (resolveWSL this isWindows
                (replaceWorkspaceTokens this (resolveVariables path env))))
  ∧ (∀ s, "*"%char ∉ replaceWorkspaceTokens this s)
  ∧ (∀ s,
      "$"%char ∉ rootUri this → "$"%char ∉ getVcpkgRoot →
      ∃ s1 s2 s3,
        firstReplaced (str "${workspaceFolder}") (rootUri this) s s1
        ∧ firstReplaced (str "${workspaceRoot}") (rootUri this) s1 s2
        ∧ (if decide (getVcpkgRoot = []) then s3 = s2
           else firstReplaced (str "${vcpkgRoot}") getVcpkgRoot s2 s3)
        ∧ replaceWorkspaceTokens this s = filter (λ a, a ≠ "*"%char) s3)
  ∧ (∀ s,
      JS.includes s (str "${workspaceFolder}") = false →
      JS.includes s (str "${workspaceRoot}") = false →
      JS.includes s (str "${vcpkgRoot}") = false ∨ getVcpkgRoot = [] →
      "*"%char ∉ s →
      replaceWorkspaceTokens this s = s)
  ∧ (∀ token a b,
      let s := a ++ tokenValue this token ++ b in
      token ∈ workspaceTokens →
      JS.firstIndex (a ++ token ++ b) token = Some (length a) →
      (token = str "${vcpkgRoot}" → getVcpkgRoot ≠ []) →
      "$"%char ∉ tokenValue this token →
      (∀ other, other ∈ workspaceTokens → other ≠ token →
         JS.includes (a ++ token ++ b) other = false
         ∧ JS.includes s other = false) →
      "*"%char ∉ s →
      replaceWorkspaceTokens this (a ++ token ++ b) = s)
  ∧ (∀ s, resolveWSL this false s = s)
  ∧ (∀ s isWindows,
      JS.startsWith s (str "/") = false → resolveWSL this isWindows s = s)
  ∧ (∀ d rest,
      (2 ≤ length rest)%nat →
      resolveWSL this true (str "/mnt/" ++ d :: rest) = d :: ":"%char :: rest)
  ∧ (∀ s fs,
      (length (str "/" ++ s) ≤ 7)%nat
      ∨ JS.startsWith (str "/" ++ s) (str "/mnt/") = false →
      rootfs this = Some fs → fs ≠ [] →
      resolveWSL this true (str "/" ++ s) = fs ++ s)
  ∧ (∀ s,
      (length s ≤ 7)%nat ∨ JS.startsWith s (str "/mnt/") = false →
      rootfs this = None ∨ rootfs this = Some [] →
      resolveWSL this true s = s)
  ∧ (rootUri this = str "/proj" →
     resolvePath this (Some (str "${workspaceFolder}/inc")) false
     = Some (str "/proj/inc"))
  ∧ resolvePath this (Some (str "/mnt/c/foo")) true = Some (str "c:/foo")
  ∧ (rootUri this = str "/proj" →
     resolvePath this (Some (str "${workspaceFolder}/**")) false
     = Some (str "/proj/"))
  ∧ (rootUri this = str "/proj" →
     resolvePath this (Some (str "${workspaceRoot}/a/${workspaceFolder}/*.h"))
                 false
     = Some (str "/proj/a//proj/.h")).
Proof.
  split_and!.
  - intros path isWindows Hin.
    repeat (apply elem_of_cons in Hin as [->|Hin]);
      [done..|by apply not_elem_of_nil in Hin].
  - intros path isWindows. by apply resolvePath_resolves.
  - apply replaceWorkspaceTokens_no_star.
  - apply replaceWorkspaceTokens_result.
  - apply replaceWorkspaceTokens_id.
  - intros token a b s Htok Hfirst Hvcpkg Hplainv Hothers Hstar.
    rewrite (replaceWorkspaceTokens_single this _ token a b);
      rewrite ?getSubstitution_plain by done; done.
  - apply resolveWSL_not_windows.
  - intros s isWindows. apply resolveWSL_no_slash.
  - apply resolveWSL_mnt.
  - apply resolveWSL_rootfs.
  - apply resolveWSL_no_rootfs.
  - intros Hroot. rewrite (resolvePath_resolves _ env) by done.
    rewrite Hplain by (by left). rewrite resolveWSL_not_windows.
    unfold replaceWorkspaceTokens. rewrite Hroot. by vm_compute.
  - rewrite (resolvePath_resolves _ env) by done.
    rewrite Hplain by (right; by left).
    rewrite replaceWorkspaceTokens_id;
      [|done|done|by left|apply (bool_decide_unpack _); by vm_compute].
    apply (f_equal Some). exact (resolveWSL_mnt this "c"%char (str "/foo") ltac:(simpl; lia)).
  - intros Hroot. rewrite (resolvePath_resolves _ env) by done.
    rewrite Hplain by (do 2 right; by left). rewrite resolveWSL_not_windows.
    unfold replaceWorkspaceTokens. rewrite Hroot. by vm_compute.
  - intros Hroot. rewrite (resolvePath_resolves _ env) by done.
    rewrite Hplain by (do 3 right; by left). rewrite resolveWSL_not_windows.
    unfold replaceWorkspaceTokens. rewrite Hroot.
    destruct getVcpkgRoot; by vm_compute.
Qed.

End PathResolutionClaims.

(** The hypotheses of [resolvePath_spec] hold on the Windows host, for a
    workspace at [/proj]. *)
Lemma resolvePath_spec_witness :
  @resolvePath windowsHost (demoState (str "/proj") None)
     (Some (str "${workspaceFolder}/inc")) false = Some (str "/proj/inc")
  ∧ @resolvePath windowsHost (demoState (str "/proj") None)
       (Some (str "/mnt/c/foo")) true = Some (str "c:/foo")
  ∧ @resolvePath windowsHost (demoState (str "/proj") None)
       (Some (str "${workspaceFolder}/**")) false = Some (str "/proj/")
  ∧ @resolvePath windowsHost (demoState (str "/proj") None)
       (Some (str "${workspaceRoot}/a/${workspaceFolder}/*.h")) false
    = Some (str "/proj/a//proj/.h").
Proof.
  pose proof (@resolvePath_spec windowsHost (demoState (str "/proj") None)
    (<[str "workspaceFolderBasename" := EnvString (str "proj")]> ∅)
    eq_refl (λ p _, eq_refl)) as Hspec.
  split_and!; [by apply Hspec | apply Hspec | by apply Hspec | by apply Hspec].
Defined.

(** C6 as stated fails: the drive letter of [/mnt/c/foo] is not put in
    upper case, [/mnt/c/] alone is not rewritten, and the root-filesystem
    prefix is not put before the path but in place of its first slash. *)
Lemma resolvePath_counterexample :
  @resolvePath windowsHost (demoState (str "C:\proj") None)
     (Some (str "/mnt/c/foo")) true ≠ Some (str "C:/foo")
  ∧ @resolvePath windowsHost (demoState (str "C:\proj") None)
       (Some (str "/mnt/c/")) true ≠ Some (str "c:/")
  ∧ @resolvePath windowsHost (demoState (str "C:\proj") (Some (str "R:\rootfs")))
       (Some (str "/usr/include")) true
     ≠ Some (str "R:\rootfs" ++ str "/usr/include").
Proof. split_and!; by vm_compute. Qed.

(** * Schema migration: the steps *)
Section MigrationClaims.
Context `{Host}.

Lemma updateToVersion2_idempotent (json : ConfigurationJson) :
  updateToVersion2 (updateToVersion2 json) = updateToVersion2 json.
Proof. done. Qed.

Lemma list_fmap_idempotent {A} (f : A → A) (l : list A) :
  (∀ x, f (f x) = f x) → f <$> (f <$> l) = f <$> l.
Proof.
  intros Hf. rewrite <- list_fmap_compose. apply list_fmap_ext.
  intros ? x _. apply Hf.
Qed.

Lemma updateConfigurationToVersion3_idempotent (config : Configuration) :
  updateConfigurationToVersion3 (updateConfigurationToVersion3 config)
  = updateConfigurationToVersion3 config.
Proof.
  unfold updateConfigurationToVersion3.
  destruct (bool_decide (name config = str "Mac")
            || bool_decide (platform = darwin)
               && bool_decide (name config ≠ str "Win32")
               && bool_decide (name config ≠ str "Linux")) eqn:Hmac;
    [|by rewrite Hmac].
  destruct (decide (macFrameworkPath config = None)) as [Hnone|Hsome].
  - cbn [name set_macFrameworkPath]. rewrite Hmac. done.
  - rewrite Hmac. by rewrite decide_False.
Qed.

Lemma updateToVersion3_idempotent (json : ConfigurationJson) :
  updateToVersion3 (updateToVersion3 json) = updateToVersion3 json.
Proof.
  unfold updateToVersion3, set_configurations, set_version. simpl.
  f_equal. apply list_fmap_idempotent.
  apply updateConfigurationToVersion3_idempotent.
Qed.

(** The projections of a configuration, reduced. *)
Ltac cbn_fields :=
  cbn [name compilerPath knownCompilers cStandard cppStandard includePath
       macFrameworkPath windowsSdkVersion defines intelliSenseMode
       compileCommands forcedInclude configurationProvider browse].

(** The four fields the step to version 4 may fill, each on its own. *)
Lemma updateConfigurationToVersion4_fields (this : CppProperties)
    (config : Configuration) :
  updateConfigurationToVersion4 this config
  = mkConfiguration (name config)
      (if bool_decide (compilerPath config = Undefined)
          && JS.truthy (defaultCompilerPath this)
          && negb (JS.truthy (compileCommands config))
          && negb (JS.truthy (defaultCompilerPath_setting settings))
       then ofNullable (defaultCompilerPath this) else compilerPath config)
      (knownCompilers config)
      (if negb (JS.truthy (cStandard config))
          && JS.truthy (defaultCStandard this)
          && negb (JS.truthy (defaultCStandard_setting settings))
       then defaultCStandard this else cStandard config)
      (if negb (JS.truthy (cppStandard config))
          && JS.truthy (defaultCppStandard this)
          && negb (JS.truthy (defaultCppStandard_setting settings))
       then defaultCppStandard this else cppStandard config)
      (includePath config) (macFrameworkPath config)
      (windowsSdkVersion config) (defines config)
      (if bool_decide (intelliSenseMode config = Undefined)
          && negb (JS.truthy (defaultIntelliSenseMode settings))
       then Value (getIntelliSenseModeForPlatform (name config))
       else intelliSenseMode config)
      (compileCommands config) (forcedInclude config)
      (configurationProvider config) (browse config).
Proof.
  unfold updateConfigurationToVersion4.
  destruct config as [n cp kc cs cpps ip mfp sdk defs ism cc fi prov br].
  cbn_fields.
  destruct (bool_decide (ism = Undefined) && _);
    unfold set_intelliSenseMode; cbn_fields;
    destruct (bool_decide (cp = Undefined) && _ && _ && _);
    unfold set_compilerPath; cbn_fields;
    destruct (negb (JS.truthy cs) && _ && _);
    unfold set_cStandard; cbn_fields;
    destruct (negb (JS.truthy cpps) && _ && _); reflexivity.
Qed.

Lemma updateConfigurationToVersion4_idempotent (this : CppProperties)
    (config : Configuration) :
  updateConfigurationToVersion4 this (updateConfigurationToVersion4 this config)
  = updateConfigurationToVersion4 this config.
Proof.
  rewrite !updateConfigurationToVersion4_fields. cbn. f_equal.
  - destruct (compilerPath config) as [| |cp]; [|done..].
    destruct (defaultCompilerPath this) as [[|? ?]|]; cbn; [done| |done].
    destruct (JS.truthy (compileCommands config)),
             (JS.truthy (defaultCompilerPath_setting settings)); done.
  - destruct (defaultCStandard this) as [[|? ?]|]; cbn;
      rewrite ?andb_false_r; cbn; [done| |done].
    destruct (JS.truthy (cStandard config)) eqn:Et,
             (JS.truthy (defaultCStandard_setting settings));
      cbn; rewrite ?Et; done.
  - destruct (defaultCppStandard this) as [[|? ?]|]; cbn;
      rewrite ?andb_false_r; cbn; [done| |done].
    destruct (JS.truthy (cppStandard config)) eqn:Et,
             (JS.truthy (defaultCppStandard_setting settings));
      cbn; rewrite ?Et; done.
  - destruct (intelliSenseMode config) as [| |m]; [|done..]. cbn.
    by destruct (JS.truthy (defaultIntelliSenseMode settings)).
Qed.

Lemma updateToVersion4_idempotent (this : CppProperties)
    (json : ConfigurationJson) :
  updateToVersion4 this (updateToVersion4 this json) = updateToVersion4 this json.
Proof.
  unfold updateToVersion4, set_configurations, set_version. simpl.
  f_equal. apply list_fmap_idempotent.
  apply updateConfigurationToVersion4_idempotent.
Qed.

(** C8. A document without version goes through the three steps in order
    and comes out at version 4; each step, applied to its own result,
    changes nothing; a document at version 4 is left as it is, with no
    message and the flag [dirty] as it was. *)
Theorem migrateVersion_steps (this : CppProperties) :
  (∀ json dirty,
      version json = None →
      migrateVersion this json dirty
      = (updateToVersion4 this (updateToVersion3 (updateToVersion2 json)),
         true, [])
      ∧ version (updateToVersion2 json) = Some 2
      ∧ version (updateToVersion3 (updateToVersion2 json)) = Some 3
      ∧ version (updateToVersion4 this (updateToVersion3 (updateToVersion2 json)))
        = Some 4)
  ∧ (∀ json, updateToVersion2 (updateToVersion2 json) = updateToVersion2 json)
  ∧ (∀ json, updateToVersion3 (updateToVersion3 json) = updateToVersion3 json)
  ∧ (∀ json,
      updateToVersion4 this (updateToVersion4 this json)
      = updateToVersion4 this json)
  ∧ (∀ json dirty,
      version json = Some 4 → migrateVersion this json dirty = (json, dirty, [])).
Proof.
  split_and!.
  - intros json dirty Hv. split_and!; [|done..].
    unfold migrateVersion. by rewrite Hv.
  - apply updateToVersion2_idempotent.
  - apply updateToVersion3_idempotent.
  - apply updateToVersion4_idempotent.
  - intros json dirty Hv. unfold migrateVersion. by rewrite Hv.
Qed.

(** Whatever the version read, the document is at version 4 after the
    version block. *)
Lemma migrateVersion_version (this : CppProperties) (json : ConfigurationJson)
    (dirty : bool) :
  version (migrateVersion this json dirty).1.1 = Some configVersion.
Proof.
  unfold migrateVersion.
  destruct (decide (version json ≠ Some configVersion)) as [Hne|Heq]; simpl.
  - repeat (match goal with
            | |- context [decide ?P] => destruct (decide P)
            end; simpl); done.
  - by apply dec_stable in Heq.
Qed.

(** The version block keeps the number of configurations and their
    names. *)
Lemma migrateVersion_names (this : CppProperties) (json : ConfigurationJson)
    (dirty : bool) :
  name <$> configurations (migrateVersion this json dirty).1.1
  = name <$> configurations json.
Proof.
  assert (∀ json, name <$> configurations (updateToVersion3 json)
                  = name <$> configurations json) as H3.
  { intros j. unfold updateToVersion3. simpl. rewrite <- list_fmap_compose.
    apply list_fmap_ext. intros ? c _. simpl.
    unfold updateConfigurationToVersion3. by repeat case_match. }
  assert (∀ json, name <$> configurations (updateToVersion4 this json)
                  = name <$> configurations json) as H4.
  { intros j. unfold updateToVersion4.
    cbn [set_configurations set_version configurations].
    rewrite <- list_fmap_compose.
    apply list_fmap_ext. intros ? c _. unfold compose.
    by rewrite updateConfigurationToVersion4_fields. }
  unfold migrateVersion.
  repeat (match goal with
          | |- context [decide ?P] => destruct (decide P)
          end; cbn [fst snd]); rewrite ?H4, ?H3; done.
Qed.

End MigrationClaims.

(** * Loading the properties file *)
Section LoadClaims.
Context `{Host}.

(** The squiggle pass touches the diagnostics and the kept counters
    only. *)
Lemma handleSquiggles_frame (this : CppProperties) (documentText : jsstring)
    (result : CppProperties * list TelemetryEvent) :
  handleSquiggles this documentText = Some result →
  let this' := result.1 in
  rootUri this' = rootUri this
  ∧ propertiesFile this' = propertiesFile this
  ∧ configurationJson this' = configurationJson this
  ∧ currentConfigurationIndex this' = currentConfigurationIndex this
  ∧ defaultCompilerPath this' = defaultCompilerPath this
  ∧ defaultCStandard this' = defaultCStandard this
  ∧ defaultCppStandard this' = defaultCppStandard this
  ∧ rootfs this' = rootfs this
  ∧ configurationIncomplete this' = configurationIncomplete this.
Proof.
  unfold handleSquiggles, squiggleCallback, squiggleWindow.
  destruct (propertiesFile this) eqn:Hfile; [|by intros [= <-]].
  destruct (configurationJson this) as [json|] eqn:Hjson; [|done].
  cbn [mbind option_bind].
  repeat case_match; intros [= <-]; simpl; rewrite ?Hjson, ?Hfile; done.
Qed.

(** The pass throws only on an object that has a properties file and no
    document. *)
Lemma handleSquiggles_returns (this : CppProperties) (documentText : jsstring) :
  propertiesFile this = None ∨ configurationJson this ≠ None →
  is_Some (handleSquiggles this documentText).
Proof.
  unfold handleSquiggles. intros Hdoc.
  destruct (propertiesFile this); [|by eexists].
  destruct Hdoc as [|Hdoc]; [done|].
  destruct (configurationJson this); [|done].
  cbn [mbind option_bind]. repeat case_match; by eexists.
Qed.

(** A text that is there but refused: the load answers [false] with one
    message and changes nothing. *)
Lemma parsePropertiesFile_refused (this : CppProperties)
    (text : jsstring) (canWrite : bool) (documentText : jsstring) :
  text ≠ [] → refused (JSON_parse text) = true →
  ∃ message,
    parsePropertiesFile this (Some text) canWrite documentText
    = mkParseOutcome this (Returns false) [failedToParse this message] [] [].
Proof.
  intros Hne Hbad. unfold parsePropertiesFile.
  rewrite decide_False by done.
  destruct (JSON_parse text) as [m| |[[|c cs]|] e v sq]; try done;
    simpl; eauto.
Qed.

(** C4. When the text read is empty, is no JSON, or parses to a value
    without a non-empty [configurations], the load does not report
    success and the object is exactly as before: the document, the
    selection and every other field; nothing is written. *)
Theorem parsePropertiesFile_failure_keeps_document (this : CppProperties)
    (text : jsstring) (canWrite : bool) (documentText : jsstring) :
  text = [] ∨ refused (JSON_parse text) = true →
  let outcome := parsePropertiesFile this (Some text) canWrite documentText in
  returned outcome ≠ Returns true
  ∧ stateAfter outcome = this
  ∧ configurationJson (stateAfter outcome) = configurationJson this
  ∧ written outcome = []
  ∧ telemetry outcome = []
  ∧ (text = [] → returned outcome = ReturnsUndefined ∧ messages outcome = [])
  ∧ (text ≠ [] → returned outcome = Returns false
                 ∧ ∃ message, messages outcome = [failedToParse this message]).
Proof.
  intros Hbad.
  destruct (decide (text = [])) as [->|Hne];
    [unfold parsePropertiesFile; by split_and!|].
  destruct Hbad as [?|Hbad]; [done|].
  destruct (parsePropertiesFile_refused this text canWrite documentText Hne Hbad)
    as [message ->].
  simpl. split_and!; try done. intros _. eauto.
Qed.

Lemma platformIndexLoop_spec (configs : list Configuration) (n i : nat) :
  (i + n)%nat = length configs →
  platformIndexLoop configs (length configs) n i
  = Some (match indexOfName platformConfigName (drop i configs) i with
          | Some k => Z.of_nat k
          | None => Z.of_nat (length configs) - 1
          end).
Proof.
  revert i. induction n as [|n IH]; intros i Hlen; simpl.
  - by rewrite drop_ge by lia.
  - destruct (configs !! i) as [c|] eqn:Hc;
      [|apply lookup_ge_None in Hc; lia].
    rewrite (drop_S _ _ _ Hc). simpl.
    destruct (decide (name c = platformConfigName)); [done|].
    apply IH. lia.
Qed.

Lemma getConfigIndexForPlatform_spec (this : CppProperties)
    (json : ConfigurationJson) :
  configurationJson this = Some json →
  getConfigIndexForPlatform this json
  = Some (platformPreferredIndex (configurations json)).
Proof.
  intros Hjson. unfold getConfigIndexForPlatform. rewrite Hjson. simpl.
  by rewrite platformIndexLoop_spec.
Qed.

(** [indexOfName] finds the first configuration of that name. *)
Lemma indexOfName_Some (n : jsstring) (configs : list Configuration) (i k : nat) :
  indexOfName n configs i = Some k →
  (i ≤ k < i + length configs)%nat
  ∧ (∃ c, configs !! (k - i)%nat = Some c ∧ name c = n)
  ∧ ∀ j c, (j < k - i)%nat → configs !! j = Some c → name c ≠ n.
Proof.
  revert i. induction configs as [|c configs IH]; intros i; simpl; [done|].
  destruct (decide (name c = n)) as [Hn|Hn].
  - intros [= <-]. rewrite Nat.sub_diag. split_and!; [lia|lia|eauto|].
    intros j c' Hj. lia.
  - intros Hk. destruct (IH _ Hk) as ((Hi & Hlt) & (c' & Hc' & Hname) & Hfirst).
    split_and!; [lia|lia| |].
    + exists c'. split; [|done].
      replace (k - i)%nat with (S (k - S i)) by lia. done.
    + intros j c'' Hj. destruct j as [|j]; simpl.
      * by intros [= <-].
      * apply Hfirst. lia.
Qed.

Lemma indexOfName_None (n : jsstring) (configs : list Configuration) (i : nat) :
  indexOfName n configs i = None ↔ ∀ c, c ∈ configs → name c ≠ n.
Proof.
  revert i. induction configs as [|c configs IH]; intros i; simpl.
  - split; [|done]. intros _ c Hc. by apply not_elem_of_nil in Hc.
  - destruct (decide (name c = n)) as [Hn|Hn].
    + split; [done|]. intros Hall. destruct (Hall c); [by left|done].
    + rewrite IH. split.
      * intros Hall c' [->|Hc']%elem_of_cons; [done|by apply Hall].
      * intros Hall c' Hc'. apply Hall. by right.
Qed.

Lemma platformPreferredIndex_range (configs : list Configuration) :
  configs ≠ [] →
  0 ≤ platformPreferredIndex configs < Z.of_nat (length configs).
Proof.
  intros Hne. unfold platformPreferredIndex.
  destruct (indexOfName _ _ _) as [k|] eqn:Hk.
  - apply indexOfName_Some in Hk as (? & _). lia.
  - destruct configs; [done|]. simpl. lia.
Qed.

Lemma normalizeProviders_names_acc (configs acc : list Configuration) (d : bool) :
  name <$> (foldl (λ '(done, dirty) config,
              let newId := checkId (configurationProvider config) in
              if decide (newId ≠ configurationProvider config)
              then (done ++ [set_configurationProvider newId config], true)
              else (done ++ [config], dirty))
            (acc, d) configs).1
  = (name <$> acc) ++ (name <$> configs).
Proof.
  revert acc d. induction configs as [|c configs IH]; intros acc d; simpl.
  - by rewrite app_nil_r.
  - destruct (decide _); rewrite IH, fmap_app, <- app_assoc; done.
Qed.

Lemma normalizeProviders_names (configs : list Configuration) :
  name <$> (normalizeProviders configs).1 = name <$> configs.
Proof. apply normalizeProviders_names_acc. Qed.

Lemma parsePropertiesFile_loads (this : CppProperties) (text : jsstring)
    (canWrite : bool) (documentText : jsstring)
    (c : Configuration) (cs : list Configuration)
    (e : option Environment) (v : option Z) (sq : option bool) :
  text ≠ [] → JSON_parse text = JsonObject (Some (c :: cs)) e v sq →
  let outcome := parsePropertiesFile this (Some text) canWrite documentText in
  currentConfigurationIndex (stateAfter outcome) = selectedAfter this (c :: cs)
  ∧ (∃ json,
      configurationJson (stateAfter outcome) = Some json
      ∧ version json = Some configVersion
      ∧ name <$> configurations json = name <$> (c :: cs))
  ∧ (returned outcome = Returns true ∨ returned outcome = Returns false).
Proof.
  intros Hne Hparse. unfold parsePropertiesFile.
  rewrite decide_False by done. rewrite Hparse.
  set (new := c :: cs). cbv zeta.
  set (this1 := set_configurationJson _ (set_currentConfigurationIndex _ this)).
  assert (currentConfigurationIndex this1 = keepSelectionByName this new) as Hkept
    by done.
  assert (∃ index, (if (currentConfigurationIndex this1 <? 0)
                       || (Z.of_nat (length new) <=? currentConfigurationIndex this1)
                    then getConfigIndexForPlatform this1
                           (mkConfigurationJson new e v sq)
                    else Some (currentConfigurationIndex this1)) = Some index
                   ∧ index = selectedAfter this new) as (index & -> & Hindex).
  { unfold selectedAfter. rewrite <- Hkept.
    destruct (_ || _); [|eauto].
    rewrite (getConfigIndexForPlatform_spec _ (mkConfigurationJson new e v sq))
      by done.
    eauto. }
  pose proof (normalizeProviders_names new) as Hnames.
  destruct (normalizeProviders new) as [configs dirty0].
  set (json0 := set_env _ _).
  set (this2 := set_configurationIncomplete _ _).
  pose proof (migrateVersion_version this2 json0 dirty0) as Hversion.
  pose proof (migrateVersion_names this2 json0 dirty0) as Hmnames.
  destruct (migrateVersion this2 json0 dirty0) as [[json dirty] shown].
  simpl in Hversion, Hmnames, Hnames.
  destruct (dirty && negb canWrite).
  - cbn. split; [exact Hindex|]. split; [|by right].
    exists json. split_and!; [done..|]. by rewrite Hmnames, Hnames.
  - destruct (handleSquiggles_returns (set_configurationJson (Some json) this2)
                documentText ltac:(by right)) as [[this' events] Hpass].
    pose proof (handleSquiggles_frame _ _ _ Hpass) as Hframe.
    rewrite Hpass. cbn in Hframe |- *.
    destruct Hframe as (_ & _ & Hjson & Hidx & _).
    split; [by rewrite Hidx|]. split; [|by left].
    exists json. split_and!; [done..|]. by rewrite Hmnames, Hnames.
Qed.

(** C3. A load that succeeds leaves a document whose version is 4,
    whatever version the text had: none, 1, 2, 3, 4 or any other
    number. The same holds when the load fails only because the
    corrected document could not be written back. *)
Theorem parsePropertiesFile_version (this : CppProperties)
    (readResults : option jsstring) (canWrite : bool) (documentText : jsstring) :
  let outcome := parsePropertiesFile this readResults canWrite documentText in
  (returned outcome = Returns true →
   ∃ json, configurationJson (stateAfter outcome) = Some json
           ∧ version json = Some 4)
  ∧ (∀ text c cs e v sq,
       readResults = Some text → text ≠ [] →
       JSON_parse text = JsonObject (Some (c :: cs)) e v sq →
       ∃ json, configurationJson (stateAfter outcome) = Some json
               ∧ version json = Some 4).
Proof.
  intros outcome.
  assert (∀ text c cs e v sq,
       readResults = Some text → text ≠ [] →
       JSON_parse text = JsonObject (Some (c :: cs)) e v sq →
       ∃ json, configurationJson (stateAfter outcome) = Some json
               ∧ version json = Some 4) as Hloaded.
  { intros text c cs e v sq -> Hne Hparse.
    destruct (parsePropertiesFile_loads this text canWrite documentText
                c cs e v sq Hne Hparse) as (_ & (json & Hjson & Hv & _) & _).
    eauto. }
  split; [|done]. intros Hsuccess.
  destruct readResults as [text|]; [|done].
  destruct (decide (text = [])) as [->|Hne]; [done|].
  destruct (refused (JSON_parse text)) eqn:Hrefused.
  - destruct (parsePropertiesFile_refused this text canWrite documentText
                Hne Hrefused) as [message Hout].
    subst outcome. by rewrite Hout in Hsuccess.
  - destruct (JSON_parse text) as [m| |[[|c cs]|] e v sq] eqn:Hparse;
      try done.
    by eapply Hloaded.
Qed.

(** C5, amended. After a load that replaces the document:
    - when a previous selection can be looked up by name and the new list
      has a configuration of that name, the first such configuration is
      selected;
    - otherwise the index stays as it was when it lies within the new
      list, and only else becomes the index the platform prefers: the
      first configuration named after the host platform, or the last
      one;
    - in every case the index lies within the new list. *)
Theorem parsePropertiesFile_selection (this : CppProperties) (text : jsstring)
    (canWrite : bool) (documentText : jsstring)
    (c : Configuration) (cs : list Configuration)
    (e : option Environment) (v : option Z) (sq : option bool) :
  text ≠ [] → JSON_parse text = JsonObject (Some (c :: cs)) e v sq →
  let new := c :: cs in
  let before := currentConfigurationIndex this in
  let after :=
    currentConfigurationIndex
      (stateAfter (parsePropertiesFile this (Some text) canWrite documentText)) in
  (∀ current i,
      selectedBefore this = Some current →
      indexOfName (name current) new 0 = Some i →
      after = Z.of_nat i
      ∧ (∃ c', new !! i = Some c' ∧ name c' = name current)
      ∧ ∀ j c', (j < i)%nat → new !! j = Some c' → name c' ≠ name current)
  ∧ ((selectedBefore this = None
      ∨ ∃ current, selectedBefore this = Some current
                   ∧ ∀ c', c' ∈ new → name c' ≠ name current) →
     after = if (0 <=? before) && (before <? Z.of_nat (length new))
             then before else platformPreferredIndex new)
  ∧ 0 ≤ after < Z.of_nat (length new)
  ∧ (∀ i, indexOfName platformConfigName new 0 = Some i →
          platformPreferredIndex new = Z.of_nat i)
  ∧ ((∀ c', c' ∈ new → name c' ≠ platformConfigName) →
     platformPreferredIndex new = Z.of_nat (length new) - 1).
Proof.
  intros Hne Hparse new before after.
  destruct (parsePropertiesFile_loads this text canWrite documentText
              c cs e v sq Hne Hparse) as (Hafter & _).
  fold new after in Hafter.
  assert (∀ current,
            selectedBefore this = Some current →
            keepSelectionByName this new
            = match indexOfName (name current) new 0 with
              | Some i => Z.of_nat i
              | None => before
              end) as Hkeep_some.
  { intros current. unfold selectedBefore, keepSelectionByName.
    destruct (configurationJson this) as [json|]; [simpl|done].
    fold before. destruct (_ && _ && _); [|done]. by intros ->. }
  assert (selectedBefore this = None → keepSelectionByName this new = before)
    as Hkeep_none.
  { unfold selectedBefore, keepSelectionByName.
    destruct (configurationJson this) as [json|]; [simpl|done].
    fold before. destruct (_ && _ && _); [|done]. by intros ->. }
  split; [|split; [|split; [|split]]].
  - intros current i Hsel Hi.
    pose proof (indexOfName_Some _ _ _ _ Hi) as (Hrange & Hfound & Hfirst).
    rewrite Nat.sub_0_r in Hfound, Hfirst.
    split_and!; [|done|done].
    rewrite Hafter. unfold selectedAfter. rewrite (Hkeep_some _ Hsel), Hi.
    replace (_ || _) with false; [done|].
    symmetry. apply orb_false_intro; [apply Z.ltb_ge|apply Z.leb_gt]; lia.
  - intros Hnone. rewrite Hafter. unfold selectedAfter.
    assert (keepSelectionByName this new = before) as ->.
    { destruct Hnone as [Hnone|(current & Hsel & Hall)]; [by apply Hkeep_none|].
      rewrite (Hkeep_some _ Hsel).
      by rewrite (proj2 (indexOfName_None _ _ 0) Hall). }
    destruct (before <? 0) eqn:E1, (Z.of_nat (length new) <=? before) eqn:E2,
             (0 <=? before) eqn:E3, (before <? Z.of_nat (length new)) eqn:E4;
      simpl; try done; lia.
  - rewrite Hafter. unfold selectedAfter.
    destruct (_ || _) eqn:E; [by apply platformPreferredIndex_range|].
    apply orb_false_elim in E as [?%Z.ltb_ge ?%Z.leb_gt]. lia.
  - intros i Hi. unfold platformPreferredIndex. by rewrite Hi.
  - intros Hall. unfold platformPreferredIndex.
    by rewrite (proj2 (indexOfName_None _ _ 0) Hall).
Qed.

End LoadClaims.

(** ** The load on examples *)

(** A text that is no JSON leaves the three configurations [A], [B], [C]
    and the selection as they were. *)
Lemma parsePropertiesFile_failure_keeps_document_witness :
  stateAfter (@parsePropertiesFile xyzHost abcState (Some (str "{")) true (str "{"))
  = abcState.
Proof.
  exact (proj1 (proj2 (@parsePropertiesFile_failure_keeps_document xyzHost
    abcState (str "{") true (str "{") (or_intror eq_refl)))).
Defined.

(** The file of the first format is loaded and comes out at version 4. *)
Lemma parsePropertiesFile_version_witness :
  ∃ json,
    configurationJson
      (stateAfter (@parsePropertiesFile legacyHost (demoState (str "/proj") None)
                     (Some legacyText) true legacyText)) = Some json
    ∧ version json = Some 4.
Proof.
  apply (@parsePropertiesFile_version legacyHost (demoState (str "/proj") None)
           (Some legacyText) true legacyText).
  vm_compute. reflexivity.
Defined.

(** With [A] selected among [A], [B], [C], the load of [X], [Y], [Z] keeps
    the index 0. *)
Lemma parsePropertiesFile_selection_witness :
  currentConfigurationIndex
    (stateAfter (@parsePropertiesFile xyzHost abcState (Some xyzText) true xyzText))
  = 0.
Proof.
  pose proof (@parsePropertiesFile_selection xyzHost abcState xyzText true xyzText
    (namedConfig (str "X")) [namedConfig (str "Y"); namedConfig (str "Z")]
    None (Some 4) None ltac:(discriminate) eq_refl) as (_ & Hkeeps & _).
  rewrite Hkeeps; [reflexivity|].
  right. exists (namedConfig (str "A")). split; [reflexivity|].
  apply Forall_forall. repeat constructor; by vm_compute.
Defined.

(** C5 as stated fails: no new configuration is named [A], and the
    selection does not fall back to the index the platform prefers, which
    is the last one here, but stays at 0. *)
Lemma parsePropertiesFile_selection_counterexample :
  let new := [namedConfig (str "X"); namedConfig (str "Y"); namedConfig (str "Z")] in
  let outcome := @parsePropertiesFile xyzHost abcState (Some xyzText) true xyzText in
  selectedBefore abcState = Some (namedConfig (str "A"))
  ∧ (∀ c, c ∈ new → name c ≠ str "A")
  ∧ returned outcome = Returns true
  ∧ @platformPreferredIndex xyzHost new = 2
  ∧ currentConfigurationIndex (stateAfter outcome) = 0
  ∧ currentConfigurationIndex (stateAfter outcome)
    ≠ @platformPreferredIndex xyzHost new.
Proof.
  split_and!; try (by vm_compute).
  apply Forall_forall. repeat constructor; by vm_compute.
Qed.

(** The steps of the migration on the file of the first format. *)
Lemma migrateVersion_steps_witness :
  let json := mkConfigurationJson [namedConfig (str "Mac")] None None None in
  let this := demoState (str "/proj") None in
  @migrateVersion legacyHost this json false
  = (@updateToVersion4 legacyHost this
       (@updateToVersion3 legacyHost (updateToVersion2 json)), true, []).
Proof.
  intros json this.
  exact (proj1 (proj1 (@migrateVersion_steps legacyHost this) json false eq_refl)).
Defined.

(** * The squiggle pass run twice *)
Section SquigglePassTwice.
Context `{Host}.

Lemma JSObject_get_set (o o' : JSObject.t) (key : jsstring) (m : SquiggleMetrics) :
  JSObject.set o key m = Some o' → JSObject.get o' key = JSObject.VMetrics m.
Proof.
  unfold JSObject.set, JSObject.get.
  destruct (JSObject.own o !! key) as [m0|] eqn:Hown.
  - intros [= <-]. simpl. by rewrite lookup_insert_eq.
  - destruct (decide (key = str "__proto__")) as [->|Hproto].
    + intros [= <-]. simpl. by rewrite Hown.
    + destruct (JSObject.proto o); [destruct (decide (key = str "size"))|];
        intros [= <-]; simpl; by rewrite lookup_insert_eq.
Qed.

Lemma JSObject_set_undefined (o : JSObject.t) (key : jsstring) (m : SquiggleMetrics) :
  JSObject.get o key = JSObject.VUndefined → is_Some (JSObject.set o key m).
Proof.
  unfold JSObject.set, JSObject.get.
  destruct (JSObject.own o !! key) as [m0|] eqn:Hown; [done|].
  destruct (decide (key = str "__proto__")) as [->|Hproto]; [by eauto|].
  destruct (bool_decide (key ∈ JSObject.objectPrototypeMethods)); [done|].
  destruct (JSObject.proto o); [|by eauto].
  destruct (decide (key = str "size")) as [->|Hsize]; [|by eauto].
  by rewrite bool_decide_eq_true_2 by (by left).
Qed.

Lemma JSObject_set_None (o : JSObject.t) (key : jsstring) (m : SquiggleMetrics) :
  JSObject.set o key m = None → key = str "size".
Proof.
  unfold JSObject.set. repeat case_match; done.
Qed.

Lemma changedSquiggleMetrics_same (m : SquiggleMetrics) :
  changedSquiggleMetrics m (Some m) = [].
Proof.
  unfold changedSquiggleMetrics, metricsFields. simpl.
  by rewrite !bool_decide_eq_false_2 by (by intros []).
Qed.

(** The checks of the window read the workspace root, the root-filesystem
    prefix and the document of the object, nothing else. *)
Lemma windowSquiggles_frame (this this' : CppProperties)
    (currentConfiguration : Configuration) (curTextStartOffset : Z)
    (curText : jsstring) :
  rootUri this' = rootUri this → rootfs this' = rootfs this →
  configurationJson this' = configurationJson this →
  windowSquiggles this' currentConfiguration curTextStartOffset curText
  = windowSquiggles this currentConfiguration curTextStartOffset curText.
Proof.
  destruct this, this'. simpl. intros -> -> ->. reflexivity.
Qed.

End SquigglePassTwice.

Section SquigglePassIdempotent.
Context `{Host}.

(** A pass over a window for which counters are kept already: the
    diagnostics are the ones of the window, and nothing is sent when the
    kept counters are those of the window. *)
Lemma squiggleWindow_kept (this : CppProperties) (c : Configuration)
    (offset : Z) (curText : jsstring) (diagnostics : list Diagnostic)
    (metrics : SquiggleMetrics) :
  JSObject.get (prevSquiggleMetrics this) (name c) ≠ JSObject.VUndefined →
  windowSquiggles this c offset curText = Some (diagnostics, metrics) →
  let result := squiggleWindow this c offset curText in
  diagnosticCollection result.1 = diagnostics
  ∧ rootUri result.1 = rootUri this
  ∧ rootfs result.1 = rootfs this
  ∧ configurationJson result.1 = configurationJson this
  ∧ (JSObject.get (prevSquiggleMetrics this) (name c) = JSObject.VMetrics metrics →
     result.2 = [])
  ∧ (JSObject.get (prevSquiggleMetrics result.1) (name c) = JSObject.VMetrics metrics
     ∨ (name c = str "size"
        ∧ prevSquiggleMetrics result.1 = prevSquiggleMetrics this)).
Proof.
  intros Hkept Hwindow. unfold squiggleWindow.
  assert (match JSObject.get (prevSquiggleMetrics this) (name c) with
          | JSObject.VUndefined =>
            JSObject.set (prevSquiggleMetrics this) (name c) zeroMetrics
          | _ => Some (prevSquiggleMetrics this)
          end = Some (prevSquiggleMetrics this)) as ->
    by (by destruct (JSObject.get _ _)).
  rewrite (windowSquiggles_frame this) by done. rewrite Hwindow.
  destruct (JSObject.get (prevSquiggleMetrics this) (name c)) as [|m|] eqn:Hget;
    [done| |];
    destruct (JSObject.set (prevSquiggleMetrics this) (name c) metrics)
      as [prev|] eqn:Hset; simpl; repeat split;
    first [ done
          | by (intros [= ->]; rewrite changedSquiggleMetrics_same)
          | (left; by eapply JSObject_get_set)
          | (right; split; [by eapply JSObject_set_None|done]) ].
Qed.

Lemma squiggleWindow_kept_none (this : CppProperties) (c : Configuration)
    (offset : Z) (curText : jsstring) :
  JSObject.get (prevSquiggleMetrics this) (name c) ≠ JSObject.VUndefined →
  windowSquiggles this c offset curText = None →
  let result := squiggleWindow this c offset curText in
  diagnosticCollection result.1 = diagnosticCollection this ∧ result.2 = [].
Proof.
  intros Hkept Hwindow. unfold squiggleWindow.
  assert (match JSObject.get (prevSquiggleMetrics this) (name c) with
          | JSObject.VUndefined =>
            JSObject.set (prevSquiggleMetrics this) (name c) zeroMetrics
          | _ => Some (prevSquiggleMetrics this)
          end = Some (prevSquiggleMetrics this)) as ->
    by (by destruct (JSObject.get _ _)).
  rewrite (windowSquiggles_frame this) by done. by rewrite Hwindow.
Qed.

(** What the first pass over a window leaves behind. *)
Lemma squiggleWindow_first (this : CppProperties) (c : Configuration)
    (offset : Z) (curText : jsstring) :
  let result := squiggleWindow this c offset curText in
  rootUri result.1 = rootUri this
  ∧ rootfs result.1 = rootfs this
  ∧ configurationJson result.1 = configurationJson this
  ∧ JSObject.get (prevSquiggleMetrics result.1) (name c) ≠ JSObject.VUndefined
  ∧ match windowSquiggles this c offset curText with
    | Some (diagnostics, metrics) =>
      diagnosticCollection result.1 = diagnostics
      ∧ (name c ≠ str "size" →
         JSObject.get (prevSquiggleMetrics result.1) (name c)
         = JSObject.VMetrics metrics)
    | None => diagnosticCollection result.1 = diagnosticCollection this
    end.
Proof.
  unfold squiggleWindow.
  set (prev0 := prevSquiggleMetrics this).
  assert (∃ prev1,
            match JSObject.get prev0 (name c) with
            | JSObject.VUndefined => JSObject.set prev0 (name c) zeroMetrics
            | _ => Some prev0
            end = Some prev1
            ∧ JSObject.get prev1 (name c) ≠ JSObject.VUndefined)
    as (prev1 & -> & Hkept).
  { destruct (JSObject.get prev0 (name c)) eqn:Hget.
    - destruct (JSObject_set_undefined prev0 (name c) zeroMetrics Hget)
        as [prev1 Hset].
      exists prev1. split; [done|].
      by rewrite (JSObject_get_set _ _ _ _ Hset).
    - exists prev0. by rewrite Hget.
    - exists prev0. by rewrite Hget. }
  rewrite (windowSquiggles_frame this) by done.
  destruct (windowSquiggles this c offset curText) as [[diagnostics metrics]|];
    [|done].
  destruct (JSObject.get prev1 (name c)) eqn:Hget; [done| |];
    destruct (JSObject.set prev1 (name c) metrics) as [prev2|] eqn:Hset;
    simpl; repeat split;
    rewrite ?(JSObject_get_set _ _ _ _ Hset), ?Hget; try done;
    intros Hsize; by apply JSObject_set_None in Hset.
Qed.

(** The window pass run twice on the same window. *)
Lemma squiggleWindow_twice (this : CppProperties) (c : Configuration)
    (offset : Z) (curText : jsstring) :
  let first := squiggleWindow this c offset curText in
  let second := squiggleWindow first.1 c offset curText in
  diagnosticCollection second.1 = diagnosticCollection first.1
  ∧ (name c ≠ str "size" → second.2 = []).
Proof.
  intros first second.
  destruct (squiggleWindow_first this c offset curText)
    as (Hroot & Hfs & Hjson & Hkept & Hfirst).
  fold first in Hroot, Hfs, Hjson, Hkept, Hfirst.
  pose proof (windowSquiggles_frame this first.1 c offset curText Hroot Hfs Hjson)
    as Hframe.
  destruct (windowSquiggles this c offset curText) as [[diagnostics metrics]|].
  - destruct Hfirst as [Hdiag Hsame].
    destruct (squiggleWindow_kept first.1 c offset curText diagnostics metrics
                Hkept Hframe) as (Hd & _ & _ & _ & Hquiet & _).
    fold second in Hd, Hquiet.
    split; [by rewrite Hd, Hdiag|].
    intros Hsize. apply Hquiet. by apply Hsame.
  - destruct (squiggleWindow_kept_none first.1 c offset curText Hkept Hframe)
      as [Hd Hquiet].
    fold second in Hd, Hquiet. by split.
Qed.

(** The pass run twice on the same text: the second run returns as the
    first did, its diagnostics are those of the first, and it sends no
    counters unless the current configuration is named [size]. *)
Lemma handleSquiggles_twice (this : CppProperties) (documentText : jsstring)
    (first : CppProperties * list TelemetryEvent) :
  handleSquiggles this documentText = Some first →
  ∃ second,
    handleSquiggles first.1 documentText = Some second
    ∧ diagnosticCollection second.1 = diagnosticCollection first.1
    ∧ ((∀ c offset curText,
          scanDocument (currentConfigurationIndex this) documentText
          = ScanFound c offset curText → name c ≠ str "size") →
       ∀ changed, ConfigSquigglesMetrics changed ∉ second.2).
Proof.
  intros Hfirst.
  pose proof (handleSquiggles_frame this documentText first Hfirst)
    as (_ & Hfile & Hjson & Hindex & _).
  unfold handleSquiggles in Hfirst |- *. rewrite Hfile, Hjson.
  destruct (propertiesFile this) as [file|];
    [|injection Hfirst as <-; eexists; split; [done|];
      split; [done|intros _ ? ?%not_elem_of_nil; done]].
  destruct (configurationJson this) as [json|]; [|done].
  cbn [mbind option_bind] in Hfirst |- *.
  destruct (bool_decide (enableConfigurationSquiggles json = Some false));
    [injection Hfirst as <-; eexists; split; [done|];
     split; [done|intros _ ? ?%not_elem_of_nil; done]|].
  destruct (bool_decide (defaultEnableConfigurationSquiggles settings = Some false));
    [injection Hfirst as <-; eexists; split; [done|];
     split; [done|intros _ ? ?%not_elem_of_nil; done]|].
  eexists. split; [done|].
  unfold squiggleCallback in *. rewrite Hindex.
  destruct (scanDocument (currentConfigurationIndex this) documentText)
    as [events|c offset curText] eqn:Hscan.
  - injection Hfirst as <-. split; [done|]. intros _ changed Hin. simpl in Hin.
    unfold scanDocument in Hscan.
    repeat case_match; simplify_eq; try (by apply not_elem_of_nil in Hin).
    unfold configurationWindow in *.
    repeat case_match; simplify_eq;
      apply list_elem_of_singleton in Hin; done.
  - injection Hfirst as <-.
    destruct (squiggleWindow_twice this c offset curText) as [Hdiag Hquiet].
    split; [done|]. intros Hsize changed.
    rewrite Hquiet by eauto. apply not_elem_of_nil.
Qed.

End SquigglePassIdempotent.

(** C9 fails for a configuration named [size]. The object behind
    [prevSquiggleMetrics] is a [Map], whose property [size] is an inherited
    accessor without setter: the counters of the pass are never kept under
    that name, and the kept value has no counters. The diagnostics of the
    two runs are the same, but the second run sends all five counters
    again. *)
Lemma handleSquiggles_size_reports_again :
  ∃ first second,
    @handleSquiggles sizeHost sizeState sizeText = Some first
    ∧ @handleSquiggles sizeHost first.1 sizeText = Some second
    ∧ diagnosticCollection first.1
      = [mkDiagnostic 49 63
           (str "Cannot find " ++ Regex.q "/nonexistent" ++ str ".")]
    ∧ diagnosticCollection second.1 = diagnosticCollection first.1
    ∧ second.2
      = [ConfigSquigglesMetrics
           [(str "PathNonExistent", 1%nat); (str "PathNotAFile", 0%nat);
            (str "PathNotADirectory", 0%nat);
            (str "CompilerPathMissingQuotes", 0%nat);
            (str "CompilerModeMismatch", 0%nat)]].
Proof.
  eexists _, _. split; [vm_compute; reflexivity|].
  split; [vm_compute; reflexivity|]. by vm_compute.
Qed.

(** * The pattern for a path *)
Section PathPattern.
Import Regex SquiggleSpec.

Lemma isQuoteOrSemicolon_true (a : ascii) :
  isQuoteOrSemicolon a = true → a = dquote ∨ a = ";"%char.
Proof.
  unfold isQuoteOrSemicolon. intros [?%bool_decide_eq_true|?%bool_decide_eq_true]%orb_prop; eauto.
Qed.

Lemma lazyToQuote_spec (s : jsstring) (m : nat) :
  lazyToQuote s = Some m →
  ∃ post, take m s = post ++ [dquote] ∧ m = S (length post)
          ∧ (m ≤ length s)%nat ∧ (dquote ∉ post)
          ∧ Forall (λ a, isLineTerminator a = false) post.
Proof.
  revert m. induction s as [|c s IH]; intros m; simpl; [done|].
  destruct (decide (c = dquote)) as [->|Hc].
  - intros [= <-]. exists []. split_and!; [done|done|simpl; lia| |done].
    apply not_elem_of_nil.
  - destruct (isLineTerminator c) eqn:Hlt; [done|].
    destruct (lazyToQuote s) as [m'|]; [|done]. intros [= <-].
    destruct (IH m' eq_refl) as (post & Htake & -> & Hlen & Hq & Hl).
    exists (c :: post). simpl. rewrite Htake.
    split_and!; [done|done|lia| |by constructor].
    by apply not_elem_of_cons.
Qed.

Lemma matchTail_spec (ndl s : jsstring) (n : nat) :
  matchTail ndl s = Some n →
  ∃ post, take n s = ndl ++ post ++ [dquote]
          ∧ (n ≤ length s)%nat ∧ (1 ≤ n)%nat ∧ (dquote ∉ post)
          ∧ Forall (λ a, isLineTerminator a = false) post
          ∧ (post = [] ∨ ∃ post', post = ";"%char :: post').
Proof.
  unfold matchTail. destruct (JS.startsWith s ndl) eqn:Hstart; [|done].
  apply startsWith_true in Hstart as [rest ->].
  rewrite drop_app_length. destruct rest as [|c rest]; [done|].
  destruct (isQuoteOrSemicolon (c)) eqn:Hc; [|done].
  destruct (lazyToQuote (c :: rest)) as [m|] eqn:Hlazy; [|done].
  intros [= <-].
  destruct (lazyToQuote_spec _ _ Hlazy) as (post & Htake & -> & Hlen & Hq & Hl).
  exists post. rewrite take_app_add, Htake, length_app.
  split_and!; [done|lia|lia|done|done|].
  destruct post as [|d post]; [by left|right].
  simpl in Htake. injection Htake as -> _.
  apply isQuoteOrSemicolon_true in Hc as [->| ->]; [|by eauto].
  destruct Hq. by left.
Qed.

Lemma matchBody_spec (ndl : jsstring) (prev : ascii) (s : jsstring) (n : nat) :
  matchBody ndl prev s = Some n →
  ∃ pre post, take n s = pre ++ ndl ++ post ++ [dquote]
              ∧ (n ≤ length s)%nat ∧ (1 ≤ n)%nat ∧ (dquote ∉ pre)
              ∧ (pre = [] ∧ isQuoteOrSemicolon prev = true
                 ∨ ∃ pre', pre = pre' ++ [";"%char])
              ∧ (dquote ∉ post)
              ∧ Forall (λ a, isLineTerminator a = false) post
              ∧ (post = [] ∨ ∃ post', post = ";"%char :: post').
Proof.
  revert prev n. induction s as [|c s IH]; intros prev n.
  - simpl. destruct (isQuoteOrSemicolon prev) eqn:Hprev; [|done].
    destruct (matchTail ndl []) as [n'|] eqn:Htail; [|done]. intros [= <-].
    destruct (matchTail_spec _ _ _ Htail) as (post & ? & ? & ? & ? & ? & ?).
    exists [], post. split_and!; try done; [apply not_elem_of_nil|by left].
  - cbn [matchBody].
    destruct (if isQuoteOrSemicolon prev then matchTail ndl (c :: s) else None)
      as [n'|] eqn:Htail.
    + destruct (isQuoteOrSemicolon prev) eqn:Hprev; [|done]. intros [= <-].
      destruct (matchTail_spec _ _ _ Htail) as (post & ? & ? & ? & ? & ? & ?).
      exists [], post. split_and!; try done; [apply not_elem_of_nil|by left].
    + destruct (decide (c = dquote)) as [->|Hc]; [done|].
      destruct (matchBody ndl c s) as [n'|] eqn:Hbody; [|done]. intros [= <-].
      destruct (IH _ _ Hbody)
        as (pre & post & Htake & Hlen & Hpos & Hpre & Hbehind & Hpost).
      exists (c :: pre), post. simpl. rewrite Htake.
      split_and!; [done|lia|lia|by apply not_elem_of_cons| |apply Hpost..].
      right. destruct Hbehind as [[-> Hqs]|[pre' ->]].
      * exists []. apply isQuoteOrSemicolon_true in Hqs as [->| ->]; done.
      * by exists (c :: pre').
Qed.

(** A match of the pattern is a quoted stretch that holds the entry. *)
Lemma matchPath_spec (ndl text : jsstring) (n : nat) :
  matchPath ndl text = Some n →
  (2 ≤ n ≤ length text)%nat ∧ quotedStretch ndl (take n text).
Proof.
  unfold matchPath. destruct text as [|c rest]; [done|].
  destruct (decide (c = dquote)) as [->|]; [|done].
  destruct (matchBody ndl dquote rest) as [n'|] eqn:Hbody; [|done].
  intros [= <-].
  destruct (matchBody_spec _ _ _ _ Hbody)
    as (pre & post & Htake & Hlen & Hpos & Hpre & Hbehind & Hq & Hl & Hahead).
  split; [simpl; lia|].
  exists pre, post. simpl. rewrite Htake.
  split_and!; [done|done| |done|done|done].
  destruct Hbehind as [[-> _]|?]; eauto.
Qed.

Lemma matchAllFrom_skip (ndl text : jsstring) (k : nat) :
  matchAllFrom ndl k text = matchAllFrom ndl 0 (drop k text).
Proof.
  revert k. induction text as [|c t IH]; intros [|k]; try done.
  simpl. apply IH.
Qed.

Lemma matchSpansFrom_skip (ndl text : jsstring) (k i : nat) :
  matchSpansFrom ndl k i text = matchSpansFrom ndl 0 (i + k) (drop k text).
Proof.
  revert k i. induction text as [|c t IH]; intros [|k] i; try done.
  - by rewrite Nat.add_0_r.
  - simpl. rewrite IH. f_equal. lia.
Qed.

Lemma searchPathFrom_unfold (ndl text : jsstring) :
  searchPathFrom ndl text
  = match matchPath ndl text with
    | Some _ => Some 0%nat
    | None =>
      match text with
      | [] => None
      | _ :: t => S <$> searchPathFrom ndl t
      end
    end.
Proof. by destruct text. Qed.

Lemma matchSpansFrom_cons (ndl : jsstring) (i : nat) (c : ascii) (t : jsstring) :
  matchSpansFrom ndl 0 i (c :: t)
  = match matchPath ndl (c :: t) with
    | Some n => (i, i + n)%nat :: matchSpansFrom ndl (n - 1) (S i) t
    | None => matchSpansFrom ndl 0 (S i) t
    end.
Proof. done. Qed.

Lemma matchAllFrom_cons (ndl : jsstring) (c : ascii) (t : jsstring) :
  matchAllFrom ndl 0 (c :: t)
  = match matchPath ndl (c :: t) with
    | Some n => take n (c :: t) :: matchAllFrom ndl (n - 1) t
    | None => matchAllFrom ndl 0 t
    end.
Proof. done. Qed.

(** The matches and their spans along the searches. *)
Lemma matches_by_search (ndl text : jsstring) (i : nat) :
  match searchPathFrom ndl text with
  | None => matchSpansFrom ndl 0 i text = [] ∧ matchAllFrom ndl 0 text = []
  | Some j =>
    ∃ n, matchPath ndl (drop j text) = Some n
         ∧ matchSpansFrom ndl 0 i text
           = (i + j, i + j + n)%nat
             :: matchSpansFrom ndl 0 (i + j + n) (drop (j + n) text)
         ∧ matchAllFrom ndl 0 text
           = take n (drop j text) :: matchAllFrom ndl 0 (drop (j + n) text)
  end.
Proof.
  revert i. induction text as [|c t IH]; intros i.
  - by rewrite searchPathFrom_unfold.
  - rewrite searchPathFrom_unfold, matchSpansFrom_cons, matchAllFrom_cons.
    destruct (matchPath ndl (c :: t)) as [n|] eqn:Hmatch.
    + exists n. pose proof (matchPath_spec _ _ _ Hmatch) as [[Hn _] _].
      split; [done|].
      rewrite matchSpansFrom_skip, matchAllFrom_skip.
      replace (drop (0 + n) (c :: t)) with (drop (n - 1) t)
        by (destruct n; [lia|]; simpl; by rewrite Nat.sub_0_r).
      rewrite drop_0, Nat.add_0_r.
      by replace (S i + (n - 1))%nat with (i + n)%nat by lia.
    + specialize (IH (S i)).
      destruct (searchPathFrom ndl t) as [j|]; simpl; [|done].
      destruct IH as (n & Hn & Hspans & Hall). exists n.
      split; [done|]. rewrite Hspans, Hall.
      by replace (i + S j)%nat with (S i + j)%nat by lia.
Qed.

(** Every span is a match of the pattern, and the spans follow each other
    without overlap. *)
Lemma matchSpansFrom_spec (ndl : jsstring) (len : nat) :
  ∀ (text : jsstring) (i : nat),
    (length text ≤ len)%nat →
    Forall (λ span, (i ≤ span.1)%nat
                    ∧ (span.2 ≤ i + length text)%nat
                    ∧ matchPath ndl (drop (span.1 - i) text)
                      = Some (span.2 - span.1)%nat)
           (matchSpansFrom ndl 0 i text)
    ∧ ∀ k s1 e1 s2 e2,
        matchSpansFrom ndl 0 i text !! k = Some (s1, e1) →
        matchSpansFrom ndl 0 i text !! S k = Some (s2, e2) →
        (e1 ≤ s2)%nat.
Proof.
  induction len as [|len IH]; intros text i Hlen.
  - destruct text; [|simpl in Hlen; lia]. split; [done|]. by intros [].
  - pose proof (matches_by_search ndl text i) as Hsearch.
    destruct (searchPathFrom ndl text) as [j|];
      [|destruct Hsearch as [-> _]; split; [done|by intros []]].
    destruct Hsearch as (n & Hmatch & -> & _).
    pose proof (matchPath_spec _ _ _ Hmatch) as [[Hn Hle] _].
    rewrite length_drop in Hle.
    destruct (IH (drop (j + n) text) (i + j + n)%nat) as [Hall Hsorted].
    { rewrite length_drop. lia. }
    split.
    + constructor.
      * simpl. split_and!; [lia|lia|].
        replace (i + j - i)%nat with j by lia.
        by replace (i + j + n - (i + j))%nat with n by lia.
      * eapply Forall_impl; [exact Hall|]. intros [s e]. simpl.
        rewrite length_drop. intros (Hs & He & Hm).
        split_and!; [lia|lia|].
        rewrite drop_drop in Hm.
        by replace (s - i)%nat with (j + n + (s - (i + j + n)))%nat by lia.
    + intros [|k] s1 e1 s2 e2; simpl.
      * intros [= <- <-] Hsecond.
        apply (Forall_lookup_1 _ _ _ _ Hall) in Hsecond. simpl in Hsecond. lia.
      * apply Hsorted.
Qed.

End PathPattern.

(** * The squiggles of a path that does not exist *)
Section NonexistentPath.
Context `{Host}.
Import Regex SquiggleSpec.

(** The loop over the matches, for a path that does not exist: one
    diagnostic per match, over its span. *)
Lemma matchSquiggle_loop (curText : jsstring) (offset : Z) (ranges : FileRanges)
    (ndl resolvedPath : jsstring) (needsQuotes : bool) (len : nat) :
  ∀ (E : nat) (diagnostics : list Diagnostic) (metrics : SquiggleMetrics),
    (length curText - E ≤ len)%nat → (E ≤ length curText)%nat →
    (foldl (matchSquiggle curText offset ranges ndl resolvedPath false needsQuotes)
           (Z.of_nat E, (diagnostics, metrics))
           (matchAllFrom ndl 0 (drop E curText))).2
    = (diagnostics
       ++ (cannotFindAt offset resolvedPath
             <$> matchSpansFrom ndl 0 E (drop E curText)),
       Nat.iter (length (matchSpansFrom ndl 0 E (drop E curText)))
                incrPathNonExistent metrics).
Proof.
  induction len as [|len IH]; intros E diagnostics metrics Hlen HE;
    pose proof (matches_by_search ndl (drop E curText) E) as Hsearch;
    destruct (searchPathFrom ndl (drop E curText)) as [j|] eqn:Hj;
    try (destruct Hsearch as [-> ->]; simpl; by rewrite app_nil_r).
  - destruct Hsearch as (n & Hmatch & _).
    apply matchPath_spec in Hmatch as [[Hn2 Hn] _].
    rewrite !length_drop in Hn. lia.
  - destruct Hsearch as (n & Hmatch & -> & ->).
    pose proof (matchPath_spec _ _ _ Hmatch) as [[Hn2 Hn] _].
    rewrite !length_drop in Hn.
    cbn [foldl]. unfold matchSquiggle at 2.
    rewrite substr_from. unfold searchPath. rewrite Hj.
    rewrite length_take_le by (rewrite !length_drop; lia).
    cbn [negb].
    replace (Z.of_nat j + Z.of_nat E + Z.of_nat n) with (Z.of_nat (E + j + n))
      by lia.
    rewrite drop_drop.
    replace (E + (j + n))%nat with (E + j + n)%nat by lia.
    rewrite IH by lia.
    cbn [length fmap list_fmap]. rewrite Nat.iter_succ_r.
    f_equal. rewrite <- app_assoc. f_equal. cbn [app]. f_equal.
    unfold cannotFindAt. cbn [fst snd]. f_equal; lia.
Qed.

Lemma pathSquiggles_nonexistent (curText : jsstring) (offset : Z)
    (ranges : FileRanges) (curPath resolvedPath : jsstring) (needsQuotes : bool)
    (diagnostics : list Diagnostic) (metrics : SquiggleMetrics) :
  pathSquiggles curText offset ranges curPath resolvedPath false needsQuotes
                (diagnostics, metrics)
  = (diagnostics
     ++ (cannotFindAt offset resolvedPath <$> matchSpans (needle curPath) curText),
     Nat.iter (length (matchSpans (needle curPath) curText))
              incrPathNonExistent metrics).
Proof.
  unfold pathSquiggles, matchAll, matchSpans.
  pose proof (matchSquiggle_loop curText offset ranges (needle curPath)
                resolvedPath needsQuotes (length curText) 0 diagnostics metrics
                ltac:(lia) ltac:(lia)) as Hloop.
  by rewrite drop_0 in Hloop.
Qed.

Lemma iter_incrPathNonExistent (n : nat) (m : SquiggleMetrics) :
  Nat.iter n incrPathNonExistent m
  = mkSquiggleMetrics (n + PathNonExistent m) (PathNotAFile m)
      (PathNotADirectory m) (CompilerPathMissingQuotes m) (CompilerModeMismatch m).
Proof.
  induction n as [|n IH]; simpl; [by destruct m|]. by rewrite IH.
Qed.

(** One round of the loop over the paths, for an entry that is not the
    compiler path and whose resolved path exists neither as it is nor
    under the workspace root: one [Cannot find] diagnostic for each match
    of the pattern for the entry, from left to right, each counted as
    [PathNonExistent]. *)
Lemma squigglePath_nonexistent (this : CppProperties)
    (currentConfiguration : Configuration) (curText : jsstring) (offset : Z)
    (ranges : FileRanges) (diagnostics : list Diagnostic)
    (metrics : SquiggleMetrics) (curPath resolvedPath : jsstring) :
  Value curPath ≠ compilerPath currentConfiguration →
  curPath ≠ str "${default}" →
  resolvePath this (Some curPath) isWindowsHost = Some resolvedPath →
  resolvedPath ≠ [] →
  existsSync resolvedPath = false →
  existsSync (rootUri this ++ [path_sep] ++ resolvedPath) = false →
  let spans := matchSpans (needle curPath) curText in
  squigglePath this currentConfiguration curText offset ranges
               (Some (diagnostics, metrics)) curPath
  = Some (diagnostics
          ++ (cannotFindAt offset (normalizeSeparators resolvedPath) <$> spans),
          mkSquiggleMetrics (length spans + PathNonExistent metrics)
            (PathNotAFile metrics) (PathNotADirectory metrics)
            (CompilerPathMissingQuotes metrics) (CompilerModeMismatch metrics))
  ∧ (∀ span, span ∈ spans →
       (span.1 < span.2 ≤ length curText)%nat
       ∧ matchPath (needle curPath) (drop span.1 curText)
         = Some (span.2 - span.1)%nat
       ∧ quotedStretch (needle curPath)
           (take (span.2 - span.1) (drop span.1 curText)))
  ∧ (∀ k s1 e1 s2 e2,
       spans !! k = Some (s1, e1) → spans !! S k = Some (s2, e2) →
       (e1 ≤ s2)%nat).
Proof.
  intros Hnotcompiler Hnotdefault Hresolved Hnonempty Hmissing Hmissing' spans.
  destruct (matchSpansFrom_spec (needle curPath) (length curText) curText 0
              ltac:(lia)) as [Hall Hsorted].
  split_and!.
  - unfold squigglePath, examinePath. cbn [mbind option_bind].
    rewrite decide_False by done. rewrite Hresolved. cbn [mbind option_bind].
    rewrite decide_False by done.
    rewrite bool_decide_eq_false_2 by done.
    cbn [andb negb]. rewrite Hmissing. cbn [negb].
    rewrite Hmissing'. cbn [negb].
    cbn [mbind option_bind]. rewrite pathSquiggles_nonexistent. fold spans.
    by rewrite iter_incrPathNonExistent.
  - intros [s e] Hin. apply (proj1 (Forall_forall _ _) Hall) in Hin.
    simpl in *. destruct Hin as (_ & He & Hmatch).
    rewrite Nat.sub_0_r in Hmatch.
    pose proof (matchPath_spec _ _ _ Hmatch) as [[Hn _] Hstretch].
    split_and!; [lia|lia|done|done].
  - apply Hsorted.
Qed.

End NonexistentPath.

(** * What the squiggle pass reports for the paths that do not exist *)
Section PassDiagnostics.
Context `{Host}.
Import Regex SquiggleSpec.

(** One match adds its diagnostic, if any, at the end. *)
Lemma matchSquiggle_appends (curText : jsstring) (offset : Z)
    (ranges : FileRanges) (ndl resolvedPath : jsstring)
    (pathExists needsQuotes : bool)
    (state : Z * (list Diagnostic * SquiggleMetrics)) (curMatch : jsstring) :
  let state' := matchSquiggle curText offset ranges ndl resolvedPath pathExists
                  needsQuotes state curMatch in
  ∃ new k,
    state'.2.1 = state.2.1 ++ new
    ∧ PathNonExistent state'.2.2 = (PathNonExistent state.2.2 + k)%nat.
Proof.
  destruct state as [endOffset [diagnostics metrics]]. unfold matchSquiggle.
  repeat case_match; cbn [fst snd];
    first [ by exists [], 0%nat; rewrite app_nil_r, Nat.add_0_r
          | eexists [_], 1%nat; split; [reflexivity|cbn; lia]
          | eexists [_], 0%nat; split; [reflexivity|cbn; lia] ].
Qed.

Lemma pathSquiggles_appends (curText : jsstring) (offset : Z)
    (ranges : FileRanges) (curPath resolvedPath : jsstring)
    (pathExists needsQuotes : bool)
    (diagnostics : list Diagnostic) (metrics : SquiggleMetrics) :
  let result := pathSquiggles curText offset ranges curPath resolvedPath
                  pathExists needsQuotes (diagnostics, metrics) in
  ∃ new k,
    result.1 = diagnostics ++ new
    ∧ PathNonExistent result.2 = (PathNonExistent metrics + k)%nat.
Proof.
  unfold pathSquiggles. generalize (matchAll (needle curPath) curText).
  generalize 0. intros endOffset matches.
  revert endOffset diagnostics metrics.
  induction matches as [|curMatch matches IH];
    intros endOffset diagnostics metrics; cbn [foldl].
  - exists [], 0%nat. cbn. by rewrite app_nil_r, Nat.add_0_r.
  - destruct (matchSquiggle_appends curText offset ranges (needle curPath)
                resolvedPath pathExists needsQuotes
                (endOffset, (diagnostics, metrics)) curMatch)
      as (new1 & k1 & Hd1 & Hm1).
    destruct (matchSquiggle _ _ _ _ _ _ _ _ curMatch) as [e1 [d1 m1]].
    cbn [fst snd] in Hd1, Hm1. subst d1.
    destruct (IH e1 (diagnostics ++ new1) m1) as (new2 & k2 & Hd2 & Hm2).
    exists (new1 ++ new2), (k1 + k2)%nat. rewrite Hd2, Hm2, Hm1.
    split; [by rewrite app_assoc|lia].
Qed.

(** One path: what it adds does not depend on what was there, and for a
    path that does not exist it is one diagnostic for each match. *)
Lemma squigglePath_appends (this : CppProperties)
    (currentConfiguration : Configuration) (curText : jsstring) (offset : Z)
    (ranges : FileRanges) (diagnostics : list Diagnostic)
    (metrics : SquiggleMetrics) (curPath : jsstring)
    (result : list Diagnostic * SquiggleMetrics) :
  squigglePath this currentConfiguration curText offset ranges
               (Some (diagnostics, metrics)) curPath = Some result →
  ∃ new k,
    result.1 = diagnostics ++ new
    ∧ PathNonExistent result.2 = (PathNonExistent metrics + k)%nat
    ∧ ∀ resolvedPath,
        Value curPath ≠ compilerPath currentConfiguration →
        curPath ≠ str "${default}" →
        resolvePath this (Some curPath) isWindowsHost = Some resolvedPath →
        resolvedPath ≠ [] →
        existsSync resolvedPath = false →
        existsSync (rootUri this ++ [path_sep] ++ resolvedPath) = false →
        (new, k)
        = (cannotFindAt offset (normalizeSeparators resolvedPath)
             <$> matchSpans (needle curPath) curText,
           length (matchSpans (needle curPath) curText)).
Proof.
  intros Hstep.
  assert (∃ new k, result.1 = diagnostics ++ new
                   ∧ PathNonExistent result.2 = (PathNonExistent metrics + k)%nat)
    as (new & k & Hd & Hm).
  { unfold squigglePath in Hstep. cbn [mbind option_bind] in Hstep.
    destruct (examinePath this currentConfiguration curPath)
      as [[|resolved pathExists needsQuotes]|]; [| |done].
    - injection Hstep as <-. exists [], 0%nat. cbn.
      by rewrite app_nil_r, Nat.add_0_r.
    - cbn [mbind option_bind] in Hstep. injection Hstep as <-.
      apply pathSquiggles_appends. }
  exists new, k. split_and!; [done..|].
  intros resolvedPath Hnc Hnd Hres Hne Hex Hex'.
  destruct (squigglePath_nonexistent this currentConfiguration curText offset
              ranges diagnostics metrics curPath resolvedPath
              Hnc Hnd Hres Hne Hex Hex') as [Heq _].
  rewrite Hstep in Heq. injection Heq as ->.
  cbn [fst snd PathNonExistent] in Hd, Hm. apply app_inv_head in Hd.
  subst new. f_equal. lia.
Qed.

Lemma squigglePaths_None (this : CppProperties)
    (currentConfiguration : Configuration) (curText : jsstring) (offset : Z)
    (ranges : FileRanges) (paths : list jsstring) :
  foldl (squigglePath this currentConfiguration curText offset ranges)
        None paths = None.
Proof. by induction paths. Qed.

(** The loop over the paths: the diagnostics of the paths one after the
    other, each path counted for what it adds. *)
Lemma squigglePaths_parts (this : CppProperties)
    (currentConfiguration : Configuration) (curText : jsstring) (offset : Z)
    (ranges : FileRanges) (paths : list jsstring) :
  ∀ diagnostics metrics result,
    foldl (squigglePath this currentConfiguration curText offset ranges)
          (Some (diagnostics, metrics)) paths = Some result →
    ∃ parts : list (list Diagnostic * nat),
      result.1 = diagnostics ++ concat (parts.*1)
      ∧ PathNonExistent result.2
        = (PathNonExistent metrics + sum_list (parts.*2))%nat
      ∧ Forall2
          (λ curPath part,
             ∀ resolvedPath,
               Value curPath ≠ compilerPath currentConfiguration →
               curPath ≠ str "${default}" →
               resolvePath this (Some curPath) isWindowsHost
               = Some resolvedPath →
               resolvedPath ≠ [] →
               existsSync resolvedPath = false →
               existsSync (rootUri this ++ [path_sep] ++ resolvedPath) = false →
               part
               = (cannotFindAt offset (normalizeSeparators resolvedPath)
                    <$> matchSpans (needle curPath) curText,
                  length (matchSpans (needle curPath) curText)))
          paths parts.
Proof.
  induction paths as [|curPath paths IH]; intros diagnostics metrics result;
    cbn [foldl].
  - intros [= <-]. exists []. cbn. rewrite app_nil_r, Nat.add_0_r.
    split_and!; [done..|constructor].
  - destruct (squigglePath this currentConfiguration curText offset ranges
                (Some (diagnostics, metrics)) curPath)
      as [[d1 m1]|] eqn:Hstep; [|by rewrite squigglePaths_None].
    intros Hrest.
    destruct (squigglePath_appends _ _ _ _ _ _ _ _ _ Hstep)
      as (new & k & Hd & Hm & Hnew).
    cbn [fst snd] in Hd, Hm. subst d1.
    destruct (IH _ _ _ Hrest) as (parts & Hd' & Hm' & Hparts).
    exists ((new, k) :: parts). cbn [fmap list_fmap concat sum_list fst snd].
    split_and!.
    + by rewrite Hd', app_assoc.
    + rewrite Hm', Hm. cbn. lia.
    + constructor; [exact Hnew|exact Hparts].
Qed.

(** With a document no path makes the loop throw. *)
Lemma windowSquiggles_returns (this : CppProperties)
    (currentConfiguration : Configuration) (offset : Z) (curText : jsstring) :
  configurationJson this ≠ None →
  is_Some (windowSquiggles this currentConfiguration offset curText).
Proof.
  intros Hdoc. unfold windowSquiggles.
  generalize (intelliSenseModeSquiggle currentConfiguration offset curText
                ([], zeroMetrics)).
  induction (pathsOfInterest currentConfiguration) as [|curPath paths IH];
    intros acc; cbn [foldl]; [by eexists|].
  assert (is_Some (squigglePath this currentConfiguration curText offset
                     (fileRanges curText) (Some acc) curPath)) as [acc' ->];
    [|apply IH].
  unfold squigglePath, examinePath. cbn [mbind option_bind].
  destruct (decide (curPath = str "${default}")); [by eexists|].
  destruct (resolvePath_total this (Some curPath) isWindowsHost Hdoc)
    as [resolved ->].
  cbn [mbind option_bind]. repeat case_match; by eexists.
Qed.

(** The mode squiggle counts no path. *)
Lemma intelliSenseModeSquiggle_paths (currentConfiguration : Configuration)
    (offset : Z) (curText : jsstring) :
  PathNonExistent
    (intelliSenseModeSquiggle currentConfiguration offset curText
       ([], zeroMetrics)).2 = 0%nat.
Proof. unfold intelliSenseModeSquiggle. by repeat case_match. Qed.

Lemma setAdd_NoDup (x : jsstring) (s : list jsstring) :
  NoDup s → NoDup (setAdd x s).
Proof.
  intros Hs. unfold setAdd. destruct (bool_decide (x ∈ s)) eqn:Hin; [done|].
  apply bool_decide_eq_false in Hin.
  apply NoDup_app. split_and!; [done| |apply NoDup_singleton].
  intros y Hy ->%list_elem_of_singleton. done.
Qed.

Lemma setAdd_elem_of (x y : jsstring) (s : list jsstring) :
  y ∈ setAdd x s ↔ y = x ∨ y ∈ s.
Proof.
  unfold setAdd. destruct (bool_decide (x ∈ s)) eqn:Hin.
  - apply bool_decide_eq_true in Hin. split; [by right|]. by intros [->|?].
  - rewrite elem_of_app, list_elem_of_singleton. tauto.
Qed.

Lemma setAddAll_spec (pathArray : list jsstring) :
  ∀ paths,
    NoDup paths →
    NoDup (foldl (λ paths curPath, setAdd curPath paths) paths pathArray)
    ∧ ∀ y, y ∈ foldl (λ paths curPath, setAdd curPath paths) paths pathArray
           ↔ y ∈ paths ∨ y ∈ pathArray.
Proof.
  induction pathArray as [|x pathArray IH]; intros paths Hpaths; cbn [foldl].
  - split; [done|]. intros y. rewrite elem_of_nil. tauto.
  - destruct (IH (setAdd x paths) (setAdd_NoDup x paths Hpaths)) as [Hnd Hiff].
    split; [done|]. intros y. rewrite Hiff, setAdd_elem_of, elem_of_cons. tauto.
Qed.

(** The paths the pass checks: every entry of the four lists, the compile
    commands file and the compiler path, each one once. *)
Lemma pathsOfInterest_spec (currentConfiguration : Configuration) :
  NoDup (pathsOfInterest currentConfiguration)
  ∧ ∀ curPath,
      curPath ∈ pathsOfInterest currentConfiguration
      ↔ curPath ∈ default [] (browse currentConfiguration ≫= Browse.path)
        ∨ curPath ∈ default [] (includePath currentConfiguration)
        ∨ curPath ∈ default [] (macFrameworkPath currentConfiguration)
        ∨ curPath ∈ default [] (forcedInclude currentConfiguration)
        ∨ (curPath ≠ [] ∧ compileCommands currentConfiguration = Some curPath)
        ∨ (curPath ≠ [] ∧ compilerPath currentConfiguration = Value curPath).
Proof.
  unfold pathsOfInterest. cbn [foldl].
  assert (∀ (o : option (list jsstring)) paths,
            NoDup paths →
            let paths' :=
              match o with
              | Some pathArray =>
                foldl (λ paths curPath, setAdd curPath paths) paths pathArray
              | None => paths
              end in
            NoDup paths' ∧ ∀ y, y ∈ paths' ↔ y ∈ paths ∨ y ∈ default [] o)
    as Hlist.
  { intros [pathArray|] paths Hpaths; cbn.
    - by apply setAddAll_spec.
    - split; [done|]. intros y. rewrite elem_of_nil. tauto. }
  destruct (Hlist (browse currentConfiguration ≫= Browse.path) [] NoDup_nil_2)
    as [Hnd1 Hin1].
  destruct (Hlist (includePath currentConfiguration) _ Hnd1) as [Hnd2 Hin2].
  destruct (Hlist (macFrameworkPath currentConfiguration) _ Hnd2)
    as [Hnd3 Hin3].
  destruct (Hlist (forcedInclude currentConfiguration) _ Hnd3) as [Hnd4 Hin4].
  cbv zeta in Hnd4, Hin4, Hin3, Hin2, Hin1.
  set (lists := match forcedInclude currentConfiguration with
                | Some _ => _ | None => _ end) in *.
  assert (∀ y, y ∈ lists
               ↔ y ∈ default [] (browse currentConfiguration ≫= Browse.path)
                 ∨ y ∈ default [] (includePath currentConfiguration)
                 ∨ y ∈ default [] (macFrameworkPath currentConfiguration)
                 ∨ y ∈ default [] (forcedInclude currentConfiguration))
    as Hlists.
  { intros y. rewrite Hin4, Hin3, Hin2, Hin1, elem_of_nil. tauto. }
  clearbody lists. clear Hin1 Hin2 Hin3 Hin4 Hnd1 Hnd2 Hnd3 Hlist.
  set (withCommands := if JS.truthy (compileCommands currentConfiguration)
                       then _ else _).
  assert (NoDup withCommands
          ∧ ∀ y, y ∈ withCommands
                 ↔ y ∈ lists
                   ∨ (y ≠ [] ∧ compileCommands currentConfiguration = Some y))
    as [Hnd5 Hin5].
  { subst withCommands.
    destruct (compileCommands currentConfiguration) as [[|a cc]|]; cbn.
    - split; [done|]. intros y. split; [by left|]. intros [?|[? [= <-]]]; done.
    - split; [by apply setAdd_NoDup|]. intros y. rewrite setAdd_elem_of.
      split; [intros [->|?]; [right|left]; done
             |intros [?|[_ [= <-]]]; [by right|by left]].
    - split; [done|]. intros y. split; [by left|]. by intros [?|[? ?]]. }
  clearbody withCommands.
  destruct (compilerPath currentConfiguration) as [| |[|a cp]]; cbn.
  - split; [done|]. intros y. rewrite Hin5, Hlists.
    split; [intros [?|?]; tauto|]. intros [?|[?|[?|[?|[?|[_ ?]]]]]]; tauto || done.
  - split; [done|]. intros y. rewrite Hin5, Hlists.
    split; [intros [?|?]; tauto|]. intros [?|[?|[?|[?|[?|[_ ?]]]]]]; tauto || done.
  - split; [done|]. intros y. rewrite Hin5, Hlists.
    split; [intros [?|?]; tauto|].
    intros [?|[?|[?|[?|[?|[? [= <-]]]]]]]; tauto || done.
  - split; [by apply setAdd_NoDup|]. intros y.
    rewrite setAdd_elem_of, Hin5, Hlists.
    split.
    + intros [->|[?|?]]; [|tauto..]. do 5 right. done.
    + intros [?|[?|[?|[?|[?|[_ [= <-]]]]]]]; tauto.
Qed.

(** C1, amended. On an object with a properties file and a document, with
    the squiggles switched on and a text in which the current
    configuration is found, the pass returns, and its diagnostics are
    those of the mode followed by those of the paths it checks, one path
    after the other. The paths are the entries of [browse.path],
    [includePath], [macFrameworkPath] and [forcedInclude], the compile
    commands file and the compiler path, each distinct entry taken once.
    For an entry that is not the compiler path and whose resolved path
    exists neither as it is nor under the workspace root, the pass adds
    one [Cannot find] diagnostic for each match of the pattern for the
    entry in the text of the configuration, from left to right, and counts
    each as [PathNonExistent]. A match is a quoted stretch of that text:
    it starts at a double quote, holds the entry right after that quote
    or after a semicolon, with no double quote in between, and the entry
    is followed by a double quote, which ends the match, or by a
    semicolon, and then the match runs to the next double quote on the
    line. The matches do not overlap. So a longer path that only contains
    the entry gets no diagnostic, while the span of a match covers the
    whole quoted string, the other fragments of a list separated by
    semicolons included, and a string that holds the entry more than once
    gets one diagnostic. *)
Theorem handleSquiggles_nonexistent_paths (this : CppProperties)
    (documentText : jsstring) (json : ConfigurationJson)
    (currentConfiguration : Configuration) (curTextStartOffset : Z)
    (curText : jsstring) :
  propertiesFile this ≠ None →
  configurationJson this = Some json →
  enableConfigurationSquiggles json ≠ Some false →
  defaultEnableConfigurationSquiggles settings ≠ Some false →
  scanDocument (currentConfigurationIndex this) documentText
  = ScanFound currentConfiguration curTextStartOffset curText →
  ∃ this' events newSquiggleMetrics (parts : list (list Diagnostic * nat)),
    handleSquiggles this documentText = Some (this', events)
    ∧ windowSquiggles this currentConfiguration curTextStartOffset curText
      = Some (diagnosticCollection this', newSquiggleMetrics)
    ∧ diagnosticCollection this'
      = (intelliSenseModeSquiggle currentConfiguration curTextStartOffset
           curText ([], zeroMetrics)).1
        ++ concat (parts.*1)
    ∧ PathNonExistent newSquiggleMetrics = sum_list (parts.*2)
    ∧ Forall2
        (λ curPath part,
           ∀ resolvedPath,
             Value curPath ≠ compilerPath currentConfiguration →
             curPath ≠ str "${default}" →
             resolvePath this (Some curPath) isWindowsHost = Some resolvedPath →
             resolvedPath ≠ [] →
             existsSync resolvedPath = false →
             existsSync (rootUri this ++ [path_sep] ++ resolvedPath) = false →
             part
             = (cannotFindAt curTextStartOffset (normalizeSeparators resolvedPath)
                  <$> matchSpans (needle curPath) curText,
                length (matchSpans (needle curPath) curText)))
        (pathsOfInterest currentConfiguration) parts
    ∧ NoDup (pathsOfInterest currentConfiguration)
    ∧ (∀ curPath,
         curPath ∈ pathsOfInterest currentConfiguration
         ↔ curPath ∈ default [] (browse currentConfiguration ≫= Browse.path)
           ∨ curPath ∈ default [] (includePath currentConfiguration)
           ∨ curPath ∈ default [] (macFrameworkPath currentConfiguration)
           ∨ curPath ∈ default [] (forcedInclude currentConfiguration)
           ∨ (curPath ≠ []
              ∧ compileCommands currentConfiguration = Some curPath)
           ∨ (curPath ≠ []
              ∧ compilerPath currentConfiguration = Value curPath))
    ∧ (∀ curPath span,
         span ∈ matchSpans (needle curPath) curText →
         (span.1 < span.2 ≤ length curText)%nat
         ∧ matchPath (needle curPath) (drop span.1 curText)
           = Some (span.2 - span.1)%nat
         ∧ quotedStretch (needle curPath)
             (take (span.2 - span.1) (drop span.1 curText)))
    ∧ (∀ curPath k s1 e1 s2 e2,
         matchSpans (needle curPath) curText !! k = Some (s1, e1) →
         matchSpans (needle curPath) curText !! S k = Some (s2, e2) →
         (e1 ≤ s2)%nat).
Proof.
  intros Hfile Hjson Hon Hon' Hscan.
  assert (configurationJson this ≠ None) as Hdoc by congruence.
  destruct (windowSquiggles_returns this currentConfiguration
              curTextStartOffset curText Hdoc)
    as [[diagnostics newSquiggleMetrics] Hwindow].
  pose proof (squiggleWindow_first this currentConfiguration curTextStartOffset
                curText) as (_ & _ & _ & _ & Hfirst).
  rewrite Hwindow in Hfirst. destruct Hfirst as [Hdiag _].
  pose proof Hwindow as Hresult. rewrite <- Hdiag in Hresult.
  unfold windowSquiggles in Hwindow.
  set (mode := intelliSenseModeSquiggle _ _ _ _) in *.
  pose proof (intelliSenseModeSquiggle_paths currentConfiguration
                curTextStartOffset curText) as Hmode.
  fold mode in Hmode. destruct mode as [d0 m0]. cbn [snd] in Hmode.
  destruct (squigglePaths_parts _ _ _ _ _ _ _ _ _ Hwindow)
    as (parts & Hd & Hm & Hparts).
  cbn [fst snd] in Hd, Hm.
  destruct (pathsOfInterest_spec currentConfiguration) as [Hnodup Hpaths].
  exists (squiggleWindow this currentConfiguration curTextStartOffset curText).1,
         (squiggleWindow this currentConfiguration curTextStartOffset curText).2,
         newSquiggleMetrics, parts.
  split_and!.
  - unfold handleSquiggles.
    destruct (propertiesFile this); [|done]. rewrite Hjson.
    cbn [mbind option_bind].
    rewrite !bool_decide_eq_false_2 by done.
    unfold squiggleCallback. rewrite Hscan. by destruct (squiggleWindow _ _ _ _).
  - exact Hresult.
  - by rewrite Hdiag.
  - rewrite Hm, Hmode. done.
  - exact Hparts.
  - exact Hnodup.
  - exact Hpaths.
  - intros curPath [s e] Hin.
    destruct (matchSpansFrom_spec (needle curPath) (length curText) curText 0
                ltac:(lia)) as [Hall _].
    apply (proj1 (Forall_forall _ _) Hall) in Hin.
    simpl in *. destruct Hin as (_ & He & Hmatch).
    rewrite Nat.sub_0_r in Hmatch.
    pose proof (matchPath_spec _ _ _ Hmatch) as [[Hn _] Hstretch].
    split_and!; [lia|lia|done|done].
  - intros curPath.
    destruct (matchSpansFrom_spec (needle curPath) (length curText) curText 0
                ltac:(lia)) as [_ Hsorted].
    apply Hsorted.
Qed.

End PassDiagnostics.

(** On the document [incText] the hypotheses hold: the object has the
    document, and the configuration [Linux] is found in the text. *)
Lemma handleSquiggles_nonexistent_paths_witness :
  ∃ curTextStartOffset curText,
    @scanDocument incHost 0 incText
    = ScanFound incConfiguration curTextStartOffset curText
    ∧ ∃ this' events (parts : list (list Diagnostic * nat)),
        @handleSquiggles incHost incState incText = Some (this', events)
        ∧ diagnosticCollection this' = concat (parts.*1)
        ∧ Forall2
            (λ curPath part,
               curPath = str "/usr/inc" →
               part
               = (@SquiggleSpec.cannotFindAt incHost curTextStartOffset
                    (str "/usr/inc")
                    <$> SquiggleSpec.matchSpans (Regex.needle curPath) curText,
                  length (SquiggleSpec.matchSpans (Regex.needle curPath) curText)))
            (pathsOfInterest incConfiguration) parts.
Proof.
  eexists _, _. split; [vm_compute; reflexivity|].
  destruct (@handleSquiggles_nonexistent_paths incHost incState incText
              (mkConfigurationJson [incConfiguration] None (Some 4) None)
              incConfiguration _ _
              ltac:(discriminate) eq_refl ltac:(discriminate)
              ltac:(discriminate) ltac:(vm_compute; reflexivity))
    as (this' & events & metrics & parts & Hpass & _ & Hdiag & _ & Hparts & _).
  exists this', events, parts. split; [exact Hpass|]. split; [exact Hdiag|].
  eapply Forall2_impl; [exact Hparts|].
  intros curPath part Hpart ->.
  exact (Hpart (str "/usr/inc") ltac:(discriminate) ltac:(discriminate)
               eq_refl ltac:(discriminate) eq_refl eq_refl).
Defined.

(** C1 as stated fails. On [incText] the entry [/usr/inc], which does not
    exist, stands at three places between quotes or semicolons but gets two
    diagnostics, and the second one spans the whole string
    [/usr/inc;/usr/include;/usr/inc] with its quotes, the path
    [/usr/include] included, which exists. *)
Lemma squiggle_span_counterexample :
  ∃ result,
    @handleSquiggles incHost incState incText = Some result
    ∧ diagnosticCollection result.1
      = [mkDiagnostic 50 60 (str "Cannot find " ++ Regex.q "/usr/inc" ++ str ".");
         mkDiagnostic 61 93 (str "Cannot find " ++ Regex.q "/usr/inc" ++ str ".");
         mkDiagnostic 61 93
           (str "Cannot find " ++ Regex.q "/usr/inc;/usr/include;/usr/inc"
            ++ str ".")]
    ∧ SquiggleSpec.boundedOccurrences (Regex.needle (str "/usr/inc")) incText
      = [51; 62; 84]%nat
    ∧ JS.substr incText 61 (Some (93 - 61))
      = Regex.q "/usr/inc;/usr/include;/usr/inc"
    ∧ JS.substr incText 61 (Some (93 - 61)) ≠ Regex.q "/usr/inc"
    ∧ @existsSync incHost (str "/usr/include") = true.
Proof.
  eexists. split; [vm_compute; reflexivity|]. split_and!; by vm_compute.
Qed.

(** * Further properties of the load, the migration and the squiggle pass *)
Section PlatformIndex.
Context `{Host}.

(** X1. Called with the document of the object itself, as every caller does,
    [getConfigIndexForPlatform] gives the index of the first configuration
    named after the host platform, or of the last configuration when there
    is none: an index of the list when the list is not empty, and -1 when
    it is. *)
Theorem getConfigIndexForPlatform_valid (this : CppProperties)
    (json : ConfigurationJson) :
  configurationJson this = Some json →
  ∃ index, getConfigIndexForPlatform this json = Some index
    ∧ (configurations json = [] → index = -1)
    ∧ (configurations json ≠ [] →
       0 ≤ index < Z.of_nat (length (configurations json)))
    ∧ ((∃ c, configurations json !! Z.to_nat index = Some c
             ∧ name c = platformConfigName
             ∧ ∀ j c', (j < Z.to_nat index)%nat →
                       configurations json !! j = Some c' →
                       name c' ≠ platformConfigName)
       ∨ (index = Z.of_nat (length (configurations json)) - 1
          ∧ ∀ c, c ∈ configurations json → name c ≠ platformConfigName)).
Proof.
  intros Hjson. rewrite (getConfigIndexForPlatform_spec _ _ Hjson).
  eexists. split; [done|].
  split_and!.
  - intros ->. done.
  - apply platformPreferredIndex_range.
  - unfold platformPreferredIndex.
    destruct (indexOfName _ _ _) as [k|] eqn:Hk.
    + left. apply indexOfName_Some in Hk as (_ & Hfound & Hfirst).
      rewrite Nat.sub_0_r in Hfound, Hfirst. rewrite Nat2Z.id. 
      destruct Hfound as (c & Hc & Hn). eauto.
    + right. split; [done|]. exact (proj1 (indexOfName_None _ _ _) Hk).
Qed.

(** X2. The loop of [getConfigIndexForPlatform] is bounded by the document of
    the object, not by its argument: without a document the call throws,
    and so it does for an argument that has fewer configurations than the
    document and none named after the platform. *)
Theorem getConfigIndexForPlatform_throws (this : CppProperties)
    (config : ConfigurationJson) :
  (configurationJson this = None
   ∨ ∃ json, configurationJson this = Some json
       ∧ (length (configurations config) < length (configurations json))%nat
       ∧ ∀ c, c ∈ configurations config → name c ≠ platformConfigName) →
  getConfigIndexForPlatform this config = None.
Proof.
  unfold getConfigIndexForPlatform.
  intros [->|(json & -> & Hlen & Hnames)]; [done|]. simpl.
  assert (∀ n i, (length (configurations config) < i + n)%nat →
                 (i ≤ length (configurations config))%nat →
                 platformIndexLoop (configurations config)
                   (length (configurations json)) n i = None) as Hloop.
  { induction n as [|n IH]; intros i Hi Hle; [lia|]. simpl.
    destruct (configurations config !! i) as [c|] eqn:Hc; [|done].
    rewrite decide_False by (apply Hnames; by eapply list_elem_of_lookup_2).
    apply lookup_lt_Some in Hc. apply IH; lia. }
  apply Hloop; lia.
Qed.

End PlatformIndex.

(** On the document with the configurations [A], [B], [C] of a Linux host
    the index is within the list. *)
Lemma getConfigIndexForPlatform_valid_witness :
  ∃ index,
    option_map (@getConfigIndexForPlatform xyzHost abcState)
               (configurationJson abcState) = Some (Some index)
    ∧ 0 ≤ index < 3.
Proof.
  destruct (@getConfigIndexForPlatform_valid xyzHost abcState
              (mkConfigurationJson
                 [namedConfig (str "A"); namedConfig (str "B"); namedConfig (str "C")]
                 None (Some 4) None)
              eq_refl) as (index & Hindex & _ & Hrange & _).
  exists index. split; [by rewrite <- Hindex|]. by apply Hrange.
Defined.

Lemma getConfigIndexForPlatform_throws_witness :
  @getConfigIndexForPlatform xyzHost abcState
     (mkConfigurationJson [namedConfig (str "X")] None (Some 4) None)
  = None.
Proof.
  apply (@getConfigIndexForPlatform_throws xyzHost). right.
  eexists. split; [reflexivity|]. split; [vm_compute; lia|].
  intros c ->%list_elem_of_singleton. discriminate.
Defined.
Section SquigglePassFacts.
Context `{Host}.

(** X10. The squiggle pass throws exactly on an object that has a properties
    file and no document. When it returns it has changed nothing but the
    diagnostics and the kept counters. Without a properties file it
    changes nothing at all; with the squiggles switched off, in the
    document or in the settings, it leaves no diagnostic, keeps the
    counters and sends no telemetry. *)
Theorem handleSquiggles_touches_diagnostics_only (this : CppProperties)
    (documentText : jsstring) :
  (handleSquiggles this documentText = None
   ↔ propertiesFile this ≠ None ∧ configurationJson this = None)
  ∧ (∀ result,
       handleSquiggles this documentText = Some result →
       rootUri result.1 = rootUri this
       ∧ propertiesFile result.1 = propertiesFile this
       ∧ configurationJson result.1 = configurationJson this
       ∧ currentConfigurationIndex result.1 = currentConfigurationIndex this
       ∧ defaultCompilerPath result.1 = defaultCompilerPath this
       ∧ defaultCStandard result.1 = defaultCStandard this
       ∧ defaultCppStandard result.1 = defaultCppStandard this
       ∧ rootfs result.1 = rootfs this
       ∧ configurationIncomplete result.1 = configurationIncomplete this)
  ∧ (propertiesFile this = None →
     handleSquiggles this documentText = Some (this, []))
  ∧ (∀ json,
       propertiesFile this ≠ None → configurationJson this = Some json →
       enableConfigurationSquiggles json = Some false
       ∨ defaultEnableConfigurationSquiggles settings = Some false →
       ∃ result,
         handleSquiggles this documentText = Some result
         ∧ diagnosticCollection result.1 = []
         ∧ prevSquiggleMetrics result.1 = prevSquiggleMetrics this
         ∧ result.2 = []).
Proof.
  split_and!.
  - split.
    + intros Hthrows. destruct (propertiesFile this) eqn:Hfile.
      * split; [done|]. destruct (configurationJson this) eqn:Hjson; [|done].
        destruct (handleSquiggles_returns this documentText) as [? ?];
          [right; congruence|congruence].
      * destruct (handleSquiggles_returns this documentText) as [? ?];
          [by left|congruence].
    + intros [Hfile Hjson]. unfold handleSquiggles. rewrite Hjson.
      by destruct (propertiesFile this).
  - apply handleSquiggles_frame.
  - intros Hfile. unfold handleSquiggles. by rewrite Hfile.
  - intros json Hfile Hjson Hoff. unfold handleSquiggles.
    rewrite Hjson. destruct (propertiesFile this); [|done].
    cbn [mbind option_bind]. destruct Hoff as [-> | ->].
    + rewrite bool_decide_eq_true_2 by done. by eexists.
    + rewrite (bool_decide_eq_true_2 (Some false = Some false)) by done.
      destruct (bool_decide _); by eexists.
Qed.

(** One match adds a diagnostic exactly when it adds one to a counter. *)
Lemma matchSquiggle_counted (curText : jsstring) (curTextStartOffset : Z)
    (ranges : FileRanges) (ndl resolvedPath : jsstring)
    (pathExists compilerPathNeedsQuotes : bool)
    (state : Z * (list Diagnostic * SquiggleMetrics)) (curMatch : jsstring) :
  length state.2.1 = countedSquiggles state.2.2 →
  let state' := matchSquiggle curText curTextStartOffset ranges ndl resolvedPath
                  pathExists compilerPathNeedsQuotes state curMatch in
  length state'.2.1 = countedSquiggles state'.2.2.
Proof.
  destruct state as [endOffset [diagnostics metrics]]. simpl. intros Hcount.
  unfold matchSquiggle, countedSquiggles in *.
  repeat case_match; simpl; rewrite ?length_app; simpl; lia.
Qed.

Lemma pathSquiggles_counted (curText : jsstring) (curTextStartOffset : Z)
    (ranges : FileRanges) (curPath resolvedPath : jsstring)
    (pathExists compilerPathNeedsQuotes : bool)
    (acc : list Diagnostic * SquiggleMetrics) :
  length acc.1 = countedSquiggles acc.2 →
  let acc' := pathSquiggles curText curTextStartOffset ranges curPath resolvedPath
                pathExists compilerPathNeedsQuotes acc in
  length acc'.1 = countedSquiggles acc'.2.
Proof.
  intros Hacc. unfold pathSquiggles.
  generalize (Regex.matchAll (Regex.needle curPath) curText). intros matches.
  assert (length (0, acc).2.1 = countedSquiggles (0, acc).2.2) as Hstate by done.
  revert Hstate. generalize (0, acc). clear Hacc.
  induction matches as [|m matches IH]; intros state Hstate; [done|].
  simpl. apply IH. by apply matchSquiggle_counted.
Qed.

(** X11. The diagnostics of a window are as many as its counters count: every
    diagnostic is counted under one of the five categories, and nothing is
    counted without a diagnostic. *)
Theorem windowSquiggles_counted (this : CppProperties)
    (currentConfiguration : Configuration) (curTextStartOffset : Z)
    (curText : jsstring) (diagnostics : list Diagnostic)
    (newSquiggleMetrics : SquiggleMetrics) :
  windowSquiggles this currentConfiguration curTextStartOffset curText
  = Some (diagnostics, newSquiggleMetrics) →
  length diagnostics = countedSquiggles newSquiggleMetrics.
Proof.
  unfold windowSquiggles.
  set (acc0 := intelliSenseModeSquiggle _ _ _ _).
  assert (length acc0.1 = countedSquiggles acc0.2) as Hacc0.
  { subst acc0. unfold intelliSenseModeSquiggle.
    repeat case_match; simpl; done. }
  generalize (pathsOfInterest currentConfiguration). intros paths.
  assert (∀ acc, acc = Some acc0 → 
            match acc with Some a => length a.1 = countedSquiggles a.2 | None => True end)
    as Hsome by (by intros ? ->).
  specialize (Hsome _ eq_refl). revert Hsome.
  generalize (Some acc0). clear Hacc0 acc0.
  induction paths as [|p paths IH]; intros acc Hacc.
  - simpl. intros ->. done.
  - simpl. apply IH.
    unfold squigglePath. destruct acc as [a|]; [simpl|done].
    destruct (examinePath this currentConfiguration p) as [[|r e q]|]; simpl;
      [done| |done].
    by apply pathSquiggles_counted.
Qed.

End SquigglePassFacts.
(** On the document [incText] the three diagnostics are counted. *)
Lemma windowSquiggles_counted_witness :
  ∃ diagnostics newSquiggleMetrics,
    @windowSquiggles incHost incState incConfiguration 0 incText
    = Some (diagnostics, newSquiggleMetrics)
    ∧ length diagnostics = countedSquiggles newSquiggleMetrics.
Proof.
  eexists _, _. split; [vm_compute; reflexivity|].
  apply (@windowSquiggles_counted incHost incState incConfiguration 0 incText).
  vm_compute. reflexivity.
Defined.

Section SquigglePassAgain.
Context `{Host}.

(** X12. Unless the current configuration is named [size], a second pass over
    the same text on the same file system gives the diagnostics of the
    first and sends no counters. Both passes return on an object that has
    a document, or no properties file. *)
Theorem handleSquiggles_second_pass_quiet (this : CppProperties)
    (documentText : jsstring) :
  (∀ c offset curText,
      scanDocument (currentConfigurationIndex this) documentText
      = ScanFound c offset curText → name c ≠ str "size") →
  propertiesFile this = None ∨ configurationJson this ≠ None →
  ∃ first second,
    handleSquiggles this documentText = Some first
    ∧ handleSquiggles first.1 documentText = Some second
    ∧ diagnosticCollection second.1 = diagnosticCollection first.1
    ∧ ∀ changed, ConfigSquigglesMetrics changed ∉ second.2.
Proof.
  intros Hname Hdoc.
  destruct (handleSquiggles_returns this documentText Hdoc) as [first Hfirst].
  destruct (handleSquiggles_twice this documentText first Hfirst)
    as (second & Hsecond & Hdiag & Hquiet).
  exists first, second. split_and!; [done..|]. by apply Hquiet.
Qed.

End SquigglePassAgain.

Lemma handleSquiggles_second_pass_quiet_witness :
  ∃ first second,
    @handleSquiggles incHost incState incText = Some first
    ∧ @handleSquiggles incHost first.1 incText = Some second
    ∧ diagnosticCollection second.1 = diagnosticCollection first.1
    ∧ ∀ changed, ConfigSquigglesMetrics changed ∉ second.2.
Proof.
  apply (@handleSquiggles_second_pass_quiet incHost incState incText).
  - intros c offset curText Hscan. vm_compute in Hscan.
    injection Hscan as <- _ _. discriminate.
  - right. discriminate.
Defined.
Section LoadFacts.
Context `{Host}.

(** The version block reads three fields of the object. *)
Lemma migrateVersion_ext (this this' : CppProperties) (json : ConfigurationJson)
    (dirty : bool) :
  defaultCompilerPath this' = defaultCompilerPath this →
  defaultCStandard this' = defaultCStandard this →
  defaultCppStandard this' = defaultCppStandard this →
  migrateVersion this' json dirty = migrateVersion this json dirty.
Proof.
  unfold migrateVersion, updateToVersion4, updateConfigurationToVersion4.
  by intros -> -> ->.
Qed.

Lemma migrateVersion_dirty (this : CppProperties) (json : ConfigurationJson)
    (dirty : bool) :
  (migrateVersion this json dirty).1.2
  = dirty || bool_decide (version json ≠ Some configVersion).
Proof.
  unfold migrateVersion.
  destruct (decide (version json ≠ Some configVersion)) as [Hne|Heq].
  - rewrite bool_decide_eq_true_2, orb_true_r by done. by repeat case_match.
  - rewrite bool_decide_eq_false_2, orb_false_r by done. done.
Qed.

(** The version block keeps the variables and the squiggle switch of the
    document. *)
Lemma migrateVersion_env (this : CppProperties) (json : ConfigurationJson)
    (dirty : bool) :
  env (migrateVersion this json dirty).1.1 = env json
  ∧ enableConfigurationSquiggles (migrateVersion this json dirty).1.1
    = enableConfigurationSquiggles json.
Proof.
  unfold migrateVersion. repeat case_match; done.
Qed.

Lemma updateConfigurationToVersion3_provider (config : Configuration) :
  configurationProvider (updateConfigurationToVersion3 config)
  = configurationProvider config.
Proof. unfold updateConfigurationToVersion3. by repeat case_match. Qed.

Lemma migrateVersion_providers (this : CppProperties) (json : ConfigurationJson)
    (dirty : bool) :
  configurationProvider <$> configurations (migrateVersion this json dirty).1.1
  = configurationProvider <$> configurations json.
Proof.
  assert (∀ json, configurationProvider <$> configurations (updateToVersion3 json)
                  = configurationProvider <$> configurations json) as H3.
  { intros j. unfold updateToVersion3. simpl. rewrite <- list_fmap_compose.
    apply list_fmap_ext. intros ? c _. simpl.
    apply updateConfigurationToVersion3_provider. }
  assert (∀ json, configurationProvider <$> configurations (updateToVersion4 this json)
                  = configurationProvider <$> configurations json) as H4.
  { intros j. unfold updateToVersion4.
    cbn [set_configurations set_version configurations].
    rewrite <- list_fmap_compose.
    apply list_fmap_ext. intros ? c _. unfold compose.
    by rewrite updateConfigurationToVersion4_fields. }
  unfold migrateVersion.
  repeat (match goal with
          | |- context [decide ?P] => destruct (decide P)
          end; cbn [fst snd]); rewrite ?H4, ?H3; done.
Qed.

Lemma set_configurationProvider_same (c : Configuration) :
  set_configurationProvider (configurationProvider c) c = c.
Proof. by destruct c. Qed.

Lemma normalizeProviders_acc (configs acc : list Configuration) (d : bool) :
  foldl (λ '(done, dirty) config,
           let newId := checkId (configurationProvider config) in
           if decide (newId ≠ configurationProvider config)
           then (done ++ [set_configurationProvider newId config], true)
           else (done ++ [config], dirty))
        (acc, d) configs
  = (acc ++ ((λ c, set_configurationProvider (checkId (configurationProvider c)) c)
               <$> configs),
     d || bool_decide (Exists (λ c, checkId (configurationProvider c)
                                    ≠ configurationProvider c) configs)).
Proof.
  revert acc d. induction configs as [|c configs IH]; intros acc d.
  - cbn [foldl fmap list_fmap]. rewrite app_nil_r.
    rewrite bool_decide_eq_false_2, orb_false_r; [done|].
    by intros ?%Exists_nil.
  - cbn [foldl].
    destruct (decide (checkId (configurationProvider c) ≠ configurationProvider c))
      as [Hne|Heq].
    + rewrite IH. cbn [fmap list_fmap]. f_equal; [by rewrite <- app_assoc|].
      rewrite (bool_decide_eq_true_2 (Exists _ (c :: configs))) by (by left).
      by rewrite orb_true_r.
    + apply dec_stable in Heq. rewrite IH. cbn [fmap list_fmap].
      f_equal.
      * rewrite <- app_assoc. cbn [app]. rewrite Heq.
        by rewrite set_configurationProvider_same.
      * f_equal. apply bool_decide_ext. rewrite Exists_cons.
        split; [by right|intros [Hc|?]; [by destruct Hc|done]].
Qed.

Lemma normalizeProviders_spec (configs : list Configuration) :
  normalizeProviders configs
  = ((λ c, set_configurationProvider (checkId (configurationProvider c)) c)
       <$> configs,
     bool_decide (Exists (λ c, checkId (configurationProvider c)
                               ≠ configurationProvider c) configs)).
Proof. apply normalizeProviders_acc. Qed.

(** The load of a text that parses to a document with configurations, in
    one equation. *)
Lemma parsePropertiesFile_outcome (this : CppProperties) (text : jsstring)
    (canWrite : bool) (documentText : jsstring)
    (c : Configuration) (cs : list Configuration)
    (e : option Environment) (v : option Z) (sq : option bool) :
  text ≠ [] → JSON_parse text = JsonObject (Some (c :: cs)) e v sq →
  let new := c :: cs in
  let fixed :=
    (λ c, set_configurationProvider (checkId (configurationProvider c)) c)
      <$> new in
  let changed :=
    bool_decide (Exists (λ c, checkId (configurationProvider c)
                              ≠ configurationProvider c) new) in
  let migrated :=
    migrateVersion this (mkConfigurationJson fixed (removeDisallowed e) v sq)
                   changed in
  let loaded :=
    set_configurationJson (Some migrated.1.1)
      (set_configurationIncomplete false
         (set_currentConfigurationIndex (selectedAfter this new) this)) in
  ∃ pass,
    handleSquiggles loaded documentText = Some pass
    ∧ parsePropertiesFile this (Some text) canWrite documentText
      = if migrated.1.2 && negb canWrite
        then mkParseOutcome loaded (Returns false)
               (migrated.2
                ++ [WarningMessage
                      (str "Attempt to update " ++ [Regex.dquote]
                       ++ default [] (propertiesFile this) ++ [Regex.dquote]
                       ++ str " failed (do you have write access?)")])
               [] []
        else mkParseOutcome pass.1 (Returns true)
               migrated.2 (if migrated.1.2 then [migrated.1.1] else [])
               pass.2.
Proof.
  intros Hne Hparse new fixed changed migrated loaded.
  unfold parsePropertiesFile.
  rewrite decide_False by done. rewrite Hparse.
  fold new. cbv zeta.
  set (this1 := set_configurationJson _ (set_currentConfigurationIndex _ this)).
  assert (currentConfigurationIndex this1 = keepSelectionByName this new) as Hkept
    by done.
  assert ((if (currentConfigurationIndex this1 <? 0)
              || (Z.of_nat (length new) <=? currentConfigurationIndex this1)
           then getConfigIndexForPlatform this1 (mkConfigurationJson new e v sq)
           else Some (currentConfigurationIndex this1))
          = Some (selectedAfter this new)) as ->.
  { unfold selectedAfter. rewrite <- Hkept.
    destruct (_ || _); [|done].
    by rewrite (getConfigIndexForPlatform_spec _ (mkConfigurationJson new e v sq)). }
  rewrite normalizeProviders_spec. fold fixed changed.
  set (json0 := set_env _ _).
  set (this2 := set_configurationIncomplete _ _).
  assert (migrateVersion this2 json0 changed = migrated) as Hmigrated.
  { subst migrated. by apply migrateVersion_ext. }
  rewrite Hmigrated.
  destruct (handleSquiggles_returns loaded documentText ltac:(by right))
    as [pass Hpass].
  exists pass. split; [done|].
  destruct migrated as [[json dirty] shown]. cbn [fst snd].
  destruct (dirty && negb canWrite); [done|].
  assert (set_configurationJson (Some json) this2 = loaded) as -> by done.
  rewrite Hpass. by destruct pass.
Qed.

End LoadFacts.
Section LoadDetails.
Context `{Host}.

(** X5. After a load, the document has the variables of the text except the
    four that may not be overridden: [workspaceRoot], [workspaceFolder],
    [workspaceFolderBasename] and [default]. *)
Theorem parsePropertiesFile_env (this : CppProperties) (text : jsstring)
    (canWrite : bool) (documentText : jsstring)
    (c : Configuration) (cs : list Configuration)
    (e : option Environment) (v : option Z) (sq : option bool) :
  text ≠ [] → JSON_parse text = JsonObject (Some (c :: cs)) e v sq →
  let disallowed := [str "workspaceRoot"; str "workspaceFolder";
                     str "workspaceFolderBasename"; str "default"] in
  ∃ json,
    configurationJson
      (stateAfter (parsePropertiesFile this (Some text) canWrite documentText))
    = Some json
    ∧ (e = None → env json = None)
    ∧ (∀ variables, e = Some variables →
         ∃ kept, env json = Some kept
           ∧ ∀ key, kept !! key = if bool_decide (key ∈ disallowed) then None
                                  else variables !! key).
Proof.
  intros Hne Hparse disallowed.
  destruct (parsePropertiesFile_outcome this text canWrite documentText c cs e
              v sq Hne Hparse)
    as (pass & Hpass & Hload); rewrite Hload; clear Hload.
  set (migrated := migrateVersion _ _ _).
  pose proof (proj1 (migrateVersion_env this
    (mkConfigurationJson
       ((λ c, set_configurationProvider (checkId (configurationProvider c)) c)
          <$> c :: cs) (removeDisallowed e) v sq)
    (bool_decide (Exists (λ c, checkId (configurationProvider c)
                               ≠ configurationProvider c) (c :: cs)))))
    as Henv.
  fold migrated in Henv. cbn [env] in Henv.
  exists migrated.1.1. split.
  { destruct (_ && _); [done|].
    cbn [stateAfter]. by rewrite (proj1 (proj2 (proj2 (handleSquiggles_frame _ _ _ Hpass)))). }
  rewrite Henv. split; [by intros ->|].
  intros variables ->. eexists. split; [done|]. intros key.
  subst disallowed. cbn [removeDisallowed fmap option_fmap option_map].
  destruct (decide (key = str "default")) as [->|Hd].
  { rewrite lookup_delete_eq. rewrite bool_decide_eq_true_2; [done|].
    repeat constructor. }
  rewrite lookup_delete_ne by done.
  destruct (decide (key = str "workspaceFolderBasename")) as [->|Hb].
  { rewrite lookup_delete_eq. rewrite bool_decide_eq_true_2; [done|].
    repeat constructor. }
  rewrite lookup_delete_ne by done.
  destruct (decide (key = str "workspaceFolder")) as [->|Hf].
  { rewrite lookup_delete_eq. rewrite bool_decide_eq_true_2; [done|].
    repeat constructor. }
  rewrite lookup_delete_ne by done.
  destruct (decide (key = str "workspaceRoot")) as [->|Hr].
  { rewrite lookup_delete_eq. rewrite bool_decide_eq_true_2; [done|].
    repeat constructor. }
  rewrite lookup_delete_ne by done.
  rewrite bool_decide_eq_false_2; [done|].
  rewrite !elem_of_cons, elem_of_nil. by intros [?|[?|[?|[?|[]]]]].
Qed.

(** X6. After a load, every configuration has the provider id that
    [checkId] gives for the id of the text. *)
Theorem parsePropertiesFile_providers (this : CppProperties) (text : jsstring)
    (canWrite : bool) (documentText : jsstring)
    (c : Configuration) (cs : list Configuration)
    (e : option Environment) (v : option Z) (sq : option bool) :
  text ≠ [] → JSON_parse text = JsonObject (Some (c :: cs)) e v sq →
  ∃ json,
    configurationJson
      (stateAfter (parsePropertiesFile this (Some text) canWrite documentText))
    = Some json
    ∧ configurationProvider <$> configurations json
      = (λ c, checkId (configurationProvider c)) <$> (c :: cs).
Proof.
  intros Hne Hparse.
  destruct (parsePropertiesFile_outcome this text canWrite documentText c cs e
              v sq Hne Hparse)
    as (pass & Hpass & Hload); rewrite Hload; clear Hload.
  set (migrated := migrateVersion _ _ _).
  exists migrated.1.1. split.
  { destruct (_ && _); [done|].
    cbn [stateAfter]. by rewrite (proj1 (proj2 (proj2 (handleSquiggles_frame _ _ _ Hpass)))). }
  subst migrated. rewrite migrateVersion_providers. cbn [configurations].
  rewrite <- list_fmap_compose. apply list_fmap_ext. intros ? c' _. by destruct c'.
Qed.

(** X7. A text at version 4 whose provider ids are right is not written back:
    the load succeeds whether or not the file can be written, shows no
    message, and the document is the one of the text without the
    disallowed variables. *)
Theorem parsePropertiesFile_clean (this : CppProperties) (text : jsstring)
    (canWrite : bool) (documentText : jsstring)
    (c : Configuration) (cs : list Configuration)
    (e : option Environment) (v : option Z) (sq : option bool) :
  text ≠ [] → JSON_parse text = JsonObject (Some (c :: cs)) e v sq →
  v = Some configVersion →
  (∀ c', c' ∈ c :: cs → checkId (configurationProvider c') = configurationProvider c') →
  let outcome := parsePropertiesFile this (Some text) canWrite documentText in
  returned outcome = Returns true
  ∧ written outcome = []
  ∧ messages outcome = []
  ∧ configurationJson (stateAfter outcome)
    = Some (mkConfigurationJson (c :: cs) (removeDisallowed e) v sq).
Proof.
  intros Hne Hparse -> Hids outcome. subst outcome.
  destruct (parsePropertiesFile_outcome this text canWrite documentText c cs e
              (Some configVersion) sq Hne Hparse)
    as (pass & Hpass & Hload); rewrite Hload; clear Hload.
  pose proof (proj1 (proj2 (proj2 (handleSquiggles_frame _ _ _ Hpass))))
    as Hframe.
  clear Hpass. revert Hframe.
  rewrite bool_decide_eq_false_2; last first.
  { intros (c' & Hin & Hc')%Exists_exists. by apply Hc', Hids. }
  assert ((λ c, set_configurationProvider (checkId (configurationProvider c)) c)
            <$> c :: cs = c :: cs) as ->.
  { rewrite <- (list_fmap_id (c :: cs)) at 2. apply list_fmap_ext.
    intros ? c' Hc'. simpl. rewrite Hids by (by eapply list_elem_of_lookup_2).
    apply set_configurationProvider_same. }
  unfold migrateVersion. cbn [version]. rewrite decide_False by (by intros []).
  cbn [fst snd andb]. intros Hframe. split_and!; [done..|]. cbn [stateAfter].
  by rewrite Hframe.
Qed.

(** X8. A text that is not at version 4, or that has a provider id [checkId]
    changes, is written back: when the file can be written, the document
    written is the document kept; when it cannot, the load answers [false]
    with a warning as its last message, keeps the migrated document all the
    same and does not run the squiggle pass. *)
Theorem parsePropertiesFile_write_back (this : CppProperties) (text : jsstring)
    (canWrite : bool) (documentText : jsstring)
    (c : Configuration) (cs : list Configuration)
    (e : option Environment) (v : option Z) (sq : option bool) :
  text ≠ [] → JSON_parse text = JsonObject (Some (c :: cs)) e v sq →
  v ≠ Some configVersion
  ∨ (∃ c', c' ∈ c :: cs
           ∧ checkId (configurationProvider c') ≠ configurationProvider c') →
  let outcome := parsePropertiesFile this (Some text) canWrite documentText in
  ∃ json,
    configurationJson (stateAfter outcome) = Some json
    ∧ version json = Some configVersion
    ∧ if canWrite
      then returned outcome = Returns true ∧ written outcome = [json]
      else returned outcome = Returns false
           ∧ written outcome = [] ∧ telemetry outcome = []
           ∧ diagnosticCollection (stateAfter outcome) = diagnosticCollection this
           ∧ prevSquiggleMetrics (stateAfter outcome) = prevSquiggleMetrics this
           ∧ ∃ shown,
               messages outcome
               = shown
                 ++ [WarningMessage
                       (str "Attempt to update " ++ [Regex.dquote]
                        ++ default [] (propertiesFile this) ++ [Regex.dquote]
                        ++ str " failed (do you have write access?)")].
Proof.
  intros Hne Hparse Hdirty outcome. subst outcome.
  destruct (parsePropertiesFile_outcome this text canWrite documentText c cs e
              v sq Hne Hparse)
    as (pass & Hpass & Hload); rewrite Hload; clear Hload.
  pose proof (proj1 (proj2 (proj2 (handleSquiggles_frame _ _ _ Hpass))))
    as Hframe.
  clear Hpass. revert Hframe.
  set (changed := bool_decide _).
  set (json0 := mkConfigurationJson _ _ _ _).
  pose proof (migrateVersion_dirty this json0 changed) as Hd.
  pose proof (migrateVersion_version this json0 changed) as Hv.
  assert ((migrateVersion this json0 changed).1.2 = true) as Htrue.
  { rewrite Hd. destruct Hdirty as [Hv4|Hid].
    - rewrite (bool_decide_eq_true_2 (version json0 ≠ _)) by done.
      apply orb_true_r.
    - subst changed. rewrite bool_decide_eq_true_2; [done|].
      by apply Exists_exists. }
  clear Hd.
  destruct (migrateVersion this json0 changed) as [[json dirty] shown].
  cbn [fst snd] in *. subst dirty. intros Hframe. exists json.
  destruct canWrite; cbn [andb negb].
  - cbn [stateAfter returned written]. by rewrite Hframe.
  - cbn. split_and!; try done. by exists shown.
Qed.

End LoadDetails.

(** The theorems on the text [xyzText], which is at version 4, and the last
    one on [legacyText], which has no version. *)
Lemma parsePropertiesFile_env_witness :
  ∃ json,
    configurationJson
      (stateAfter (@parsePropertiesFile xyzHost abcState (Some xyzText) true xyzText))
    = Some json
    ∧ env json = None.
Proof.
  destruct (@parsePropertiesFile_env xyzHost abcState xyzText true xyzText
              (namedConfig (str "X")) [namedConfig (str "Y"); namedConfig (str "Z")]
              None (Some 4) None ltac:(discriminate) eq_refl)
    as (json & Hjson & Hnone & _).
  exists json. split; [exact Hjson|]. by apply Hnone.
Defined.

Lemma parsePropertiesFile_providers_witness :
  ∃ json,
    configurationJson
      (stateAfter (@parsePropertiesFile xyzHost abcState (Some xyzText) true xyzText))
    = Some json
    ∧ configurationProvider <$> configurations json = [None; None; None].
Proof.
  exact (@parsePropertiesFile_providers xyzHost abcState xyzText true xyzText
           (namedConfig (str "X")) [namedConfig (str "Y"); namedConfig (str "Z")]
           None (Some 4) None ltac:(discriminate) eq_refl).
Defined.

Lemma parsePropertiesFile_clean_witness :
  written (@parsePropertiesFile xyzHost abcState (Some xyzText) false xyzText) = [].
Proof.
  refine (proj1 (proj2 (@parsePropertiesFile_clean xyzHost abcState xyzText false
           xyzText (namedConfig (str "X"))
           [namedConfig (str "Y"); namedConfig (str "Z")]
           None (Some 4) None ltac:(discriminate) eq_refl eq_refl _))).
  intros c' _. reflexivity.
Defined.

Lemma parsePropertiesFile_write_back_witness :
  ∃ json,
    configurationJson
      (stateAfter (@parsePropertiesFile legacyHost (demoState (str "/proj") None)
                     (Some legacyText) false legacyText))
    = Some json
    ∧ version json = Some 4
    ∧ returned (@parsePropertiesFile legacyHost (demoState (str "/proj") None)
                  (Some legacyText) false legacyText) = Returns false.
Proof.
  destruct (@parsePropertiesFile_write_back legacyHost (demoState (str "/proj") None)
              legacyText false legacyText (namedConfig (str "Mac")) []
              None None None ltac:(discriminate) eq_refl
              ltac:(left; discriminate))
    as (json & Hjson & Hversion & Hreturned & _).
  exists json. split_and!; [exact Hjson|exact Hversion|exact Hreturned].
Defined.
Section MigrationKeeps.
Context `{Host}.

Lemma keepsUserValues_refl (c : Configuration) : keepsUserValues c c.
Proof. unfold keepsUserValues. by split_and!. Qed.

Lemma keepsUserValues_trans (c c' c'' : Configuration) :
  keepsUserValues c c' → keepsUserValues c' c'' → keepsUserValues c c''.
Proof.
  unfold keepsUserValues.
  intros (-> & -> & -> & -> & -> & -> & -> & -> & -> & H1 & H2 & H3 & H4 & H5).
  intros (-> & -> & -> & -> & -> & -> & -> & -> & -> & K1 & K2 & K3 & K4 & K5).
  split_and!; try done.
  - intros Hset. rewrite <- (H1 Hset). apply K1. by rewrite (H1 Hset).
  - intros Hset. rewrite <- (H2 Hset). apply K2. by rewrite (H2 Hset).
  - intros Hset. rewrite <- (H3 Hset). apply K3. by rewrite (H3 Hset).
  - intros Hset. rewrite <- (H4 Hset). apply K4. by rewrite (H4 Hset).
  - intros Hset. rewrite <- (H5 Hset). apply K5. by rewrite (H5 Hset).
Qed.

Lemma updateConfigurationToVersion3_keeps (c : Configuration) :
  keepsUserValues c (updateConfigurationToVersion3 c).
Proof.
  unfold updateConfigurationToVersion3.
  destruct (_ || _); [|apply keepsUserValues_refl].
  destruct (decide (macFrameworkPath c = None)); [|apply keepsUserValues_refl].
  unfold keepsUserValues. by split_and!.
Qed.

Lemma updateConfigurationToVersion4_keeps (this : CppProperties) (c : Configuration) :
  keepsUserValues c (updateConfigurationToVersion4 this c).
Proof.
  rewrite updateConfigurationToVersion4_fields. unfold keepsUserValues. cbn.
  split_and!; try done.
  - intros Hset. by rewrite bool_decide_eq_false_2.
  - intros Hset. by rewrite bool_decide_eq_false_2.
  - by intros ->.
  - by intros ->.
Qed.

(** X9. The version block never replaces a value the document sets: of every
    configuration it keeps the name and the fields it has no default for,
    and it fills the framework path, the IntelliSense mode, the compiler
    path and the two language standards only where the document has
    none. *)
Theorem migrateVersion_keeps_user_values (this : CppProperties)
    (json : ConfigurationJson) (dirty : bool) :
  Forall2 keepsUserValues (configurations json)
          (configurations (migrateVersion this json dirty).1.1).
Proof.
  assert (∃ f, configurations (migrateVersion this json dirty).1.1
               = f <$> configurations json
               ∧ ∀ c, keepsUserValues c (f c)) as (f & -> & Hf).
  { unfold migrateVersion.
    destruct (decide (version json ≠ Some configVersion));
      [|exists id; split; [by rewrite list_fmap_id|apply keepsUserValues_refl]].
    destruct (decide (version json = None)) as [Hnone|Hsome].
    - exists (updateConfigurationToVersion4 this ∘ updateConfigurationToVersion3).
      split; [simpl; by rewrite list_fmap_compose|].
      intros c. eapply keepsUserValues_trans;
        [apply updateConfigurationToVersion3_keeps
        |apply updateConfigurationToVersion4_keeps].
    - destruct (decide (version json = Some 2)) as [H2|H2].
      + exists (updateConfigurationToVersion4 this ∘ updateConfigurationToVersion3).
        split; [simpl; by rewrite list_fmap_compose|].
        intros c. eapply keepsUserValues_trans;
          [apply updateConfigurationToVersion3_keeps
          |apply updateConfigurationToVersion4_keeps].
      + destruct (decide (version json = Some 3)) as [H3|H3].
        * exists (updateConfigurationToVersion4 this). split; [done|].
          apply updateConfigurationToVersion4_keeps.
        * exists id. split; [by rewrite list_fmap_id|apply keepsUserValues_refl]. }
  apply Forall2_fmap_r, Forall_Forall2_diag, Forall_forall. intros c _. apply Hf.
Qed.

End MigrationKeeps.

(** * Defaults, selection and validation *)
Section DefaultsFacts.
Context `{Host}.

Lemma getDefaultConfig_name : name getDefaultConfig = platformConfigName.
Proof.
  unfold getDefaultConfig, platformConfigName. by repeat case_match.
Qed.

(** The result of [resetToDefaultSettings]. *)
Lemma resetToDefaultSettings_result (this : CppProperties)
    (resetIndex : bool) :
  ∃ this',
    resetToDefaultSettings this resetIndex = Some this'
    ∧ configurationJson this' = Some getDefaultCppProperties
    ∧ currentConfigurationIndex this' = 0
    ∧ configurationIncomplete this' = true
    ∧ CurrentConfiguration this' = Some getDefaultConfig
    ∧ name getDefaultConfig = platformConfigName
    ∧ rootUri this' = rootUri this
    ∧ propertiesFile this' = propertiesFile this
    ∧ defaultCompilerPath this' = defaultCompilerPath this
    ∧ defaultCStandard this' = defaultCStandard this
    ∧ defaultCppStandard this' = defaultCppStandard this
    ∧ rootfs this' = rootfs this
    ∧ diagnosticCollection this' = diagnosticCollection this
    ∧ prevSquiggleMetrics this' = prevSquiggleMetrics this.
Proof.
  unfold resetToDefaultSettings.
  set (this1 := set_configurationJson _ this).
  assert (getConfigIndexForPlatform this1 getDefaultCppProperties = Some 0) as Hzero.
  { rewrite (getConfigIndexForPlatform_spec this1 getDefaultCppProperties) by done.
    unfold platformPreferredIndex. simpl.
    by rewrite decide_True by apply getDefaultConfig_name. }
  destruct (resetIndex || (currentConfigurationIndex this1 <? 0)
            || (Z.of_nat (length (configurations getDefaultCppProperties))
                <=? currentConfigurationIndex this1)) eqn:Hreset.
  - rewrite Hzero. cbn. eexists. split; [done|].
    split_and!; try done. apply getDefaultConfig_name.
  - apply orb_false_elim in Hreset as [[_ Hlow]%orb_false_elim Hhigh].
    apply Z.ltb_ge in Hlow. apply Z.leb_gt in Hhigh. simpl in Hlow, Hhigh.
    assert (currentConfigurationIndex this = 0) as Hindex by (cbn in *; lia).
    cbn. eexists. split; [done|].
    unfold CurrentConfiguration. cbn. rewrite Hindex. cbn.
    split_and!; try done. apply getDefaultConfig_name.
Qed.

(** X3. After [resetToDefaultSettings], with or without [resetIndex] and
    whatever the index was, the document is the default one, marked
    incomplete, and its single configuration, named after the host
    platform, is the current one. The other fields are as before. *)
Theorem resetToDefaultSettings_selects_default (this : CppProperties)
    (resetIndex : bool) :
  ∃ this',
    resetToDefaultSettings this resetIndex = Some this'
    ∧ configurationJson this' = Some getDefaultCppProperties
    ∧ currentConfigurationIndex this' = 0
    ∧ configurationIncomplete this' = true
    ∧ CurrentConfiguration this' = Some getDefaultConfig
    ∧ name getDefaultConfig = platformConfigName
    ∧ rootUri this' = rootUri this
    ∧ propertiesFile this' = propertiesFile this
    ∧ defaultCompilerPath this' = defaultCompilerPath this
    ∧ defaultCStandard this' = defaultCStandard this
    ∧ defaultCppStandard this' = defaultCppStandard this
    ∧ rootfs this' = rootfs this
    ∧ diagnosticCollection this' = diagnosticCollection this
    ∧ prevSquiggleMetrics this' = prevSquiggleMetrics this.
Proof. exact (resetToDefaultSettings_result this resetIndex). Qed.

(** X4. [select] stores any index that is not the number of configurations or
    that number plus one, without a check of its range, fires the
    selection with it, and leaves the document alone: the current
    configuration is the one at that index, or none when the index is
    outside the list. For the two other indices an editor is opened and
    nothing is selected. *)
Theorem select_stores_index (this : CppProperties) (json : ConfigurationJson)
    (index : Z) (documentText : jsstring) :
  configurationJson this = Some json →
  let count := Z.of_nat (length (configurations json)) in
  (index = count → select this index documentText = Some EditUI)
  ∧ (index = count + 1 → select this index documentText = Some EditJSON)
  ∧ (index ≠ count → index ≠ count + 1 →
     ∃ this' events,
       select this index documentText = Some (Selected index this' events)
       ∧ currentConfigurationIndex this' = index
       ∧ configurationJson this' = Some json
       ∧ CurrentConfiguration this'
         = if 0 <=? index then configurations json !! Z.to_nat index else None).
Proof.
  intros Hjson count. unfold select. rewrite Hjson. cbn [mbind option_bind].
  fold count. split_and!.
  - intros ->. by rewrite decide_True.
  - intros ->. rewrite decide_False by lia. by rewrite decide_True.
  - intros H1 H2. rewrite !decide_False by done.
    destruct (handleSquiggles_returns (set_currentConfigurationIndex index this)
                documentText) as [[this' events] Hpass];
      [right; cbn; congruence|].
    pose proof (handleSquiggles_frame _ _ _ Hpass) as (_ & _ & Hj & Hi & _).
    rewrite Hpass. cbn [mbind option_bind].
    cbn in Hj, Hi. exists this', events. split_and!; [done|done|by rewrite Hj|].
    unfold CurrentConfiguration, Configurations. by rewrite Hj, Hi, Hjson.
Qed.

End DefaultsFacts.

Lemma select_stores_index_witness :
  ∃ this' events,
    @select xyzHost abcState 7 xyzText = Some (Selected 7 this' events)
    ∧ @CurrentConfiguration this' = None.
Proof.
  destruct (@select_stores_index xyzHost abcState
              (mkConfigurationJson
                 [namedConfig (str "A"); namedConfig (str "B"); namedConfig (str "C")]
                 None (Some 4) None)
              7 xyzText eq_refl) as (_ & _ & Hother).
  destruct (Hother ltac:(vm_compute; discriminate) ltac:(vm_compute; discriminate))
    as (this' & events & Hselect & _ & _ & Hcurrent).
  exists this', events. split; [exact Hselect|exact Hcurrent].
Defined.
Section ValidationFacts.
Context `{Host}.

Lemma validatePathEntry_passes (this : CppProperties) (isDirectory : bool)
    (p : jsstring) :
  validatePathEntry this isDirectory p = Some None ↔ pathPasses this isDirectory p.
Proof.
  unfold validatePathEntry, pathPasses.
  destruct (resolvePath this (Some p) isWindowsHost) as [resolved|];
    [|split; [done|by intros (? & ? & _)]].
  cbn [mbind option_bind].
  destruct (decide (resolved = [])) as [->|Hne].
  { split; [|done]. intros _. exists []. split; [done|by left]. }
  destruct (existsSync resolved) eqn:Hexists; cbn [negb].
  - destruct isDirectory; cbn [andb negb].
    + destruct (checkDirectoryExistsSync resolved) eqn:Hdir; cbn [negb].
      * split; [|done]. intros _. exists resolved. split; [done|]. right.
        exists resolved. split; [by left|done].
      * split; [done|]. intros (r & [= <-] & [?|(found & Hfound & Hkind)]); [done|].
        destruct Hfound as [[_ ->]|[? _]]; congruence.
    + destruct (checkFileExistsSync resolved) eqn:Hfile; cbn [negb].
      * split; [|done]. intros _. exists resolved. split; [done|]. right.
        exists resolved. split; [by left|done].
      * split; [done|]. intros (r & [= <-] & [?|(found & Hfound & Hkind)]); [done|].
        destruct Hfound as [[_ ->]|[? _]]; congruence.
  - destruct (existsSync (rootUri this ++ [path_sep] ++ resolved)) eqn:Hrel;
      cbn [negb].
    + destruct isDirectory; cbn [andb negb].
      * destruct (checkDirectoryExistsSync _) eqn:Hdir; cbn [negb].
        -- split; [|done]. intros _. exists resolved. split; [done|]. right.
           eexists. split; [right; by split_and!|done].
        -- split; [done|].
           intros (r & [= <-] & [?|(found & Hfound & Hkind)]); [done|].
           destruct Hfound as [[? _]|(_ & -> & _)]; congruence.
      * destruct (checkFileExistsSync _) eqn:Hfile; cbn [negb].
        -- split; [|done]. intros _. exists resolved. split; [done|]. right.
           eexists. split; [right; by split_and!|done].
        -- split; [done|].
           intros (r & [= <-] & [?|(found & Hfound & Hkind)]); [done|].
           destruct Hfound as [[? _]|(_ & -> & _)]; congruence.
    + split; [done|].
      intros (r & [= <-] & [?|(found & Hfound & Hkind)]); [done|].
      destruct Hfound as [[? _]|(_ & -> & ?)]; congruence.
Qed.

Lemma validatePathEntry_total (this : CppProperties) (isDirectory : bool)
    (p : jsstring) :
  configurationJson this ≠ None →
  is_Some (validatePathEntry this isDirectory p).
Proof.
  intros Hjson. unfold validatePathEntry.
  destruct (resolvePath_total this (Some p) isWindowsHost Hjson) as [r ->].
  cbn [mbind option_bind]. repeat case_match; done.
Qed.

(** The loop of [validatePath]: the messages found so far and whether
    every path passed. *)
Lemma validatePath_loop (this : CppProperties) (isDirectory : bool)
    (paths : list jsstring) (errors : list jsstring) :
  configurationJson this ≠ None →
  ∃ more,
    foldl (λ errors p,
             errors ← errors;
             message ← validatePathEntry this isDirectory p;
             Some (match message with
                   | Some message => errors ++ [message]
                   | None => errors
                   end))
          (Some errors) paths
    = Some (errors ++ more)
    ∧ (length more ≤ length paths)%nat
    ∧ (more = [] ↔ Forall (pathPasses this isDirectory) paths).
Proof.
  intros Hjson.
  match goal with |- context [foldl ?g _ _] => set (step := g) end.
  revert errors.
  induction paths as [|p paths IH]; intros errors.
  - exists []. by rewrite app_nil_r.
  - cbn [foldl].
    destruct (validatePathEntry_total this isDirectory p Hjson) as [message Hp].
    destruct message as [message|].
    + assert (step (Some errors) p = Some (errors ++ [message])) as ->
        by (subst step; cbn; by rewrite Hp).
      destruct (IH (errors ++ [message])) as (more & -> & Hlen & _).
      exists (message :: more). rewrite <- app_assoc. split; [done|].
      split; [simpl; lia|]. split; [done|].
      intros Hall. apply Forall_cons_1 in Hall as [Hpass _].
      apply validatePathEntry_passes in Hpass. congruence.
    + assert (step (Some errors) p = Some errors) as ->
        by (subst step; cbn; by rewrite Hp).
      destruct (IH errors) as (more & -> & Hlen & Hmore).
      exists more. split; [done|]. split; [simpl; lia|].
      rewrite Hmore, Forall_cons.
      apply validatePathEntry_passes in Hp. tauto.
Qed.

(** The result of [validatePath] on an object with a document. *)
Lemma validatePath_result (this : CppProperties)
    (input : option PathInput) (isDirectory : bool) :
  configurationJson this ≠ None →
  ∃ result,
    validatePath this input isDirectory = Some result
    ∧ (result = None ↔ Forall (pathPasses this isDirectory) (inputPaths input))
    ∧ (input = None ∨ input = Some (OnePath []) ∨ input = Some (ManyPaths []) →
       result = None).
Proof.
  intros Hjson.
  assert (pathPasses this isDirectory []) as Hempty.
  { exists []. split; [done|by left]. }
  assert (∀ paths,
            ∃ result,
              (errors ← foldl (λ errors p,
                                 errors ← errors;
                                 message ← validatePathEntry this isDirectory p;
                                 Some (match message with
                                       | Some message => errors ++ [message]
                                       | None => errors
                                       end))
                              (Some []) paths;
               Some (if decide (errors = []) then None
                     else Some (joinWith lineFeed errors)))
              = Some result
              ∧ (result = None ↔ Forall (pathPasses this isDirectory) paths)
              ∧ (paths = [] → result = None)) as Hloop.
  { intros paths.
    destruct (validatePath_loop this isDirectory paths [] Hjson)
      as (more & -> & _ & Hmore).
    cbn [mbind option_bind app]. eexists. split; [done|]. split.
    - rewrite <- Hmore. by destruct (decide (more = [])).
    - intros ->. rewrite decide_True; [done|]. apply Hmore. constructor. }
  destruct input as [[p|ps]|].
  - destruct p as [|a p].
    + exists None. split; [done|]. split; [|done].
      split; [|done]. intros _. by constructor.
    + destruct (Hloop [a :: p]) as (result & Hresult & Hiff & _).
      exists result. split; [exact Hresult|]. split; [exact Hiff|].
      by intros [?|[?|?]].
  - destruct (Hloop ps) as (result & Hresult & Hiff & Hnil).
    exists result. split; [exact Hresult|]. split; [exact Hiff|].
    intros [?|[?|[= ->]]]; [done|done|by apply Hnil].
  - exists None. split; [done|]. split; [|done]. split; [|done].
    intros _. constructor.
Qed.

(** X14. On an object with a document, [validatePath] gives [undefined] exactly
    when every path of its input passes: it resolves to nothing, as the
    empty string and [${default}] do, or it is found, as it is or under
    the workspace root, and is of the kind asked for. An absent input, the
    empty string and the empty array pass. *)
Theorem validatePath_undefined_iff (this : CppProperties)
    (input : option PathInput) (isDirectory : bool) :
  configurationJson this ≠ None →
  ∃ result,
    validatePath this input isDirectory = Some result
    ∧ (result = None ↔ Forall (pathPasses this isDirectory) (inputPaths input))
    ∧ (input = None ∨ input = Some (OnePath []) ∨ input = Some (ManyPaths []) →
       result = None).
Proof. exact (validatePath_result this input isDirectory). Qed.

(** X15. The validation of the settings editor and the squiggle pass agree on
    the paths that cannot be found: for a path that is not the compiler
    path of the configuration, [validatePath] answers [Cannot find]
    exactly when the squiggle pass finds that the path does not exist. *)
Theorem validatePathEntry_agrees_with_squiggles (this : CppProperties)
    (currentConfiguration : Configuration) (isDirectory : bool) (p : jsstring) :
  Value p ≠ compilerPath currentConfiguration →
  (∃ resolved, validatePathEntry this isDirectory p
               = Some (Some (str "Cannot find: " ++ resolved)))
  ↔ (∃ resolved needsQuotes,
       examinePath this currentConfiguration p
       = Some (CheckedPath resolved false needsQuotes)).
Proof.
  intros Hnot. unfold validatePathEntry, examinePath.
  rewrite (bool_decide_eq_false_2 _ Hnot). cbn [andb].
  destruct (decide (p = str "${default}")) as [->|Hnd].
  { cbn. split; [by intros (? & ?)|by intros (? & ? & ?)]. }
  destruct (resolvePath this (Some p) isWindowsHost) as [resolved|];
    [|split; [by intros (? & ?)|by intros (? & ? & ?)]].
  cbn [mbind option_bind].
  destruct (decide (resolved = []));
    [split; [by intros (? & ?)|by intros (? & ? & ?)]|].
  destruct (existsSync resolved); cbn [negb].
  - split; [|by intros (? & ? & ?)].
    intros (r & Hr). repeat case_match; simplify_eq.
  - destruct (existsSync (rootUri this ++ [path_sep] ++ resolved)); cbn [negb].
    + split; [|by intros (? & ? & ?)].
      intros (r & Hr). repeat case_match; simplify_eq.
    + split; [eauto|]. intros _. eauto.
Qed.

End ValidationFacts.
Lemma validatePath_undefined_iff_witness :
  ∃ result,
    @validatePath incHost incState
      (Some (ManyPaths [str "/usr/include"; str "${default}"])) true = Some result
    ∧ (result = None
       ↔ Forall (@pathPasses incHost incState true)
                [str "/usr/include"; str "${default}"]).
Proof.
  destruct (@validatePath_undefined_iff incHost incState
              (Some (ManyPaths [str "/usr/include"; str "${default}"])) true
              ltac:(discriminate)) as (result & Hresult & Hiff & _).
  exists result. split; [exact Hresult|exact Hiff].
Defined.

Lemma validatePathEntry_agrees_with_squiggles_witness :
  (∃ resolved, @validatePathEntry incHost incState true (str "/usr/inc")
               = Some (Some (str "Cannot find: " ++ resolved)))
  ↔ (∃ resolved needsQuotes,
       @examinePath incHost incState incConfiguration (str "/usr/inc")
       = Some (CheckedPath resolved false needsQuotes)).
Proof.
  apply (@validatePathEntry_agrees_with_squiggles incHost incState
           incConfiguration true (str "/usr/inc")).
  discriminate.
Defined.

Section EditorErrors.
Context `{Host}.

(** X16. For an index of the document, [getErrorsForConfigUI] gives a result:
    each of the six path properties has no message exactly when all its
    paths pass, as directories for [includePath], [macFrameworkPath] and
    [browse.path], as files for [forcedInclude], [compileCommands] and
    [browse.databaseFilename]; and there is a message for the IntelliSense
    mode exactly on a Windows host with a mode that does not fit the
    compiler. For an index outside the document the call throws. *)
Theorem getErrorsForConfigUI_paths (this : CppProperties)
    (json : ConfigurationJson) (configIndex : Z) :
  configurationJson this = Some json →
  (configIndex < 0 ∨ Z.of_nat (length (configurations json)) ≤ configIndex →
   getErrorsForConfigUI this configIndex = None)
  ∧ ∀ config,
      0 ≤ configIndex →
      configurations json !! Z.to_nat configIndex = Some config →
      ∃ errors,
        getErrorsForConfigUI this configIndex = Some errors
        ∧ (ConfigurationErrors.includePath errors = None
           ↔ Forall (pathPasses this true) (default [] (includePath config)))
        ∧ (ConfigurationErrors.macFrameworkPath errors = None
           ↔ Forall (pathPasses this true) (default [] (macFrameworkPath config)))
        ∧ (ConfigurationErrors.browsePath errors = None
           ↔ Forall (pathPasses this true)
                    (default [] (browse config ≫= Browse.path)))
        ∧ (ConfigurationErrors.forcedInclude errors = None
           ↔ Forall (pathPasses this false) (default [] (forcedInclude config)))
        ∧ (ConfigurationErrors.compileCommands errors = None
           ↔ Forall (pathPasses this false)
                    (option_list (compileCommands config)))
        ∧ (ConfigurationErrors.databaseFilename errors = None
           ↔ Forall (pathPasses this false)
                    (option_list (browse config ≫= Browse.databaseFilename)))
        ∧ (ConfigurationErrors.intelliSenseMode errors ≠ None
           ↔ platform = win32
             ∧ isCompilerIntelliSenseModeCompatible config = false).
Proof.
  intros Hjson. assert (configurationJson this ≠ None) as Hdoc by congruence.
  unfold getErrorsForConfigUI. rewrite Hjson. cbn [mbind option_bind].
  split.
  - intros [Hlow|Hhigh].
    + by rewrite (proj2 (Z.leb_gt _ _)) by lia.
    + destruct (0 <=? configIndex); [|done].
      rewrite (proj2 (lookup_ge_None _ _)) by lia. done.
  - intros config Hpos Hconfig.
    rewrite (proj2 (Z.leb_le _ _)) by done. rewrite Hconfig.
    cbn [mbind option_bind].
    assert (is_Some (compilerPathError this config)) as [e0 ->].
    { unfold compilerPathError.
      destruct (resolvePath_total this (valueOf (compilerPath config)) isWindowsHost Hdoc)
        as [r ->].
      cbn [mbind option_bind]. repeat case_match; done. }
    destruct (validatePath_result this (ManyPaths <$> includePath config)
                true Hdoc) as (e1 & -> & H1 & _).
    destruct (validatePath_result this (ManyPaths <$> macFrameworkPath config)
                true Hdoc) as (e2 & -> & H2 & _).
    destruct (validatePath_result this
                (ManyPaths <$> (browse config ≫= Browse.path))
                true Hdoc) as (e3 & -> & H3 & _).
    destruct (validatePath_result this (ManyPaths <$> forcedInclude config)
                false Hdoc) as (e4 & -> & H4 & _).
    destruct (validatePath_result this (OnePath <$> compileCommands config)
                false Hdoc) as (e5 & -> & H5 & _).
    destruct (validatePath_result this
                (OnePath <$> (browse config ≫= Browse.databaseFilename))
                false Hdoc) as (e6 & -> & H6 & _).
    cbn [mbind option_bind]. eexists. split; [done|].
    cbn [ConfigurationErrors.includePath ConfigurationErrors.macFrameworkPath
         ConfigurationErrors.browsePath ConfigurationErrors.forcedInclude
         ConfigurationErrors.compileCommands ConfigurationErrors.databaseFilename
         ConfigurationErrors.intelliSenseMode].
    split_and!.
    + rewrite H1. by destruct (includePath config).
    + rewrite H2. by destruct (macFrameworkPath config).
    + rewrite H3. by destruct (browse config ≫= Browse.path).
    + rewrite H4. by destruct (forcedInclude config).
    + rewrite H5. by destruct (compileCommands config).
    + rewrite H6. by destruct (browse config ≫= Browse.databaseFilename).
    + unfold isWindowsHost.
      destruct (decide (platform = win32)) as [Hwin|Hwin].
      * rewrite bool_decide_eq_true_2 by done. cbn [andb].
        destruct (isCompilerIntelliSenseModeCompatible config); cbn [negb].
        -- split; [done|]. by intros [_ ?].
        -- split; [done|]. by intros _.
      * rewrite bool_decide_eq_false_2 by done. cbn [andb].
        split; [done|]. by intros [? _].
Qed.

(** X17. There is no message for a compiler path that is absent, empty or
    [${default}], nor, on a Windows host, for a compiler named [cl.exe],
    whatever the file system has. *)
Theorem compilerPathError_unchecked (this : CppProperties)
    (config : Configuration) :
  configurationJson this ≠ None →
  (valueOf (compilerPath config) = None ∨ compilerPath config = Value []
   ∨ compilerPath config = Value (str "${default}")
   ∨ (platform = win32
      ∧ ∀ resolved,
          resolvePath this (valueOf (compilerPath config)) true = Some resolved →
          CompilerPathAndArgs.compilerName (extractCompilerPathAndArgs resolved)
          = str "cl.exe")) →
  compilerPathError this config = Some None.
Proof.
  intros Hdoc Hcase. unfold compilerPathError.
  destruct Hcase as [-> | [-> | [-> | [Hwin Hcl]]]]; try done.
  unfold isWindowsHost. rewrite (bool_decide_eq_true_2 _ Hwin).
  destruct (resolvePath_total this (valueOf (compilerPath config)) true Hdoc) as [r Hr].
  rewrite Hr. cbn [mbind option_bind andb].
  rewrite (bool_decide_eq_true_2 _ (Hcl r Hr)). cbn [negb].
  by rewrite andb_false_r.
Qed.

(** X18. On a Windows host a compiler path given without [.exe] is accepted
    when the file with [.exe] is there, as long as the path does not start
    with a slash; a path that starts with a slash is looked up as it is and
    under the workspace root, and reported when both are missing. *)
Theorem compilerPathError_exe_added (this : CppProperties)
    (config : Configuration) (resolved : jsstring) :
  platform = win32 →
  resolvePath this (valueOf (compilerPath config)) true = Some resolved →
  resolved ≠ [] →
  let compilerPathAndArgs := extractCompilerPathAndArgs resolved in
  let path := CompilerPathAndArgs.compilerPath compilerPathAndArgs in
  CompilerPathAndArgs.compilerName compilerPathAndArgs ≠ str "cl.exe" →
  CompilerPathAndArgs.additionalArgs compilerPathAndArgs = None →
  existsSync path = false →
  existsSync (rootUri this ++ [path_sep] ++ path) = false →
  (JS.startsWith path (str "/") = false →
   existsSync (path ++ str ".exe") = true →
   checkFileExistsSync (path ++ str ".exe") = true →
   path ≠ [] →
   compilerPathError this config = Some None)
  ∧ (JS.startsWith path (str "/") = true →
     compilerPathError this config = Some (Some (str "Cannot find: " ++ path))).
Proof.
  intros Hwin Hresolved Hne cpa path Hname Hargs Hmissing Hmissing'.
  unfold compilerPathError, isWindowsHost.
  rewrite (bool_decide_eq_true_2 _ Hwin), Hresolved.
  cbn [mbind option_bind]. fold cpa. fold path.
  rewrite (bool_decide_eq_false_2 _ Hname).
  assert (JS.truthy (Some resolved) = true) as -> by (by destruct resolved).
  cbn [andb negb]. rewrite Hargs.
  rewrite (bool_decide_eq_false_2 (is_Some None)) by (by intros [? ?]).
  cbn [andb]. rewrite Hmissing. cbn [negb].
  split.
  - intros Hslash Hexe Hfile Hpath. rewrite Hslash, Hexe. cbn [andb negb].
    rewrite (decide_False (P := path = [])) by exact Hpath. rewrite Hfile. cbn [negb].
    cbn [app]. by rewrite decide_True.
  - intros Hslash. rewrite Hslash. cbn [andb negb].
    rewrite Hmissing'. cbn [negb app].
    rewrite decide_False by done. done.
Qed.

End EditorErrors.

Lemma getErrorsForConfigUI_paths_witness :
  ∃ errors,
    @getErrorsForConfigUI gccHost gccState 0 = Some errors
    ∧ (ConfigurationErrors.intelliSenseMode errors ≠ None
       ↔ @platform gccHost = win32
         ∧ @isCompilerIntelliSenseModeCompatible gccHost gccConfiguration = false).
Proof.
  destruct (proj2 (@getErrorsForConfigUI_paths gccHost gccState
                     (mkConfigurationJson [gccConfiguration] None (Some 4) None)
                     0 eq_refl)
                  gccConfiguration ltac:(lia) eq_refl)
    as (errors & Herrors & _ & _ & _ & _ & _ & _ & Hmode).
  exists errors. split; [exact Herrors|exact Hmode].
Defined.

Lemma compilerPathError_unchecked_witness :
  @compilerPathError gccHost gccState (namedConfig (str "Win32")) = Some None.
Proof.
  apply (@compilerPathError_unchecked gccHost gccState (namedConfig (str "Win32")));
    [discriminate|by left].
Defined.

Lemma compilerPathError_exe_added_witness :
  @compilerPathError gccHost gccState gccConfiguration = Some None.
Proof.
  apply (@compilerPathError_exe_added gccHost gccState gccConfiguration
           (str "C:/gcc/gcc") eq_refl eq_refl ltac:(discriminate)
           ltac:(vm_compute; discriminate) eq_refl eq_refl eq_refl);
    [reflexivity|reflexivity|reflexivity|discriminate].
Defined.

(** * The defaults of a configuration *)
Section ApplyDefaultsFacts.
Context `{Folder}.

(** The fields [applyDefaultConfigurationValues] may set, each on its
    own. *)
Lemma applyDefaultConfigurationValues_fields (this : Whole.t)
    (configuration : Configuration) :
  applyDefaultConfigurationValues this configuration
  = mkConfiguration (name configuration)
      (if bool_decide (defaultCompilerPath_setting settings = None)
          && JS.truthy (defaultCompilerPath (Whole.core this))
          && bool_decide (defaultCompileCommands folderSettings = None)
          && negb (JS.truthy (compileCommands configuration))
       then ofNullable (defaultCompilerPath (Whole.core this))
       else compilerPath configuration)
      (match Whole.knownCompilers this with
       | Some known => Some known
       | None => knownCompilers configuration
       end)
      (if bool_decide (defaultCStandard_setting settings = None)
          && JS.truthy (defaultCStandard (Whole.core this))
       then defaultCStandard (Whole.core this) else cStandard configuration)
      (if bool_decide (defaultCppStandard_setting settings = None)
          && JS.truthy (defaultCppStandard (Whole.core this))
       then defaultCppStandard (Whole.core this) else cppStandard configuration)
      (if bool_decide (defaultIncludePath folderSettings = None)
       then Some ([if UseRecursiveIncludes then str "${workspaceFolder}/**"
                   else str "${workspaceFolder}"] ++ Whole.vcpkgIncludes this)
       else includePath configuration)
      (if bool_decide (defaultMacFrameworkPath folderSettings = None)
          && bool_decide (platform = darwin)
       then Whole.defaultFrameworks this else macFrameworkPath configuration)
      (if bool_decide (defaultWindowsSdkVersion_setting folderSettings = None)
          && JS.truthy (Whole.defaultWindowsSdkVersion this)
          && bool_decide (platform = win32)
       then Whole.defaultWindowsSdkVersion this
       else windowsSdkVersion configuration)
      (if bool_decide (defaultDefines folderSettings = None)
       then Some (if decide (platform = win32)
                  then [str "_DEBUG"; str "UNICODE"; str "_UNICODE"] else [])
       else defines configuration)
      (if bool_decide (defaultIntelliSenseMode settings = None)
       then ofNullable (Whole.defaultIntelliSenseMode this)
       else intelliSenseMode configuration)
      (compileCommands configuration) (forcedInclude configuration)
      (configurationProvider configuration) (browse configuration).
Proof.
  unfold applyDefaultConfigurationValues.
  assert (∀ (b : bool) {A} (set : A → Configuration → Configuration)
            (get : Configuration → A) v c,
            (∀ c, set (get c) c = c) →
            (if b then set v c else c) = set (if b then v else get c) c) as Hif.
  { intros [] A set get v c Hset; [done|by rewrite Hset]. }
  rewrite (Hif _ _ set_includePath includePath) by (by intros []).
  rewrite (Hif _ _ set_defines defines) by (by intros []).
  rewrite (Hif _ _ set_macFrameworkPath macFrameworkPath) by (by intros []).
  rewrite (Hif _ _ set_windowsSdkVersion windowsSdkVersion) by (by intros []).
  rewrite (Hif _ _ set_compilerPath compilerPath) by (by intros []).
  rewrite (Hif _ _ set_cStandard cStandard) by (by intros []).
  rewrite (Hif _ _ set_cppStandard cppStandard) by (by intros []).
  rewrite (Hif _ _ set_intelliSenseMode intelliSenseMode) by (by intros []).
  destruct configuration as [n cp kc cs cpps ip mfp sdk defs ism cc fi prov br].
  by destruct (Whole.knownCompilers this).
Qed.

(** X19. [applyDefaultConfigurationValues] leaves alone the name, the forced
    includes, the compile commands, the provider and the browse settings
    of the configuration, and every property for which a setting of VS
    Code is set: such a property stays linked to its setting. *)
Theorem applyDefaultConfigurationValues_respects_settings (this : Whole.t)
    (configuration : Configuration) :
  let configuration' := applyDefaultConfigurationValues this configuration in
  name configuration' = name configuration
  ∧ forcedInclude configuration' = forcedInclude configuration
  ∧ compileCommands configuration' = compileCommands configuration
  ∧ configurationProvider configuration' = configurationProvider configuration
  ∧ browse configuration' = browse configuration
  ∧ (defaultIncludePath folderSettings ≠ None →
     includePath configuration' = includePath configuration)
  ∧ (defaultDefines folderSettings ≠ None →
     defines configuration' = defines configuration)
  ∧ (defaultMacFrameworkPath folderSettings ≠ None →
     macFrameworkPath configuration' = macFrameworkPath configuration)
  ∧ (defaultWindowsSdkVersion_setting folderSettings ≠ None →
     windowsSdkVersion configuration' = windowsSdkVersion configuration)
  ∧ (defaultCompilerPath_setting settings ≠ None
     ∨ defaultCompileCommands folderSettings ≠ None
     ∨ JS.truthy (compileCommands configuration) = true →
     compilerPath configuration' = compilerPath configuration)
  ∧ (defaultCStandard_setting settings ≠ None →
     cStandard configuration' = cStandard configuration)
  ∧ (defaultCppStandard_setting settings ≠ None →
     cppStandard configuration' = cppStandard configuration)
  ∧ (defaultIntelliSenseMode settings ≠ None →
     intelliSenseMode configuration' = intelliSenseMode configuration).
Proof.
  intros configuration'. subst configuration'.
  rewrite applyDefaultConfigurationValues_fields. cbn.
  split_and!; try done.
  - intros Hset. by rewrite bool_decide_eq_false_2.
  - intros Hset. by rewrite bool_decide_eq_false_2.
  - intros Hset. by rewrite bool_decide_eq_false_2.
  - intros Hset. by rewrite bool_decide_eq_false_2.
  - intros [Hset|[Hset|Hset]].
    + by rewrite bool_decide_eq_false_2.
    + rewrite (bool_decide_eq_false_2 (defaultCompileCommands _ = None)) by done.
      by rewrite andb_false_r.
    + rewrite Hset. cbn [negb]. by rewrite andb_false_r.
  - intros Hset. by rewrite bool_decide_eq_false_2.
  - intros Hset. by rewrite bool_decide_eq_false_2.
  - intros Hset. by rewrite bool_decide_eq_false_2.
Qed.

(** X20. Applying the defaults to a configuration that has them changes
    nothing. *)
Theorem applyDefaultConfigurationValues_idempotent (this : Whole.t)
    (configuration : Configuration) :
  applyDefaultConfigurationValues this
    (applyDefaultConfigurationValues this configuration)
  = applyDefaultConfigurationValues this configuration.
Proof.
  rewrite !applyDefaultConfigurationValues_fields. cbn. f_equal.
  - by destruct (_ && _ && _ && _).
  - by destruct (Whole.knownCompilers this).
  - by destruct (_ && _).
  - by destruct (_ && _).
  - by destruct (bool_decide _).
  - by destruct (_ && _).
  - by destruct (_ && _ && _).
  - by destruct (bool_decide _).
  - by destruct (bool_decide _).
Qed.

End ApplyDefaultsFacts.
Section ApplyDefaultsOnce.
Context `{Folder}.

(** The result of [applyDefaultIncludePathsAndFrameworks]. *)
Lemma applyDefaultIncludePathsAndFrameworks_result (this this' : Whole.t) :
  applyDefaultIncludePathsAndFrameworks this = Some this' →
  Whole.set_core (Whole.core this) this' = this
  ∧ currentConfigurationIndex (Whole.core this')
    = currentConfigurationIndex (Whole.core this)
  ∧ rootUri (Whole.core this') = rootUri (Whole.core this)
  ∧ propertiesFile (Whole.core this') = propertiesFile (Whole.core this)
  ∧ diagnosticCollection (Whole.core this') = diagnosticCollection (Whole.core this)
  ∧ (configurationJson (Whole.core this) = None →
     configurationJson (Whole.core this') = None)
  ∧ (∀ json,
       configurationJson (Whole.core this) = Some json →
       ∃ json',
         configurationJson (Whole.core this') = Some json'
         ∧ env json' = env json ∧ version json' = version json
         ∧ name <$> configurations json' = name <$> configurations json
         ∧ ∀ i, Z.of_nat i ≠ currentConfigurationIndex (Whole.core this) →
                configurations json' !! i = configurations json !! i)
  ∧ applyDefaultIncludePathsAndFrameworks this' = Some this'.
Proof.
  assert (∀ w, configurationIncomplete (Whole.core w) = false →
               applyDefaultIncludePathsAndFrameworks w = Some w) as Hquiet.
  { intros w Hw. unfold applyDefaultIncludePathsAndFrameworks. by rewrite Hw. }
  unfold applyDefaultIncludePathsAndFrameworks at 1.
  destruct (configurationIncomplete (Whole.core this) && _ && _ && _) eqn:Hready;
    last first.
  { intros [= <-].
    split_and!; try done; [by destruct this| |].
    - intros json Hjson. exists json. by split_and!.
    - unfold applyDefaultIncludePathsAndFrameworks. by rewrite Hready. }
  unfold CurrentConfiguration, Configurations.
  destruct (configurationJson (Whole.core this)) as [json|] eqn:Hjson;
    cbn [fmap option_fmap option_map mbind option_bind].
  - destruct (0 <=? currentConfigurationIndex (Whole.core this)) eqn:Hpos;
      [destruct (configurations json !! _) as [c|] eqn:Hc|].
    + intros [= <-].
      split_and!; try done; try congruence; try (by destruct this); try (apply Hquiet; reflexivity).
      intros ? [= <-]. eexists. split; [done|]. cbn. split_and!; try done.
      * rewrite list_fmap_insert.
        apply list_insert_id. rewrite list_lookup_fmap, Hc. cbn.
        by rewrite applyDefaultConfigurationValues_fields.
      * intros i Hi. apply list_lookup_insert_ne.
        apply Z.leb_le in Hpos. lia.
    + destruct (readsConfiguration this); [done|]. intros [= <-].
      split_and!; try done; try congruence; try (by destruct this); try (apply Hquiet; reflexivity).
      intros ? [= <-]. eexists. by split_and!.
    + destruct (readsConfiguration this); [done|]. intros [= <-].
      split_and!; try done; try congruence; try (by destruct this); try (apply Hquiet; reflexivity).
      intros ? [= <-]. eexists. by split_and!.
  - destruct (readsConfiguration this); [done|]. intros [= <-].
    split_and!; try done; try congruence; try (by destruct this); try (apply Hquiet; reflexivity).
Qed.

(** X21. [applyDefaultIncludePathsAndFrameworks] changes at most the current
    configuration, whose name it keeps, and the flag
    [configurationIncomplete]; once it has returned, a second call changes
    nothing. *)
Theorem applyDefaultIncludePathsAndFrameworks_once (this this' : Whole.t) :
  applyDefaultIncludePathsAndFrameworks this = Some this' →
  Whole.set_core (Whole.core this) this' = this
  ∧ currentConfigurationIndex (Whole.core this')
    = currentConfigurationIndex (Whole.core this)
  ∧ rootUri (Whole.core this') = rootUri (Whole.core this)
  ∧ propertiesFile (Whole.core this') = propertiesFile (Whole.core this)
  ∧ diagnosticCollection (Whole.core this') = diagnosticCollection (Whole.core this)
  ∧ (configurationJson (Whole.core this) = None →
     configurationJson (Whole.core this') = None)
  ∧ (∀ json,
       configurationJson (Whole.core this) = Some json →
       ∃ json',
         configurationJson (Whole.core this') = Some json'
         ∧ env json' = env json ∧ version json' = version json
         ∧ name <$> configurations json' = name <$> configurations json
         ∧ ∀ i, Z.of_nat i ≠ currentConfigurationIndex (Whole.core this) →
                configurations json' !! i = configurations json !! i)
  ∧ applyDefaultIncludePathsAndFrameworks this' = Some this'.
Proof. exact (applyDefaultIncludePathsAndFrameworks_result this this'). Qed.

End ApplyDefaultsOnce.

Lemma applyDefaultIncludePathsAndFrameworks_once_witness :
  ∃ this',
    @applyDefaultIncludePathsAndFrameworks (demoFolder linuxHost)
      (readyOf (set_configurationIncomplete true (demoState (str "/proj") None)))
    = Some this'
    ∧ @applyDefaultIncludePathsAndFrameworks (demoFolder linuxHost) this'
      = Some this'.
Proof.
  eexists. split; [reflexivity|].
  apply (@applyDefaultIncludePathsAndFrameworks_once (demoFolder linuxHost)
           (readyOf (set_configurationIncomplete true (demoState (str "/proj") None)))).
  reflexivity.
Defined.
(** * The configurations resolved against the settings *)
Section TypeTests.
Context `{Folder}.

(** The three type tests of [util] test the type: strings, booleans, and
    arrays, of which the ones that are not empty for sure. *)
Hypothesis isString_spec : ∀ v, isString v = true ↔ ∃ s, v = JsString s.
Hypothesis isBoolean_spec : ∀ v, isBoolean v = true ↔ ∃ b, v = JsBoolean b.
Hypothesis isArrayOfString_array :
  ∀ v, isArrayOfString v = true → ∃ l, v = JsStrings l.
Hypothesis isArrayOfString_nonempty :
  ∀ l, l ≠ [] → isArrayOfString (JsStrings l) = true.

Lemma isString_false (v : JsValue) :
  (∀ s, v ≠ JsString s) → isString v = false.
Proof.
  intros Hv. destruct (isString v) eqn:E; [|done].
  apply isString_spec in E as [s ->]. by destruct (Hv s).
Qed.

Lemma isBoolean_false (v : JsValue) :
  (∀ b, v ≠ JsBoolean b) → isBoolean v = false.
Proof.
  intros Hv. destruct (isBoolean v) eqn:E; [|done].
  apply isBoolean_spec in E as [b ->]. by destruct (Hv b).
Qed.

Lemma isArrayOfString_false (v : JsValue) :
  (∀ l, v ≠ JsStrings l) → isArrayOfString v = false.
Proof.
  intros Hv. destruct (isArrayOfString v) eqn:E; [|done].
  apply isArrayOfString_array in E as [l ->]. by destruct (Hv l).
Qed.

Lemma isString_true (s : jsstring) : isString (JsString s) = true.
Proof. apply isString_spec. eauto. Qed.

Lemma isBoolean_true (b : bool) : isBoolean (JsBoolean b) = true.
Proof. apply isBoolean_spec. eauto. Qed.

(** The cases of [updateStrings]. *)
Lemma updateStrings_cases (property defaultValue : option (list jsstring))
    (env : Environment) :
  (∀ l, property = Some l →
        updateStrings property defaultValue env
        = Some (Some (resolveAndSplit (Some l) defaultValue env)))
  ∧ (∀ d, property = None → defaultValue = Some d → d ≠ [] →
          updateStrings property defaultValue env
          = Some (Some (resolveAndSplit (Some d) (Some []) env)))
  ∧ (property = None → defaultValue = None →
     updateStrings property defaultValue env = Some None).
Proof.
  unfold updateStrings, updateConfiguration. split_and!.
  - intros l ->. cbn [ofStrings].
    rewrite (isString_false (JsStrings l)) by done.
    rewrite (isBoolean_false (JsStrings l)) by done.
    assert (isString (ofStringsSetting defaultValue) = false) as ->
      by (apply isString_false; by destruct defaultValue).
    assert (isBoolean (ofStringsSetting defaultValue) = false) as ->
      by (apply isBoolean_false; by destruct defaultValue).
    cbn [orb truthyValue].
    assert (resolveAndSplitValue (JsStrings l) (ofStringsSetting defaultValue) env
            = Some (resolveAndSplit (Some l) defaultValue env)) as Hsplit
      by (by destruct defaultValue).
    destruct (isArrayOfString (JsStrings l) || _) eqn:Harray.
    + by rewrite Hsplit.
    + apply orb_false_elim in Harray as [Hl Hd]. cbn.
      destruct l as [|e l]; [|by rewrite isArrayOfString_nonempty in Hl].
      by destruct defaultValue.
  - intros d -> -> Hd. cbn [ofStrings ofStringsSetting].
    rewrite (isString_false JsUndefined), (isString_false (JsStrings d)) by done.
    rewrite (isBoolean_false JsUndefined), (isBoolean_false (JsStrings d)) by done.
    rewrite (isArrayOfString_nonempty d Hd), orb_true_r. by cbn.
  - intros -> ->. cbn [ofStrings ofStringsSetting].
    rewrite (isString_false JsUndefined), (isString_false JsNull) by done.
    rewrite (isBoolean_false JsUndefined), (isBoolean_false JsNull) by done.
    by rewrite (isArrayOfString_false JsUndefined), (isArrayOfString_false JsNull).
Qed.

(** X22. The list properties. A list is resolved as [resolveAndSplit] does,
    against the list of the setting; an absent property takes the list of
    the setting, resolved, in which an entry [${default}] stands for
    nothing; absent from both sides, the property stays absent. *)
Theorem updateStrings_resolves (property defaultValue : option (list jsstring))
    (env : Environment) :
  (∀ l, property = Some l →
        updateStrings property defaultValue env
        = Some (Some (resolveAndSplit (Some l) defaultValue env)))
  ∧ (∀ d, property = None → defaultValue = Some d → d ≠ [] →
          updateStrings property defaultValue env
          = Some (Some (resolveAndSplit (Some d) (Some []) env)))
  ∧ (property = None → defaultValue = None →
     updateStrings property defaultValue env = Some None).
Proof. exact (updateStrings_cases property defaultValue env). Qed.

(** The cases of [updateString]. *)
Lemma updateString_cases (property defaultValue : option jsstring)
    (env : Environment) :
  (∀ s, property = Some s → s ≠ str "${default}" →
        updateString property defaultValue env
        = Some (Some (resolveVariables s env)))
  ∧ (∀ d, property = None ∨ property = Some (str "${default}") →
          defaultValue = Some d →
          updateString property defaultValue env
          = Some (Some (resolveVariables d env)))
  ∧ (property = None → defaultValue = None →
     updateString property defaultValue env = Some None)
  ∧ (property = Some (str "${default}") → defaultValue = None →
     updateString property defaultValue env
     = toString (resolveVariablesOther JsNull env)).
Proof.
  unfold updateString, updateConfiguration, CppProperties_resolveVariables.
  split_and!.
  - intros s -> Hs. cbn [ofString]. rewrite isString_true. cbn [orb].
    rewrite bool_decide_eq_false_2 by done.
    rewrite bool_decide_eq_false_2 by congruence. done.
  - intros d Hp ->. cbn [ofStringSetting].
    rewrite (isString_true d), orb_true_r.
    by destruct Hp as [-> | ->].
  - intros -> ->. cbn [ofString ofStringSetting].
    rewrite (isString_false JsUndefined), (isString_false JsNull) by done.
    rewrite (isBoolean_false JsUndefined), (isBoolean_false JsNull) by done.
    by rewrite (isArrayOfString_false JsUndefined), (isArrayOfString_false JsNull).
  - intros -> ->. cbn [ofString ofStringSetting].
    rewrite isString_true. done.
Qed.

(** X23. The string properties. A string other than [${default}] has its
    variables resolved; an absent property and the string [${default}]
    take the resolved value of the setting when it is set; an absent
    property stays absent when the setting is unset. *)
Theorem updateString_resolves (property defaultValue : option jsstring)
    (env : Environment) :
  (∀ s, property = Some s → s ≠ str "${default}" →
        updateString property defaultValue env
        = Some (Some (resolveVariables s env)))
  ∧ (∀ d, property = None ∨ property = Some (str "${default}") →
          defaultValue = Some d →
          updateString property defaultValue env
          = Some (Some (resolveVariables d env)))
  ∧ (property = None → defaultValue = None →
     updateString property defaultValue env = Some None)
  ∧ (property = Some (str "${default}") → defaultValue = None →
     updateString property defaultValue env
     = toString (resolveVariablesOther JsNull env)).
Proof. exact (updateString_cases property defaultValue env). Qed.

End TypeTests.

Lemma updateStrings_resolves_witness :
  @updateStrings (demoFolder linuxHost) None (Some [str "a;b"; str "${default}"]) ∅
  = Some (Some [str "a"; str "b"]).
Proof.
  refine (proj1 (proj2 (@updateStrings_resolves (demoFolder linuxHost) _ _ _ _
                          None (Some [str "a;b"; str "${default}"]) ∅))
                _ eq_refl eq_refl _).
  - intros [| | | |]; split; try done; try (by intros [? ?]); eauto.
  - intros [| | | |]; split; try done; try (by intros [? ?]); eauto.
  - intros [| | | |]; try done. eauto.
  - done.
  - done.
Defined.

Lemma updateString_resolves_witness :
  @updateString (demoFolder linuxHost) (Some (str "${default}")) (Some (str "gcc")) ∅
  = Some (Some (str "gcc")).
Proof.
  refine (proj1 (proj2 (@updateString_resolves (demoFolder linuxHost) _ _ _
                          (Some (str "${default}")) (Some (str "gcc")) ∅))
                _ _ eq_refl).
  - intros [| | | |]; split; try done; try (by intros [? ?]); eauto.
  - intros [| | | |]; split; try done; try (by intros [? ?]); eauto.
  - intros [| | | |]; try done. eauto.
  - by right.
Defined.
Section SettingsChange.
Context `{Folder}.

Hypothesis isString_spec : ∀ v, isString v = true ↔ ∃ s, v = JsString s.
Hypothesis isBoolean_spec : ∀ v, isBoolean v = true ↔ ∃ b, v = JsBoolean b.
Hypothesis isArrayOfString_array :
  ∀ v, isArrayOfString v = true → ∃ l, v = JsStrings l.
Hypothesis isArrayOfString_nonempty :
  ∀ l, l ≠ [] → isArrayOfString (JsStrings l) = true.

(** For [null], the resolver of [util] gives a string or [undefined]. *)
Hypothesis resolveVariablesOther_null :
  ∀ env, is_Some (toString (resolveVariablesOther JsNull env)).

Lemma updateStrings_total (property defaultValue : option (list jsstring))
    (env : Environment) :
  is_Some (updateStrings property defaultValue env).
Proof.
  destruct (updateStrings_cases isString_spec isBoolean_spec
              isArrayOfString_array isArrayOfString_nonempty
              property defaultValue env) as (Hlist & Hdefault & Hnone).
  destruct property as [l|]; [rewrite (Hlist l); eauto|].
  destruct defaultValue as [[|e d]|];
    [|rewrite (Hdefault (e :: d)); eauto|rewrite Hnone; eauto].
  unfold updateStrings, updateConfiguration. cbn [ofStrings ofStringsSetting].
  rewrite (isString_false isString_spec JsUndefined),
          (isString_false isString_spec (JsStrings [])) by done.
  rewrite (isBoolean_false isBoolean_spec JsUndefined),
          (isBoolean_false isBoolean_spec (JsStrings [])) by done.
  rewrite (isArrayOfString_false isArrayOfString_array JsUndefined) by done.
  cbn [orb]. destruct (isArrayOfString (JsStrings [])); cbn; eauto.
Qed.

Lemma updateString_total (property defaultValue : option jsstring)
    (env : Environment) :
  is_Some (updateString property defaultValue env).
Proof.
  destruct (updateString_cases isString_spec isBoolean_spec
              isArrayOfString_array property defaultValue env)
    as (Hstring & Hdefault & Hnone & Hnull).
  destruct property as [s|].
  - destruct (decide (s = str "${default}")) as [->|Hs];
      [|rewrite (Hstring s); eauto].
    destruct defaultValue as [d|]; [rewrite (Hdefault d); eauto|].
    rewrite Hnull by done. apply resolveVariablesOther_null.
  - destruct defaultValue as [d|]; [rewrite (Hdefault d); eauto|].
    rewrite Hnone; eauto.
Qed.

(** The two properties that may be [null] as well. *)
Lemma updateOptional_total (property : Optional jsstring)
    (defaultValue : option jsstring) (env : Environment) :
  is_Some (updateOptional property defaultValue env).
Proof.
  assert (∀ v, is_Some (v ≫= toString) → is_Some (v ≫= toOptional)) as Hto.
  { intros [[| | | |]|] [x Hx]; cbn in *; eauto; done. }
  destruct property as [| |s].
  - apply Hto. apply (updateString_total None).
  - unfold updateOptional, updateConfiguration, CppProperties_resolveVariables.
    cbn [ofOptional].
    rewrite (isString_false isString_spec JsNull) by done.
    destruct defaultValue as [d|]; cbn [ofStringSetting].
    + rewrite (isString_true isString_spec). cbn [orb].
      rewrite !bool_decide_eq_false_2 by done. cbn [orb mbind option_bind].
      apply (Hto (Some (resolveVariablesOther JsNull env))).
      apply resolveVariablesOther_null.
    + rewrite (isString_false isString_spec JsNull) by done.
      rewrite (isBoolean_false isBoolean_spec JsNull) by done.
      rewrite (isArrayOfString_false isArrayOfString_array JsNull) by done.
      cbn. eauto.
  - apply Hto. apply (updateString_total (Some s)).
Qed.

Lemma updateBoolOrString_total (property : option BoolOrString)
    (defaultValue : option bool) (env : Environment) :
  is_Some (updateConfiguration (ofBoolOrString property)
                               (ofBoolSetting defaultValue) env
           ≫= toBoolOrString).
Proof.
  unfold updateConfiguration, CppProperties_resolveVariables.
  assert (isString (ofBoolSetting defaultValue) = false) as ->
    by (apply (isString_false isString_spec); by destruct defaultValue).
  destruct property as [[b|s]|]; cbn [ofBoolOrString].
  - rewrite (isString_false isString_spec (JsBoolean b)) by done.
    rewrite (isBoolean_true isBoolean_spec). cbn. eauto.
  - rewrite (isString_true isString_spec). cbn [orb].
    rewrite bool_decide_eq_false_2 by done.
    destruct (decide (s = str "${default}")) as [->|Hs].
    + rewrite bool_decide_eq_true_2 by done. cbn [orb].
      destruct defaultValue as [b|]; cbn; [eauto|].
      destruct (resolveVariablesOther_null env) as [v Hv].
      destruct (resolveVariablesOther JsNull env); cbn in *; eauto; done.
    + rewrite bool_decide_eq_false_2 by congruence. cbn. eauto.
  - rewrite (isString_false isString_spec JsUndefined) by done.
    destruct defaultValue as [b|]; cbn [ofBoolSetting].
    + rewrite (isBoolean_true isBoolean_spec), orb_true_r. cbn. eauto.
    + rewrite (isBoolean_false isBoolean_spec JsUndefined),
              (isBoolean_false isBoolean_spec JsNull) by done.
      rewrite (isArrayOfString_false isArrayOfString_array JsUndefined),
              (isArrayOfString_false isArrayOfString_array JsNull) by done.
      cbn. eauto.
Qed.

(** One configuration: it comes out with its name and with browse
    settings. *)
Lemma updateConfigurationFromSettings_total (env : Environment)
    (configuration : Configuration) :
  ∃ configuration',
    updateConfigurationFromSettings env configuration = Some configuration'
    ∧ name configuration' = name configuration
    ∧ knownCompilers configuration' = knownCompilers configuration
    ∧ is_Some (browse configuration').
Proof.
  unfold updateConfigurationFromSettings.
  repeat match goal with
         | |- context [updateStrings ?p ?d ?e ≫= _] =>
           destruct (updateStrings_total p d e) as [? ->];
           cbn [mbind option_bind]
         | |- context [updateString ?p ?d ?e ≫= _] =>
           destruct (updateString_total p d e) as [? ->];
           cbn [mbind option_bind]
         | |- context [updateOptional ?p ?d ?e ≫= _] =>
           destruct (updateOptional_total p d e) as [? ->];
           cbn [mbind option_bind]
         end.
  set (c := set_configurationProvider _ _).
  set (browse0 := default _ _).
  assert (is_Some (updateBrowsePath c browse0 env)) as [path ->].
  { unfold updateBrowsePath. destruct (Browse.path browse0);
      [apply updateStrings_total|].
    destruct (defaultBrowsePath folderSettings); [eauto|].
    destruct (includePath c); eauto. }
  cbn [mbind option_bind].
  destruct (updateBoolOrString_total (Browse.limitSymbolsToIncludedHeaders browse0)
              (defaultLimitSymbolsToIncludedHeaders folderSettings) env)
    as [limit Hlimit].
  cbn [mbind option_bind] in Hlimit. rewrite Hlimit. cbn [mbind option_bind].
  eexists. split; [done|]. cbn. eauto.
Qed.

(** The result of [updateServerOnFolderSettingsChange] on an object with a document. *)
Lemma updateServerOnFolderSettingsChange_result (this : CppProperties)
    (json : ConfigurationJson) :
  configurationJson this = Some json →
  ∃ this' json' watched fired,
    updateServerOnFolderSettingsChange this = Some (Updated this' watched fired)
    ∧ configurationJson this' = Some json'
    ∧ this = set_configurationJson (Some json) this'
    ∧ env json' = env json ∧ version json' = version json
    ∧ enableConfigurationSquiggles json' = enableConfigurationSquiggles json
    ∧ name <$> configurations json' = name <$> configurations json
    ∧ Forall (λ c, is_Some (browse c)) (configurations json')
    ∧ fired = if configurationIncomplete this then None
              else Some (configurations json').
Proof.
  intros Hjson. unfold updateServerOnFolderSettingsChange, ExtendedEnvironment.
  rewrite Hjson. cbn [mbind option_bind].
  assert (Forall (λ c, ∃ c', updateConfigurationFromSettings
                               (<[str "workspaceFolderBasename" :=
                                    EnvString (basename (rootUri this))]>
                                  (default ∅ (env json))) c = Some c'
                             ∧ name c' = name c ∧ is_Some (browse c'))
                 (configurations json)) as Hall.
  { apply Forall_forall. intros c _.
    destruct (updateConfigurationFromSettings_total
                (<[str "workspaceFolderBasename" :=
                     EnvString (basename (rootUri this))]> (default ∅ (env json))) c)
      as (c' & ? & ? & _ & ?). eauto. }
  destruct (mapM _ (configurations json)) as [configs|] eqn:Hmap; last first.
  { exfalso. assert (is_Some (mapM (updateConfigurationFromSettings
                (<[str "workspaceFolderBasename" :=
                     EnvString (basename (rootUri this))]> (default ∅ (env json))))
                (configurations json))) as [? ?]; [|congruence].
    apply mapM_is_Some. eapply Forall_impl; [exact Hall|].
    intros c (c' & Hc & _). cbn. rewrite Hc. by eexists. }
  cbn [mbind option_bind].
  unfold updateCompileCommandsFileWatchers. cbn [mbind option_bind].
  apply mapM_Some in Hmap.
  assert (name <$> configs = name <$> configurations json
          ∧ Forall (λ c, is_Some (browse c)) configs) as [Hnames Hbrowse].
  { clear -Hmap Hall. revert Hall Hmap. generalize (configurations json).
    intros l Hall Hmap.
    induction Hmap as [|c c' l k Hc _ IH]; [done|].
    apply Forall_cons_1 in Hall as [(c'' & Hc'' & Hname & Hbrowse) Hall].
    destruct (IH Hall) as [IHnames IHbrowse]. simplify_eq. split.
    - cbn. by rewrite IHnames, Hname.
    - by constructor. }
  eexists _, _, _, _. split; [reflexivity|]. cbn.
  split_and!; try done.
  - destruct this. cbn in *. by rewrite Hjson.
  - by destruct (configurationIncomplete this).
Qed.

(** X24. With a document, [updateServerOnFolderSettingsChange] goes through:
    it keeps the selection, the flags and the other fields of the object,
    the variables and the version of the document, and the number, the
    order and the names of the configurations; afterwards every
    configuration has browse settings; and it fires [configurationsChanged]
    with the resolved configurations exactly when the configuration is
    complete. *)
Theorem updateServerOnFolderSettingsChange_keeps (this : CppProperties)
    (json : ConfigurationJson) :
  configurationJson this = Some json →
  ∃ this' json' watched fired,
    updateServerOnFolderSettingsChange this = Some (Updated this' watched fired)
    ∧ configurationJson this' = Some json'
    ∧ this = set_configurationJson (Some json) this'
    ∧ env json' = env json ∧ version json' = version json
    ∧ enableConfigurationSquiggles json' = enableConfigurationSquiggles json
    ∧ name <$> configurations json' = name <$> configurations json
    ∧ Forall (λ c, is_Some (browse c)) (configurations json')
    ∧ fired = if configurationIncomplete this then None
              else Some (configurations json').
Proof. exact (updateServerOnFolderSettingsChange_result this json). Qed.

End SettingsChange.
Section BrowsePath.
Context `{Folder}.

Lemma matchesWorkspaceFolder_variable :
  matchesWorkspaceFolder (str "${workspaceFolder}") = true.
Proof. reflexivity. Qed.

(** X25. A configuration without [browse.path] gets one. With the setting
    [C_Cpp.default.browse.path] set it is the list of the setting as it
    is, not resolved. Without it, it is the resolved include path, with
    [${workspaceFolder}] added at the end unless one of its entries is a
    workspace folder already; with no include path either, the browse path
    stays absent. *)
Theorem updateConfigurationFromSettings_browse_path (env : Environment)
    (configuration configuration' : Configuration) :
  updateConfigurationFromSettings env configuration = Some configuration' →
  browse configuration ≫= Browse.path = None →
  (∀ d, defaultBrowsePath folderSettings = Some d →
        browse configuration' ≫= Browse.path = Some d)
  ∧ (defaultBrowsePath folderSettings = None →
     match includePath configuration' with
     | None => browse configuration' ≫= Browse.path = None
     | Some paths =>
       ∃ path,
         browse configuration' ≫= Browse.path = Some path
         ∧ (if existsb matchesWorkspaceFolder paths then path = paths
            else path = paths ++ [str "${workspaceFolder}"])
         ∧ existsb matchesWorkspaceFolder path = true
     end).
Proof.
  intros Hupdate Hnopath. unfold updateConfigurationFromSettings in Hupdate.
  repeat (apply bind_Some in Hupdate as (? & ? & Hupdate); cbv zeta in Hupdate).
  injection Hupdate as <-. cbn.
  match goal with
  | Hb : updateBrowsePath ?c ?b env = Some _ |- _ =>
    assert (Browse.path b = None) as Hnone
      by (cbn; destruct (browse configuration) as [[? ? ?]|]; done);
    unfold updateBrowsePath in Hb; rewrite Hnone in Hb; cbn in Hb
  end.
  split.
  - intros d Hd. rewrite Hd in *. congruence.
  - intros Hd. rewrite Hd in *.
    match goal with
    | Hb : match ?ip with Some _ => _ | None => _ end = Some _ |- _ =>
      destruct ip as [paths|]; simplify_eq; [|done]
    end.
    eexists. split; [done|].
    destruct (existsb matchesWorkspaceFolder paths) eqn:Hex; [done|].
    split; [done|]. rewrite existsb_app. cbn.
    rewrite matchesWorkspaceFolder_variable. by rewrite orb_true_r.
Qed.

(** The set [filePaths] of source lines 587-592. *)
Lemma compileCommands_filePaths (configs : list Configuration) :
  ∀ acc,
    NoDup acc →
    let result :=
      foldl (λ filePaths c,
               match compileCommands c with
               | Some path =>
                 if existsSync path then setAdd path filePaths
                 else filePaths
               | None => filePaths
               end) acc configs in
    NoDup result
    ∧ ∀ path, path ∈ result
              ↔ path ∈ acc
                ∨ existsSync path = true
                  ∧ ∃ c, c ∈ configs ∧ compileCommands c = Some path.
Proof.
  induction configs as [|c configs IH]; intros acc Hacc; cbn.
  - split; [done|]. intros path. split; [by left|].
    intros [?|(_ & c & Hc & _)]; [done|]. by apply not_elem_of_nil in Hc.
  - assert (NoDup (match compileCommands c with
                   | Some path =>
                     if existsSync path then setAdd path acc else acc
                   | None => acc
                   end)) as Hstep.
    { destruct (compileCommands c) as [p|]; [|done].
      destruct (existsSync p); [|done]. unfold setAdd.
      destruct (bool_decide (p ∈ acc)) eqn:Hin; [done|].
      apply bool_decide_eq_false in Hin.
      apply NoDup_app. split_and!; [done| |apply NoDup_singleton].
      intros x Hx ->%list_elem_of_singleton. done. }
    destruct (IH _ Hstep) as [Hnodup Hiff]. split; [done|].
    intros path. rewrite Hiff. clear IH Hiff Hnodup Hstep.
    split.
    + intros [Hin|(Hex & c' & Hc' & Hcc)].
      * destruct (compileCommands c) as [p|] eqn:Hp; [|by left].
        destruct (existsSync p) eqn:Hexp; [|by left]. unfold setAdd in Hin.
        destruct (bool_decide (p ∈ acc)); [by left|].
        apply elem_of_app in Hin as [?|Hp']; [by left|].
        apply list_elem_of_singleton in Hp' as ->.
        right. split; [done|]. exists c. split; [by left|done].
      * right. split; [done|]. exists c'. split; [by right|done].
    + intros [Hin|(Hex & c' & [->|Hc']%elem_of_cons & Hcc)].
      * left. destruct (compileCommands c) as [p|]; [|done].
        destruct (existsSync p); [|done]. unfold setAdd.
        destruct (bool_decide (p ∈ acc)); [done|].
        apply elem_of_app. by left.
      * left. rewrite Hcc, Hex. unfold setAdd.
        destruct (bool_decide (path ∈ acc)) eqn:Hin;
          [by apply bool_decide_eq_true in Hin|].
        apply elem_of_app. right. by left.
      * right. split; [done|]. by exists c'.
Qed.

(** The loop over [filePaths]: the paths watched are those before the
    first one for which [fs.watch] throws. *)
Lemma watchFiles_spec (filePaths : list jsstring) :
  ∀ watched,
    ∃ more rest,
      watchFiles watched filePaths = watched ++ more
      ∧ filePaths = more ++ rest
      ∧ (∀ i path, more !! i = Some path →
                   watch (watched ++ take i more) path = true)
      ∧ match rest with
        | [] => True
        | path :: _ => watch (watched ++ more) path = false
        end.
Proof.
  induction filePaths as [|p filePaths IH]; intros watched; cbn [watchFiles].
  - exists [], []. rewrite app_nil_r. split_and!; done.
  - destruct (watch watched p) eqn:Hwatch.
    + destruct (IH (watched ++ [p])) as (more & rest & Heq & Hsplit & Hok & Hrest).
      exists (p :: more), rest. rewrite Heq, Hsplit, <- app_assoc.
      split_and!; [done|done| |].
      * intros [|i] path; cbn.
        -- intros [= <-]. by rewrite app_nil_r.
        -- intros Hi. specialize (Hok i path Hi).
           by rewrite <- app_assoc in Hok.
      * destruct rest; [done|]. by rewrite <- app_assoc in Hrest.
    + exists [], (p :: filePaths). rewrite !app_nil_r. split_and!; done.
Qed.

(** X26. The compile commands files to watch are the values of
    [compileCommands] that exist on the file system, each one once. They
    get a watcher one after the other as long as [fs.watch] returns one:
    the first call that throws ends the loop, the files after it get no
    watcher, and no exception leaves the method. *)
Theorem updateCompileCommandsFileWatchers_spec (this : CppProperties)
    (json : ConfigurationJson) :
  configurationJson this = Some json →
  ∃ filePaths watched rest,
    updateCompileCommandsFileWatchers this = Some watched
    ∧ NoDup filePaths
    ∧ (∀ path, path ∈ filePaths
               ↔ existsSync path = true
                 ∧ ∃ c, c ∈ configurations json ∧ compileCommands c = Some path)
    ∧ filePaths = watched ++ rest
    ∧ (∀ i path, watched !! i = Some path → watch (take i watched) path = true)
    ∧ match rest with
      | [] => True
      | path :: _ => watch watched path = false
      end.
Proof.
  intros Hjson. unfold updateCompileCommandsFileWatchers. rewrite Hjson.
  cbn [mbind option_bind].
  set (filePaths := foldl _ [] (configurations json)).
  destruct (compileCommands_filePaths (configurations json) [] NoDup_nil_2)
    as [Hnodup Hiff].
  fold filePaths in Hnodup, Hiff.
  destruct (watchFiles_spec filePaths [])
    as (watched & rest & Heq & Hsplit & Hok & Hrest).
  exists filePaths, watched, rest. split_and!; [by rewrite Heq|done| |done..].
  intros path. rewrite Hiff.
  split; [intros [Hnil|?]; [by apply not_elem_of_nil in Hnil|done]|by right].
Qed.

End BrowsePath.
(** The type tests of [demoFolder] test the type. *)
Ltac demo_type_test :=
  first [ intros [| | | |]; split; try done; try (by intros [? ?]); by eauto
        | intros [| | | |]; try done; by eauto
        | intros; by eauto
        | done ].

Lemma updateServerOnFolderSettingsChange_keeps_witness :
  ∃ this' json' watched fired,
    @updateServerOnFolderSettingsChange (demoFolder linuxHost)
      (demoState (str "/proj") None)
    = Some (Updated this' watched fired)
    ∧ configurationJson this' = Some json'
    ∧ name <$> configurations json' = [str "Linux"]
    ∧ Forall (λ c, is_Some (browse c)) (configurations json').
Proof.
  destruct (@updateServerOnFolderSettingsChange_keeps (demoFolder linuxHost)
              ltac:(demo_type_test) ltac:(demo_type_test) ltac:(demo_type_test)
              ltac:(demo_type_test) ltac:(demo_type_test)
              (demoState (str "/proj") None)
              (mkConfigurationJson [namedConfig (str "Linux")] None (Some 4) None)
              eq_refl)
    as (this' & json' & watched & fired & Hupdate & Hjson & _ & _ & _ & _
        & Hnames & Hbrowse & _).
  exists this', json', watched, fired.
  split_and!; [exact Hupdate|exact Hjson|exact Hnames|exact Hbrowse].
Defined.

Lemma updateConfigurationFromSettings_browse_path_witness :
  ∃ configuration',
    @updateConfigurationFromSettings (demoFolder linuxHost) ∅ incConfiguration
    = Some configuration'
    ∧ browse configuration' ≫= Browse.path
      = Some [str "/usr/inc"; str "/usr/inc"; str "/usr/include"; str "/usr/inc";
              str "${workspaceFolder}"].
Proof.
  eexists. split; [vm_compute; reflexivity|].
  destruct (proj2 (@updateConfigurationFromSettings_browse_path
                     (demoFolder linuxHost) ∅ incConfiguration _
                     ltac:(vm_compute; reflexivity) eq_refl)
                  eq_refl) as (path & Hpath & Hshape & _).
  rewrite Hpath. f_equal. exact Hshape.
Defined.

Lemma updateCompileCommandsFileWatchers_spec_witness :
  ∃ filePaths watched rest,
    @updateCompileCommandsFileWatchers (limitedFolder watchHost 1) watchState
    = Some watched
    ∧ NoDup filePaths
    ∧ (∀ path, path ∈ filePaths
               ↔ @existsSync watchHost path = true
                 ∧ ∃ c, c ∈ configurations watchJson
                        ∧ compileCommands c = Some path)
    ∧ filePaths = watched ++ rest
    ∧ (∀ i path, watched !! i = Some path →
                 @watch (limitedFolder watchHost 1) (take i watched) path = true)
    ∧ match rest with
      | [] => True
      | path :: _ => @watch (limitedFolder watchHost 1) watched path = false
      end.
Proof.
  exact (@updateCompileCommandsFileWatchers_spec (limitedFolder watchHost 1)
           watchState watchJson eq_refl).
Defined.

(** With room for one watcher, the second file gets none; without a limit
    both files get one, each once. *)
Example updateCompileCommandsFileWatchers_limit :
  @updateCompileCommandsFileWatchers (limitedFolder watchHost 1) watchState
  = Some [str "/proj/a.json"]
  ∧ @updateCompileCommandsFileWatchers (demoFolder watchHost) watchState
    = Some [str "/proj/a.json"; str "/proj/b.json"].
Proof. split; by vm_compute. Qed.

(** * Configuration changes and edits *)
Section LoadState.
Context `{Host}.

Lemma selectedAfter_range (this : CppProperties) (new : list Configuration) :
  new ≠ [] → 0 ≤ selectedAfter this new < Z.of_nat (length new).
Proof.
  intros Hne. unfold selectedAfter.
  destruct (_ || _) eqn:E; [by apply platformPreferredIndex_range|].
  apply orb_false_elim in E as [?%Z.ltb_ge ?%Z.leb_gt]. lia.
Qed.

(** After a load the object is as before, or it has a document with
    configurations and an index into them. The properties file is the
    same. *)
Lemma parsePropertiesFile_state (this : CppProperties)
    (readResults : option jsstring) (canWrite : bool) (documentText : jsstring) :
  let this' := stateAfter (parsePropertiesFile this readResults canWrite
                                               documentText) in
  propertiesFile this' = propertiesFile this
  ∧ (this' = this
     ∨ ∃ json, configurationJson this' = Some json
               ∧ configurations json ≠ []
               ∧ 0 ≤ currentConfigurationIndex this'
                 < Z.of_nat (length (configurations json))).
Proof.
  cbv zeta.
  destruct readResults as [text|]; [|split; [done|by left]].
  destruct (decide (text = [])) as [->|Hne]; [split; [done|by left]|].
  destruct (refused (JSON_parse text)) eqn:Hrefused.
  { destruct (parsePropertiesFile_refused this text canWrite documentText
                Hne Hrefused) as [message ->]. split; [done|by left]. }
  destruct (JSON_parse text) as [m| |[[|c cs]|] e v sq] eqn:Hparse; try done.
  pose proof (parsePropertiesFile_loads this text canWrite documentText
                c cs e v sq Hne Hparse) as (Hindex & (json & Hjson & _ & Hnames) & _).
  split.
  - destruct (parsePropertiesFile_outcome this text canWrite documentText c cs e
              v sq Hne Hparse)
    as (pass & Hpass & Hload); rewrite Hload; clear Hload.
    destruct (_ && _); [done|]. cbn [stateAfter].
    by rewrite (proj1 (proj2 (handleSquiggles_frame _ _ _ Hpass))).
  - right. exists json. split; [done|].
    assert (length (configurations json) = length (c :: cs)) as Hlen.
    { by rewrite <- (length_fmap name), Hnames, length_fmap. }
    split; [by destruct (configurations json)|].
    rewrite Hindex, Hlen. by apply selectedAfter_range.
Qed.

End LoadState.

Section ChangeFacts.
Context `{Folder}.

Hypothesis isString_spec : ∀ v, isString v = true ↔ ∃ s, v = JsString s.
Hypothesis isBoolean_spec : ∀ v, isBoolean v = true ↔ ∃ b, v = JsBoolean b.
Hypothesis isArrayOfString_array :
  ∀ v, isArrayOfString v = true → ∃ l, v = JsStrings l.
Hypothesis isArrayOfString_nonempty :
  ∀ l, l ≠ [] → isArrayOfString (JsStrings l) = true.
Hypothesis resolveVariablesOther_null :
  ∀ env, is_Some (toString (resolveVariablesOther JsNull env)).

Lemma fixIndex_selects (this : CppProperties) :
  (∀ json, configurationJson this = Some json → configurations json ≠ []) →
  ∃ this', fixIndex this = Some this'
           ∧ propertiesFile this' = propertiesFile this
           ∧ configurationJson this' = configurationJson this
           ∧ (configurationJson this ≠ None → selects this').
Proof.
  intros Hconfigs. unfold fixIndex.
  destruct (configurationJson this) as [json|] eqn:Hjson;
    [|eexists; by split_and!].
  specialize (Hconfigs json eq_refl).
  destruct (_ || _) eqn:Hout.
  - rewrite (getConfigIndexForPlatform_spec _ _ Hjson). cbn.
    eexists. split; [done|]. cbn. split; [done|]. split; [done|]. intros _.
    exists json. cbn. split; [done|]. split; [done|].
    by apply platformPreferredIndex_range.
  - eexists. split; [done|]. split; [done|]. split; [done|]. intros _.
    exists json. split; [done|]. split; [done|].
    apply orb_false_elim in Hout as [?%Z.ltb_ge ?%Z.leb_gt]. lia.
Qed.


Lemma selects_same_names (this this' : CppProperties)
    (json json' : ConfigurationJson) :
  selects this →
  configurationJson this = Some json → configurationJson this' = Some json' →
  currentConfigurationIndex this' = currentConfigurationIndex this →
  name <$> configurations json' = name <$> configurations json →
  selects this'.
Proof.
  intros (j & Hj & Hne & Hrange) Hjson Hjson' Hindex Hnames.
  assert (j = json) as -> by congruence.
  assert (length (configurations json') = length (configurations json)) as Hlen
    by (by rewrite <- (length_fmap name), Hnames, length_fmap).
  exists json'. split; [done|]. split; [|by rewrite Hindex, Hlen].
  destruct (configurations json'), (configurations json); done.
Qed.

Lemma selects_current (this : CppProperties) :
  selects this → is_Some (CurrentConfiguration this).
Proof.
  intros (json & Hjson & _ & Hrange). unfold CurrentConfiguration, Configurations.
  rewrite Hjson. cbn. rewrite (proj2 (Z.leb_le _ _)) by lia.
  apply lookup_lt_is_Some. lia.
Qed.

Lemma applyDefaultIncludePathsAndFrameworks_selects (this : Whole.t) :
  selects (Whole.core this) →
  ∃ this', applyDefaultIncludePathsAndFrameworks this = Some this'
           ∧ selects (Whole.core this')
           ∧ propertiesFile (Whole.core this') = propertiesFile (Whole.core this).
Proof.
  intros Hselects.
  assert (is_Some (applyDefaultIncludePathsAndFrameworks this)) as [this' Hthis'].
  { unfold applyDefaultIncludePathsAndFrameworks.
    destruct (_ && _ && _ && _); [|by eauto].
    destruct (selects_current _ Hselects) as [c ->].
    destruct Hselects as (json & -> & _). by eauto. }
  exists this'. split; [done|].
  destruct (applyDefaultIncludePathsAndFrameworks_result this this' Hthis')
    as (_ & Hindex & _ & Hfile & _ & _ & Hjson & _).
  split; [|done].
  pose proof Hselects as (json & Hj & _).
  destruct (Hjson json Hj) as (json' & Hj' & _ & _ & Hnames & _).
  by eapply selects_same_names.
Qed.

(** X27. Once [propertiesFile] is no longer [undefined], a configuration
    change that starts from an object whose document, if it has one, has
    configurations (and, when there is no properties file, an index into
    them) goes through without exception and leaves an object that has a
    document with configurations and a current configuration among them.
    The properties file is loaded exactly when there is one. *)
Theorem handleConfigurationChange_selects (this : Whole.t)
    (readResults : option jsstring) (canWrite : bool) (documentText : jsstring) :
  Whole.propertiesFileUndefined this = false
  ∨ propertiesFile (Whole.core this) ≠ None →
  (∀ json, configurationJson (Whole.core this) = Some json →
           configurations json ≠ []) →
  (propertiesFile (Whole.core this) = None →
   configurationJson (Whole.core this) ≠ None → selects (Whole.core this)) →
  ∃ this' load update,
    handleConfigurationChange this readResults canWrite documentText
    = Some (Changed this' load update)
    ∧ selects (Whole.core this')
    ∧ is_Some (CurrentConfiguration (Whole.core this'))
    ∧ propertiesFile (Whole.core this') = propertiesFile (Whole.core this)
    ∧ (load = None ↔ propertiesFile (Whole.core this) = None).
Proof.
  intros Hchecked Hconfigs Hnofile. unfold handleConfigurationChange.
  assert (Whole.propertiesFileUndefined this
          && bool_decide (propertiesFile (Whole.core this) = None) = false) as ->.
  { destruct Hchecked as [-> | Hfile]; [done|].
    rewrite (bool_decide_eq_false_2 _ Hfile). apply andb_false_r. }
  assert (∀ core load,
            propertiesFile core = propertiesFile (Whole.core this) →
            configurationJson core = None ∨ selects core →
            (load = None ↔ propertiesFile (Whole.core this) = None) →
            ∃ this' update,
              (core ← (if bool_decide (configurationJson core = None)
                       then resetToDefaultSettings core true else Some core);
               this ← applyDefaultIncludePathsAndFrameworks
                        (Whole.set_core core this);
               update ← updateServerOnFolderSettingsChange (Whole.core this);
               Some (Changed (match update with
                              | Updated core _ _ => Whole.set_core core this
                              | NoDocument => this
                              end)
                             load update))
              = Some (Changed this' load update)
              ∧ selects (Whole.core this')
              ∧ is_Some (CurrentConfiguration (Whole.core this'))
              ∧ propertiesFile (Whole.core this') = propertiesFile (Whole.core this)
              ∧ (load = None ↔ propertiesFile (Whole.core this) = None)) as Hrest.
  { intros core load Hfile Hcore Hload.
    assert (∃ core', (if bool_decide (configurationJson core = None)
                      then resetToDefaultSettings core true else Some core)
                     = Some core'
                     ∧ propertiesFile core' = propertiesFile core
                     ∧ selects core') as (core' & -> & Hfile' & Hcore').
    { destruct Hcore as [Hnone|Hsel].
      - rewrite bool_decide_eq_true_2 by done.
        destruct (resetToDefaultSettings_result core true)
          as (core' & -> & Hj & Hi & _ & _ & _ & _ & Hf & _).
        exists core'. split; [done|]. split; [done|].
        exists getDefaultCppProperties. split; [done|]. split; [done|].
        rewrite Hi. cbn. lia.
      - pose proof Hsel as (json & Hj & _).
        rewrite bool_decide_eq_false_2 by congruence. eauto. }
    cbn [mbind option_bind].
    destruct (applyDefaultIncludePathsAndFrameworks_selects
                (Whole.set_core core' this)) as (this1 & -> & Hsel1 & Hfile1);
      [done|].
    cbn [mbind option_bind].
    pose proof Hsel1 as (json1 & Hj1 & _).
    destruct (updateServerOnFolderSettingsChange_result isString_spec
                isBoolean_spec isArrayOfString_array isArrayOfString_nonempty
                resolveVariablesOther_null (Whole.core this1) json1 Hj1)
      as (core2 & json2 & watched & fired & -> & Hj2 & Hsame & _ & _ & _
          & Hnames & _).
    cbn [mbind option_bind]. eexists _, _. split; [done|].
    assert (selects core2) as Hsel2.
    { eapply (selects_same_names (Whole.core this1)); try done.
      rewrite Hsame. by destruct core2. }
    cbn. split; [done|]. split; [by apply selects_current|].
    split; [|done].
    cbn in Hfile1. rewrite <- Hfile, <- Hfile', <- Hfile1, Hsame.
    by destruct core2. }
  destruct (propertiesFile (Whole.core this)) as [file|] eqn:Hpf.
  - pose proof (parsePropertiesFile_state (Whole.core this) readResults canWrite
                  documentText) as [Hpf' Hstate].
    cbv zeta in Hpf', Hstate.
    destruct (fixIndex_selects
                (stateAfter (parsePropertiesFile (Whole.core this) readResults
                               canWrite documentText)))
      as (core & Hfix & Hf & Hj & Hsel).
    { intros json Hjson. destruct Hstate as [Hsame|(j & Hj & Hne & _)].
      - apply Hconfigs. by rewrite <- Hsame.
      - congruence. }
    destruct (Hrest core
                (Some (parsePropertiesFile (Whole.core this) readResults canWrite
                         documentText)))
      as (this' & update & Heq & Hfacts).
    { congruence. }
    { destruct (configurationJson core) eqn:E; [right|by left].
      apply Hsel. congruence. }
    { done. }
    exists this',
           (Some (parsePropertiesFile (Whole.core this) readResults canWrite
                    documentText)), update.
    split; [|exact Hfacts].
    cbv zeta. rewrite Hfix. exact Heq.
  - destruct (Hrest (Whole.core this) None) as (this' & update & Heq & Hfacts).
    { done. }
    { destruct (configurationJson (Whole.core this)) eqn:E; [right|by left].
      by apply Hnofile. }
    { done. }
    exists this', None, update. split; [exact Heq|exact Hfacts].
Qed.

End ChangeFacts.
Lemma handleConfigurationChange_selects_witness :
  ∃ this' load update,
    @handleConfigurationChange (demoFolder xyzHost) (wholeOf abcState)
      (Some xyzText) true xyzText
    = Some (Changed this' load update)
    ∧ selects (Whole.core this').
Proof.
  destruct (@handleConfigurationChange_selects (demoFolder xyzHost)
              ltac:(demo_type_test) ltac:(demo_type_test) ltac:(demo_type_test)
              ltac:(demo_type_test) ltac:(demo_type_test)
              (wholeOf abcState) (Some xyzText) true xyzText
              ltac:(left; reflexivity)
              ltac:(intros json [= <-]; discriminate)
              ltac:(intros Hfile; discriminate Hfile))
    as (this' & load & update & Hchange & Hselects & _).
  exists this', load, update. split; [exact Hchange|exact Hselects].
Defined.

Section EditFacts.
Context `{Folder}.

Lemma set_configurationAt_lookup (index : Z) (c : Configuration)
    (json : ConfigurationJson) :
  0 ≤ index < Z.of_nat (length (configurations json)) →
  configurations (set_configurationAt index c json) !! Z.to_nat index = Some c
  ∧ (∀ i, Z.of_nat i ≠ index →
          configurations (set_configurationAt index c json) !! i
          = configurations json !! i)
  ∧ length (configurations (set_configurationAt index c json))
    = length (configurations json).
Proof.
  intros Hrange. unfold set_configurationAt. cbn. split_and!.
  - apply list_lookup_insert_eq. lia.
  - intros i Hi. apply list_lookup_insert_ne. lia.
  - apply length_insert.
Qed.

Lemma CurrentConfiguration_Some (this : CppProperties) (config : Configuration) :
  CurrentConfiguration this = Some config →
  ∃ json, configurationJson this = Some json
          ∧ 0 ≤ currentConfigurationIndex this
            < Z.of_nat (length (configurations json))
          ∧ configurations json !! Z.to_nat (currentConfigurationIndex this)
            = Some config.
Proof.
  unfold CurrentConfiguration, Configurations.
  destruct (configurationJson this) as [json|]; [|done]. cbn.
  destruct (0 <=? currentConfigurationIndex this) eqn:Hpos; [|done].
  intros Hc. exists json. split; [done|]. split; [|done].
  apply Z.leb_le in Hpos. apply lookup_lt_Some in Hc. lia.
Qed.


(** X29. [updateCustomConfigurationProvider]: with a properties file, the file
    is loaded and the current configuration gets the provider id, or loses
    its provider when the id is absent or empty, and the document written
    is the document kept; without a properties file nothing is loaded, the
    setting gets the id, or is deleted, and the current configuration gets
    the id as it is. *)
Theorem updateCustomConfigurationProvider_sets (this : CppProperties)
    (readResults : option jsstring) (canWrite : bool) (documentText : jsstring)
    (providerId : option jsstring) :
  (∀ config,
     propertiesFile this ≠ None →
     let load := parsePropertiesFile this readResults canWrite documentText in
     CurrentConfiguration (stateAfter load) = Some config →
     ∃ this' written,
       updateCustomConfigurationProvider this readResults canWrite documentText
                                         providerId
       = Some (ProviderInFile load this' written)
       ∧ configurationJson this' = Some written
       ∧ CurrentConfiguration this'
         = Some (set_configurationProvider
                   (if JS.truthy providerId then providerId else None) config))
  ∧ (∀ config,
       propertiesFile this = None →
       CurrentConfiguration this = Some config →
       ∃ this',
         updateCustomConfigurationProvider this readResults canWrite documentText
                                           providerId
         = Some (ProviderInSetting
                   (if JS.truthy providerId then providerId else None)
                   (Some this'))
         ∧ CurrentConfiguration this'
           = Some (set_configurationProvider providerId config))
  ∧ (propertiesFile this = None → CurrentConfiguration this = None →
     updateCustomConfigurationProvider this readResults canWrite documentText
                                       providerId
     = Some (ProviderInSetting
               (if JS.truthy providerId then providerId else None) None)).
Proof.
  unfold updateCustomConfigurationProvider. split_and!.
  - intros config Hfile. cbv zeta. intros Hconfig.
    destruct (propertiesFile this); [|done].
    destruct (CurrentConfiguration_Some _ _ Hconfig)
      as (json & Hjson & Hrange & Hc).
    rewrite Hconfig, Hjson. cbn [mbind option_bind].
    eexists _, _. split; [done|]. cbn. split; [done|].
    unfold CurrentConfiguration, Configurations. cbn.
    rewrite (proj2 (Z.leb_le _ _)) by lia.
    destruct (JS.truthy providerId);
      apply (set_configurationAt_lookup _ _ _ Hrange).
  - intros config -> Hconfig.
    destruct (CurrentConfiguration_Some _ _ Hconfig)
      as (json & Hjson & Hrange & Hc).
    rewrite Hconfig, Hjson. cbn [mbind option_bind].
    eexists. split; [done|].
    unfold CurrentConfiguration, Configurations. cbn.
    rewrite (proj2 (Z.leb_le _ _)) by lia.
    apply (set_configurationAt_lookup _ _ _ Hrange).
  - by intros -> ->.
Qed.


End EditFacts.


(** * The window of the current configuration *)
Section WindowFacts.
Context `{Host}.
Import Regex.

Lemma searchFrom_Some (items : list Item) (text : jsstring) (i : nat) :
  searchFrom items text = Some i →
  (i ≤ length text)%nat ∧ matchesAt items (drop i text) = true.
Proof.
  revert i. induction text as [|a text IH]; intros i.
  - cbn. destruct (matchesAt items []) eqn:E; [|done]. intros [= <-]. by split.
  - cbn [searchFrom]. destruct (matchesAt items (a :: text)) eqn:E.
    + intros [= <-]. split; [lia|done].
    + destruct (searchFrom items text) as [j|]; [|done]. intros [= <-].
      destruct (IH j eq_refl) as [Hj Hm]. split; [simpl; lia|done].
Qed.

Lemma search_found (items : list Item) (text : jsstring) :
  search items text ≠ -1 →
  ∃ i, search items text = Z.of_nat i
       ∧ (i ≤ length text)%nat ∧ matchesAt items (drop i text) = true.
Proof.
  unfold search. destruct (searchFrom items text) as [i|] eqn:E; [|done].
  intros _. exists i. split; [done|]. by apply searchFrom_Some.
Qed.

Lemma take_length_take {A} (n : nat) (l : list A) :
  take (length (take n l)) l = take n l.
Proof.
  rewrite length_take. destruct (decide (n ≤ length l)%nat).
  - by rewrite Nat.min_l.
  - rewrite Nat.min_r by lia. by rewrite !take_ge by lia.
Qed.

(** X13. The text of the current configuration is a piece of the document, and
    its offset is where the piece starts: the document has the text at
    that offset. So an offset into the text, added to the offset of the
    text, is the offset of the same character in the document. *)
Theorem configurationWindow_offset (configName documentText : jsstring)
    (curTextStartOffset : Z) (curText : jsstring) :
  configurationWindow configName documentText
  = WindowAt curTextStartOffset curText →
  0 < curTextStartOffset ≤ Z.of_nat (length documentText)
  ∧ JS.substr documentText curTextStartOffset (Some (Z.of_nat (length curText)))
    = curText.
Proof.
  unfold configurationWindow.
  set (first := search _ documentText).
  destruct (decide (first = -1)) as [|Hfound]; [done|].
  destruct (search_found _ _ Hfound) as (i & Hi & Hlen & Hmatch).
  fold first in Hi. rewrite Hi. clear Hfound.
  assert (i < length documentText)%nat as Hlt.
  { cbn [matchesAt] in Hmatch. apply andb_prop in Hmatch as [Hstart _].
    destruct (drop i documentText) eqn:Hd; [done|].
    apply (f_equal length) in Hd. rewrite length_drop in Hd. simpl in Hd. lia. }
  replace (Z.of_nat i + 1) with (Z.of_nat (S i)) by lia.
  rewrite substr_from.
  set (t1 := drop (S i) documentText).
  assert (∃ m, JS.indexOf t1 (str ":") 0 + 1 = Z.of_nat m
               ∧ (m ≤ length t1)%nat) as (m & Hm & Hmlen).
  { unfold JS.indexOf.
    replace (Z.min (Z.max 0 0) (Z.of_nat (length t1))) with 0 by lia.
    change (Z.to_nat 0) with 0%nat. rewrite drop_0.
    destruct (JS.firstIndex t1 (str ":")) as [j|] eqn:Ej.
    - exists (S j). split; [lia|].
      apply firstIndex_Some in Ej. apply (f_equal length) in Ej.
      rewrite !length_app, length_take in Ej.
      change (length (str ":")) with 1%nat in Ej. lia.
    - exists 0%nat. split; [done|lia]. }
  rewrite Hm. rewrite substr_from.
  replace (Z.of_nat (S i) + Z.of_nat m) with (Z.of_nat (S i + m)) by lia.
  set (t2 := drop m t1).
  assert (t2 = drop (S i + m) documentText) as Ht2
    by (subst t2 t1; by rewrite drop_drop).
  assert (S i + m ≤ length documentText)%nat as Hk.
  { subst t1. rewrite length_drop in Hmlen. lia. }
  assert (∀ text, text = take (length text) t2 →
            0 < Z.of_nat (S i + m) ≤ Z.of_nat (length documentText)
            ∧ JS.substr documentText (Z.of_nat (S i + m))
                        (Some (Z.of_nat (length text))) = text) as Hpiece.
  { intros text Htext. split; [lia|].
    assert (length text ≤ length t2)%nat as Hle.
    { rewrite Htext, length_take. lia. }
    rewrite Ht2, length_drop in Hle.
    unfold JS.substr. rewrite (proj2 (Z.ltb_ge _ _)) by lia.
    rewrite Z.min_l by lia. rewrite Z.max_l by lia. rewrite Z.min_l by lia.
    rewrite !Nat2Z.id. by rewrite <- Ht2, <- Htext. }
  set (next := search _ t2).
  destruct (decide (next ≠ -1)) as [Hnext|Hnone].
  - destruct (search_found _ _ Hnext) as (n & Hn & _).
    fold next in Hn. rewrite Hn.
    replace (Z.of_nat n + 6) with (Z.of_nat (n + 6)) by lia.
    rewrite substr_prefix.
    set (second := search _ (take (n + 6) t2)).
    destruct (decide (second = -1)) as [|Hsecond]; [done|].
    destruct (search_found _ _ Hsecond) as (n2 & Hn2 & _).
    fold second in Hn2. rewrite Hn2, substr_prefix.
    intros [= <- <-]. apply Hpiece.
    rewrite take_take. symmetry. apply take_length_take.
  - intros [= <- <-]. apply Hpiece. by rewrite firstn_all.
Qed.

End WindowFacts.

Lemma configurationWindow_offset_witness :
  ∃ curTextStartOffset curText,
    @configurationWindow (str "Linux") incText = WindowAt curTextStartOffset curText
    ∧ JS.substr incText curTextStartOffset (Some (Z.of_nat (length curText)))
      = curText.
Proof.
  eexists _, _. split; [vm_compute; reflexivity|].
  apply (@configurationWindow_offset (str "Linux") incText).
  vm_compute. reflexivity.
Defined.
